(** * Payment authorization pipeline of procivis-prototype

    A shallow embedding of [services/SecurityConfig.js],
    [services/PaymentService.js], the part of [services/AccountService.js]
    that moves a balance, and the payment controller
    ([PaymentController]: poll-status, process, verify-PIN), followed by the
    properties of the specification that concern them.

    Modelling conventions, fixed once for the whole development:
    - money is an integer number of minor units ([Z]); the JavaScript
      source uses doubles;
    - an ISO-8601 timestamp is the number of milliseconds it denotes ([Z]);
      the source compares the strings, which for [toISOString] output is the
      same order;
    - one handler invocation reads one clock value and draws one fresh
      attempt identifier (field [now] and [freshId] of the environment);
    - writing the JSON files ([saveDataToFile]) succeeds; the persistence
      format is outside the specification;
    - template literals that interpolate numbers or dates are kept in
      structured form ([ErrorDetails], [ErrorMsg]) instead of rendered text;
    - [console.log] lines are dropped, except warnings of the configuration
      and the security lines of the PIN check, which are kept as data;
    - the notifier ([EmailService]) catches its own errors and never
      rejects: a notification is an effect without an outcome; the verifier
      ([ProcivisService]) may reject, which the environment decides;
    - strings are ASCII text: [trim] removes the six ASCII white-space
      characters, and the length of a string is its number of characters;
    - handlers run one after the other unless said otherwise; the last part
      of the controller models two verify-PIN handlers that overlap at the
      [await] on the verifier. *)

From Stdlib Require Import ZArith List String Bool Lia Permutation Sorted.
From Stdlib Require Import DecimalString Ascii.
Import ListNotations.

Local Open Scope string_scope.
Local Open Scope list_scope.
Local Open Scope Z_scope.

(* ===================================================================== *)
(** * Part I: the program                                                 *)
(* ===================================================================== *)

(** ** services/SecurityConfig.js *)

Inductive RiskLevel := LOW | MEDIUM | HIGH | CRITICAL.

Module SecurityConfig.

Record t := mk {
  maxPinFailuresBeforeRevoke : Z;
  maxPinFailuresBeforeAlert : Z
}.

(** [parseInt(process.env.X) || d]: [None] stands for [NaN] (variable
    unset or not a number); [NaN] and [0] are falsy. *)
Definition parseInt_or (v : option Z) (d : Z) : Z :=
  match v with
  | Some n => if n =? 0 then d else n
  | None => d
  end.

Definition warn_revoke_min :=
  "MAX_PIN_FAILURES_BEFORE_REVOKE must be at least 1, defaulting to 5".
Definition warn_alert_min :=
  "MAX_PIN_FAILURES_BEFORE_ALERT must be at least 1, defaulting to 2".
Definition warn_alert_lt_revoke :=
  "MAX_PIN_FAILURES_BEFORE_ALERT should be less than MAX_PIN_FAILURES_BEFORE_REVOKE".
Definition warn_adjusting :=
  "Adjusting alert threshold to revoke threshold - 1".

(** What the first two [if] statements of [validateConfiguration] leave of
    a supplied value. *)
Definition suppliedOrDefault (v : option Z) (d : Z) : Z :=
  if parseInt_or v d <? 1 then d else parseInt_or v d.

(** The three [if] statements of [validateConfiguration], in order; the
    second component collects the [console.warn] lines. *)
Definition validateConfiguration (c : t) : t * list string :=
  let r0 := maxPinFailuresBeforeRevoke c in
  let a0 := maxPinFailuresBeforeAlert c in
  let '(r, w1) := if r0 <? 1 then (5, [warn_revoke_min]) else (r0, []) in
  let '(a, w2) := if a0 <? 1 then (2, [warn_alert_min]) else (a0, []) in
  let '(a', w3) :=
    if a >=? r
    then (Z.max 1 (r - 1), [warn_alert_lt_revoke; warn_adjusting])
    else (a, []) in
  (mk r a', w1 ++ w2 ++ w3).

(** The constructor: read both variables, then validate. *)
Definition new (revokeEnv alertEnv : option Z) : t * list string :=
  validateConfiguration (mk (parseInt_or revokeEnv 5) (parseInt_or alertEnv 2)).

Definition getAlertThreshold (c : t) : Z := maxPinFailuresBeforeAlert c.
Definition getRevokeThreshold (c : t) : Z := maxPinFailuresBeforeRevoke c.

Definition shouldTriggerAlert (c : t) (consecutiveFailures : Z) : bool :=
  consecutiveFailures >=? maxPinFailuresBeforeAlert c.

Definition shouldTriggerRevocation (c : t) (consecutiveFailures : Z) : bool :=
  consecutiveFailures >=? maxPinFailuresBeforeRevoke c.

(** [Math.ceil(a / 2)] on an integer [a]. *)
Definition Math_ceil_half (a : Z) : Z := (a + 1) / 2.

Definition getRiskLevel (c : t) (consecutiveFailures : Z) : RiskLevel :=
  if consecutiveFailures >=? maxPinFailuresBeforeRevoke c then CRITICAL
  else if consecutiveFailures >=? maxPinFailuresBeforeAlert c then HIGH
  else if consecutiveFailures >=? Math_ceil_half (maxPinFailuresBeforeAlert c)
       then MEDIUM
  else LOW.

(** [getSecurityStatus]: the [action] field of the status object. *)
Definition securityAction (l : RiskLevel) : string :=
  match l with
  | LOW => "none"
  | MEDIUM => "monitor"
  | HIGH => "alert_sent"
  | CRITICAL => "credential_revoked"
  end.

Definition getSecurityStatus (c : t) (consecutiveFailures : Z)
  : RiskLevel * string :=
  let riskLevel := getRiskLevel c consecutiveFailures in
  (riskLevel, securityAction riskLevel).

End SecurityConfig.

(** ** JavaScript idioms *)

(** [!s] on a string: only the empty string is falsy. *)
Definition truthy (s : string) : bool := negb (s =? "")%string.

(** [x || null] on a possibly absent string, and on a possibly absent
    number ([0] is falsy). *)
Definition or_null (s : option string) : option string :=
  match s with
  | Some x => if truthy x then Some x else None
  | None => None
  end.

Definition or_null_num (z : option Z) : option Z :=
  match z with
  | Some x => if x =? 0 then None else Some x
  | None => None
  end.

(** [Array.prototype.findIndex], returning the element with its index. *)
Fixpoint findIndex {A : Type} (p : A -> bool) (l : list A) : option (nat * A) :=
  match l with
  | [] => None
  | x :: rest =>
      if p x then Some (O, x)
      else match findIndex p rest with
           | Some (i, y) => Some (S i, y)
           | None => None
           end
  end.

(** [arr[i] = x] for an index inside the array. *)
Fixpoint set_nth {A : Type} (i : nat) (x : A) (l : list A) : list A :=
  match l, i with
  | [], _ => []
  | _ :: rest, O => x :: rest
  | y :: rest, S j => y :: set_nth j x rest
  end.

(** [s.slice(-4)]: the last four characters, the whole string when it is
    shorter. *)
Definition slice_last4 (s : string) : string :=
  substring (String.length s - 4) 4 s.

(** [String.prototype.trim] on ASCII text. *)
Definition isSpace (c : ascii) : bool :=
  match nat_of_ascii c with
  | 9%nat | 10%nat | 11%nat | 12%nat | 13%nat | 32%nat => true
  | _ => false
  end.

Fixpoint trimStart (s : string) : string :=
  match s with
  | EmptyString => EmptyString
  | String c rest => if isSpace c then trimStart rest else s
  end.

Fixpoint trimEnd (s : string) : string :=
  match s with
  | EmptyString => EmptyString
  | String c rest =>
      match trimEnd rest with
      | EmptyString => if isSpace c then EmptyString else String c EmptyString
      | kept => String c kept
      end
  end.

Definition trim (s : string) : string := trimEnd (trimStart s).

(** ['*'.repeat(n)] *)
Fixpoint repeatStar (n : nat) : string :=
  match n with
  | O => EmptyString
  | S m => String "*" (repeatStar m)
  end.

(** [arr.slice(-n)]: the last [n] elements, all of them when there are
    fewer. *)
Definition sliceLast {A : Type} (n : nat) (l : list A) : list A :=
  skipn (List.length l - n) l.

(** ** Data model *)

Inductive RequestStatus :=
  Pending | Processing | Completed | Failed | Expired | Cancelled.

Definition RequestStatus_eqb (a b : RequestStatus) : bool :=
  match a, b with
  | Pending, Pending | Processing, Processing | Completed, Completed
  | Failed, Failed | Expired, Expired | Cancelled, Cancelled => true
  | _, _ => false
  end.

(** The terminal states of section 4.1 of the specification. *)
Definition terminal (s : RequestStatus) : bool :=
  match s with
  | Completed | Failed | Expired | Cancelled => true
  | Pending | Processing => false
  end.

(** The closed taxonomy of [recordPaymentAttempt]. *)
Inductive AttemptStatus :=
  | completed
  | failed_pin
  | failed_expired
  | failed_insufficient_funds
  | failed_invalid_credential
  | failed_invalid_state.

Definition AttemptStatus_eqb (a b : AttemptStatus) : bool :=
  match a, b with
  | completed, completed | failed_pin, failed_pin
  | failed_expired, failed_expired
  | failed_insufficient_funds, failed_insufficient_funds
  | failed_invalid_credential, failed_invalid_credential
  | failed_invalid_state, failed_invalid_state => true
  | _, _ => false
  end.

(** Interpolated diagnostics, unrendered. *)
Inductive ErrorDetails :=
  | RequestExpiredAt (expiresAt : Z)
  | CurrentStatusExpectedProcessing (current : RequestStatus)
  | CredentialOf (cardHolderName last4Digits : string)
  | AvailableRequired (available required : Z)
  | Details (text : string).

(** Values of the free-form fields merged into a payment request. *)
Inductive MetaValue :=
  | MStr (s : string)
  | MTime (t : Z)
  | MDetails (d : ErrorDetails).

Module Request.
Record t := mk {
  id : string;
  amount : Z;
  description : string;
  merchantId : string;
  status : RequestStatus;
  createdAt : Z;
  updatedAt : Z;
  expiresAt : Z;
  proofRequestId : option string;
  resultMetadata : list (string * MetaValue)
}.
End Request.

Module Attempt.
Record t := mk {
  id : string;
  paymentRequestId : string;
  status : AttemptStatus;
  amount : Z;
  merchantId : option string;
  description : string;
  timestamp : Z;
  accountId : option string;
  cardholderName : option string;
  accountEmail : option string;
  transactionId : option string;
  previousBalance : option Z;
  newBalance : option Z;
  errorReason : option string;
  errorDetails : option ErrorDetails;
  clientIp : option string;
  userAgent : option string
}.
End Attempt.

Module Account.
Record BalanceUpdate := mkUpdate {
  u_previousBalance : Z;
  u_newBalance : Z;
  u_description : string;
  u_timestamp : Z
}.
Record t := mk {
  id : string;
  cardholderName : string;
  email : string;
  pan : string;
  pin : string;
  balance : Z;
  credentialId : option string;
  lastBalanceUpdate : option BalanceUpdate
}.
End Account.

(** What leaves the process during a PIN check: the notifier and verifier
    calls and the two security log lines. *)
Inductive Effect :=
  | SecurityStatusLogged (accountId : string) (consecutiveFailures : Z)
                         (level : RiskLevel)
  | SecurityAlertEmail (account : Account.t) (paymentRequest : Request.t)
                       (consecutiveFailures : Z)
  | RevokeCredentialCall (credentialId : string)
  | CredentialRevokedEmail (account : Account.t)
  | RevokeFailedLogged (message : string).

(** The in-memory collections of the three services, and what was sent. *)
Record World := mkWorld {
  paymentRequests : list Request.t;
  payments : list Attempt.t;
  accounts : list Account.t;
  outbox : list Effect
}.

(** ** External collaborators, as seen by one handler invocation *)

Record Claim := mkClaim { path : string; value : string }.
Record ProofInput := mkProofInput { claims : list Claim }.
Record ProofDetails := mkProof { state : string; proofInputs : list ProofInput }.

Record Env := mkEnv {
  now : Z;
  freshId : string;
  procivisConfigured : bool;
  (** [None]: the call rejects. *)
  getProofRequestDetails : string -> option ProofDetails;
  (** [false]: the call rejects. *)
  revokeCredential : string -> bool;
  ip : option string;
  userAgentHeader : option string
}.

Definition getProofRequestStatus (env : Env) (proofRequestId : string)
  : option string :=
  option_map state (getProofRequestDetails env proofRequestId).

(** ** Handlers as state transformers that may throw

    An exception carries a message and leaves the collections as they were
    when it was raised. *)

Inductive outcome (A : Type) :=
  | Returned (a : A)
  | Thrown (message : string).
Arguments Returned {A} a.
Arguments Thrown {A} message.

Definition M (A : Type) : Type := World -> World * outcome A.

Definition ret {A : Type} (a : A) : M A := fun w => (w, Returned a).
Definition throw {A : Type} (message : string) : M A :=
  fun w => (w, Thrown message).
Definition bind {A B : Type} (m : M A) (k : A -> M B) : M B :=
  fun w =>
    match m w with
    | (w', Returned a) => k a w'
    | (w', Thrown e) => (w', Thrown e)
    end.
Definition get : M World := fun w => (w, Returned w).
Definition try_catch {A : Type} (m : M A) (handler : string -> M A) : M A :=
  fun w =>
    match m w with
    | (w', Returned a) => (w', Returned a)
    | (w', Thrown e) => handler e w'
    end.
(** The outermost [try]/[catch] of a handler, whose [catch] block cannot
    itself throw. *)
Definition handle {A : Type} (m : M A) (handler : string -> World -> World * A)
  : World -> World * A :=
  fun w =>
    match m w with
    | (w', Returned a) => (w', a)
    | (w', Thrown e) => handler e w'
    end.
Definition emit (e : Effect) : M unit :=
  fun w =>
    (mkWorld (paymentRequests w) (payments w) (accounts w) (outbox w ++ [e]),
     Returned tt).

Notation "x <- m ;; k" := (bind m (fun x => k))
  (at level 61, m at next level, right associativity).
Notation "m ;;; k" := (bind m (fun _ => k))
  (at level 61, right associativity).

(** ** services/PaymentService.js *)

Module PaymentService.

Definition getAllPaymentRequests (w : World) : list Request.t :=
  paymentRequests w.

Definition getPaymentRequestById (w : World) (paymentId : string)
  : option Request.t :=
  find (fun req => (Request.id req =? paymentId)%string)
       (getAllPaymentRequests w).

(** The [additionalData] argument: the one key the control flow reads
    later, and the rest. *)
Record AdditionalData := mkAdditional {
  ad_proofRequestId : option string;
  ad_fields : list (string * MetaValue)
}.

Definition noAdditionalData : AdditionalData := mkAdditional None [].

Fixpoint set_field (k : string) (v : MetaValue) (m : list (string * MetaValue))
  : list (string * MetaValue) :=
  match m with
  | [] => [(k, v)]
  | (k', v') :: rest =>
      if (k' =? k)%string then (k, v) :: rest
      else (k', v') :: set_field k v rest
  end.

(** [Object.assign(paymentRequest, additionalData)]. *)
Definition Object_assign (r : Request.t) (ad : AdditionalData) : Request.t :=
  Request.mk (Request.id r) (Request.amount r) (Request.description r)
    (Request.merchantId r) (Request.status r) (Request.createdAt r)
    (Request.updatedAt r) (Request.expiresAt r)
    (match ad_proofRequestId ad with
     | Some p => Some p
     | None => Request.proofRequestId r
     end)
    (fold_left (fun m kv => set_field (fst kv) (snd kv) m) (ad_fields ad)
               (Request.resultMetadata r)).

(** [paymentRequest.status = status; paymentRequest.updatedAt = now]. *)
Definition with_status (r : Request.t) (st : RequestStatus) (t : Z)
  : Request.t :=
  Request.mk (Request.id r) (Request.amount r) (Request.description r)
    (Request.merchantId r) st (Request.createdAt r) t (Request.expiresAt r)
    (Request.proofRequestId r) (Request.resultMetadata r).

Definition with_paymentRequests (w : World) (l : list Request.t) : World :=
  mkWorld l (payments w) (accounts w) (outbox w).

Definition with_payments (w : World) (l : list Attempt.t) : World :=
  mkWorld (paymentRequests w) l (accounts w) (outbox w).

(** The check against [validStatuses] holds for every [RequestStatus]; no
    other check is made before the assignment. *)
Definition updatePaymentRequestStatus (env : Env) (paymentId : string)
    (status : RequestStatus) (additionalData : AdditionalData)
  : M Request.t :=
  fun w =>
    match findIndex (fun req => (Request.id req =? paymentId)%string)
                    (getAllPaymentRequests w) with
    | None => (w, Thrown "Payment request not found")
    | Some (requestIndex, paymentRequest) =>
        let updated :=
          Object_assign (with_status paymentRequest status (now env))
                        additionalData in
        (with_paymentRequests w
           (set_nth requestIndex updated (getAllPaymentRequests w)),
         Returned updated)
    end.

Definition stale (env : Env) (req : Request.t) : bool :=
  RequestStatus_eqb (Request.status req) Pending
  && (Request.expiresAt req <=? now env).

Definition expireOldPaymentRequests (env : Env) : M nat :=
  fun w =>
    let paymentRequests := getAllPaymentRequests w in
    let updatedRequests :=
      map (fun req => if stale env req then with_status req Expired (now env)
                      else req) paymentRequests in
    let expiredCount := List.length (filter (stale env) paymentRequests) in
    if (0 <? expiredCount)%nat
    then (with_paymentRequests w updatedRequests, Returned expiredCount)
    else (w, Returned expiredCount).

Definition cleanupExpiredRequests (env : Env) (olderThanHours : Z) : M nat :=
  fun w =>
    let cutoffTime := now env - olderThanHours * 60 * 60 * 1000 in
    let paymentRequests := getAllPaymentRequests w in
    let validRequests :=
      filter (fun req =>
                if RequestStatus_eqb (Request.status req) Pending
                then now env <? Request.expiresAt req
                else cutoffTime <? Request.updatedAt req) paymentRequests in
    let removedCount :=
      (List.length paymentRequests - List.length validRequests)%nat in
    if (0 <? removedCount)%nat
    then (with_paymentRequests w validRequests, Returned removedCount)
    else (w, Returned removedCount).

Definition getAllPayments (w : World) : list Attempt.t := payments w.

Definition belongsTo (accountId : string) (payment : Attempt.t) : bool :=
  match Attempt.accountId payment with
  | Some a => (a =? accountId)%string
  | None => false
  end.

Definition getPaymentsByAccountId (w : World) (accountId : string)
  : list Attempt.t :=
  filter (belongsTo accountId) (getAllPayments w).

(** [.sort((a, b) => new Date(b.timestamp) - new Date(a.timestamp))]:
    [Array.prototype.sort] is stable, so the result is the one ordering by
    decreasing timestamp that keeps rows of equal timestamp in array
    order; insertion from the right computes it. *)
Fixpoint insertNewestFirst (a : Attempt.t) (sorted : list Attempt.t)
  : list Attempt.t :=
  match sorted with
  | [] => [a]
  | b :: rest =>
      if Attempt.timestamp b <=? Attempt.timestamp a then a :: b :: rest
      else b :: insertNewestFirst a rest
  end.

Fixpoint sortNewestFirst (l : list Attempt.t) : list Attempt.t :=
  match l with
  | [] => []
  | a :: rest => insertNewestFirst a (sortNewestFirst rest)
  end.

(** The [for] loop of [getConsecutivePinFailures], with its [break]. *)
Fixpoint countLoop (payments : list Attempt.t) (consecutiveFailures : Z) : Z :=
  match payments with
  | [] => consecutiveFailures
  | payment :: rest =>
      match Attempt.status payment with
      | failed_pin => countLoop rest (consecutiveFailures + 1)
      | completed => consecutiveFailures
      | _ => countLoop rest consecutiveFailures
      end
  end.

Definition getConsecutivePinFailures (w : World) (accountId : string) : Z :=
  let payments := sortNewestFirst (getPaymentsByAccountId w accountId) in
  countLoop payments 0.

(** The argument object of [recordPaymentAttempt]. *)
Record PaymentData := mkData {
  d_paymentRequestId : string;
  d_status : AttemptStatus;
  d_amount : Z;
  d_merchantId : option string;
  d_description : string;
  d_accountId : option string;
  d_cardholderName : option string;
  d_accountEmail : option string;
  d_transactionId : option string;
  d_previousBalance : option Z;
  d_newBalance : option Z;
  d_errorReason : option string;
  d_errorDetails : option ErrorDetails;
  d_clientIp : option string;
  d_userAgent : option string
}.

(** Every [AttemptStatus] is truthy and in [validStatuses]; the one
    required field that can be falsy is [paymentRequestId]. *)
Definition recordPaymentAttempt (env : Env) (paymentData : PaymentData)
  : M Attempt.t :=
  if negb (truthy (d_paymentRequestId paymentData))
  then throw "Missing required field: paymentRequestId"
  else fun w =>
    let paymentAttempt :=
      Attempt.mk (freshId env)
        (d_paymentRequestId paymentData)
        (d_status paymentData)
        (d_amount paymentData)
        (or_null (d_merchantId paymentData))
        (d_description paymentData)
        (now env)
        (or_null (d_accountId paymentData))
        (or_null (d_cardholderName paymentData))
        (or_null (d_accountEmail paymentData))
        (or_null (d_transactionId paymentData))
        (or_null_num (d_previousBalance paymentData))
        (or_null_num (d_newBalance paymentData))
        (or_null (d_errorReason paymentData))
        (d_errorDetails paymentData)
        (or_null (d_clientIp paymentData))
        (or_null (d_userAgent paymentData)) in
    (with_payments w (getAllPayments w ++ [paymentAttempt]),
     Returned paymentAttempt).

Record SecurityStatistics := mkStats {
  s_accountId : string;
  s_totalAttempts : nat;
  s_successfulPayments : nat;
  s_pinFailures : nat;
  s_consecutivePinFailures : Z;
  s_lastAttempt : option Attempt.t;
  s_riskLevel : RiskLevel
}.

Definition hasStatus (st : AttemptStatus) (p : Attempt.t) : bool :=
  AttemptStatus_eqb (Attempt.status p) st.

Definition getSecurityStatistics (w : World) (accountId : string)
  : SecurityStatistics :=
  let accountPayments := getPaymentsByAccountId w accountId in
  let consecutiveFailures := getConsecutivePinFailures w accountId in
  mkStats accountId
    (List.length accountPayments)
    (List.length (filter (hasStatus completed) accountPayments))
    (List.length (filter (hasStatus failed_pin) accountPayments))
    consecutiveFailures
    (hd_error (sortNewestFirst accountPayments))
    (if consecutiveFailures >=? 4 then HIGH
     else if consecutiveFailures >=? 2 then MEDIUM
     else LOW).

(** *** The remaining queries and reports of the service *)

Definition getPaymentRequestsByMerchant (w : World) (merchantId : string)
  : list Request.t :=
  filter (fun req => (Request.merchantId req =? merchantId)%string)
         (getAllPaymentRequests w).

Definition getActivePaymentRequests (env : Env) (w : World)
  : list Request.t :=
  filter (fun req => RequestStatus_eqb (Request.status req) Pending
                     && (now env <? Request.expiresAt req))
         (getAllPaymentRequests w).

(** The argument object of [createPaymentRequest]; [None] is a key that is
    absent (for the amount: absent or not a number). *)
Record NewPayment := mkNewPayment {
  n_amount : option Z;
  n_description : option string;
  n_merchantId : option string
}.

Definition thirtyMinutes : Z := 30 * 60 * 1000.

(** [process.env.BASE_URL || 'http://localhost:3000'] is the [baseUrl]
    argument. The [qrData] key, a JSON rendering of the values stored
    beside it, is not kept; [paymentUrl] is. *)
Definition createPaymentRequest (env : Env) (baseUrl : string)
    (paymentData : NewPayment) : M Request.t :=
  match n_amount paymentData, or_null (n_merchantId paymentData) with
  | Some amount, Some merchantId =>
      if amount =? 0 then throw "Amount and merchantId are required"
      else if amount <=? 0
      then throw "Amount must be a valid number greater than 0"
      else if (String.length (trim merchantId) =? 0)%nat
      then throw "MerchantId must be a valid string"
      else fun w =>
        let paymentId := freshId env in
        let newPaymentRequest :=
          Request.mk paymentId amount
            (match n_description paymentData with
             | Some d => d
             | None => ""
             end)
            (trim merchantId) Pending (now env) (now env)
            (now env + thirtyMinutes) None
            [("paymentUrl",
              MStr (baseUrl ++ "/api/payments/" ++ paymentId ++ "/process"))] in
        (with_paymentRequests w
           (getAllPaymentRequests w ++ [newPaymentRequest]),
         Returned newPaymentRequest)
  | _, _ => throw "Amount and merchantId are required"
  end.

Definition getSuccessfulPayments (w : World) : list Attempt.t :=
  filter (fun payment => AttemptStatus_eqb (Attempt.status payment) completed)
         (getAllPayments w).

Definition getPaymentsByMerchantId (w : World) (merchantId : string)
  : list Attempt.t :=
  filter (fun payment =>
            match Attempt.merchantId payment with
            | Some m => (m =? merchantId)%string
            | None => false
            end) (getAllPayments w).

Definition getPaymentsInDateRange (w : World) (startDate endDate : Z)
  : list Attempt.t :=
  filter (fun payment => (startDate <=? Attempt.timestamp payment)
                         && (Attempt.timestamp payment <=? endDate))
         (getAllPayments w).

(** [{ ...paymentData, status: 'completed' }] *)
Definition recordCompletedPayment (env : Env) (paymentData : PaymentData)
  : M Attempt.t :=
  recordPaymentAttempt env
    (mkData (d_paymentRequestId paymentData) completed (d_amount paymentData)
       (d_merchantId paymentData) (d_description paymentData)
       (d_accountId paymentData) (d_cardholderName paymentData)
       (d_accountEmail paymentData) (d_transactionId paymentData)
       (d_previousBalance paymentData) (d_newBalance paymentData)
       (d_errorReason paymentData) (d_errorDetails paymentData)
       (d_clientIp paymentData) (d_userAgent paymentData)).

(** A quotient of two counts of money, unevaluated; [NoPayments] is the
    [0] the source reports for an empty collection. *)
Inductive Average :=
  | NoPayments
  | Ratio (total : Z) (count : nat).

Definition countRequests (st : RequestStatus) (l : list Request.t) : nat :=
  List.length
    (filter (fun req => RequestStatus_eqb (Request.status req) st) l).

Definition countAttempts (st : AttemptStatus) (l : list Attempt.t) : nat :=
  List.length (filter (hasStatus st) l).

(** [payments.reduce((sum, payment) => sum + payment.amount, 0)] *)
Definition sumAmounts (l : list Attempt.t) : Z :=
  fold_left (fun sum payment => sum + Attempt.amount payment) l 0.

Definition averageOf (l : list Attempt.t) : Average :=
  if (0 <? List.length l)%nat then Ratio (sumAmounts l) (List.length l)
  else NoPayments.

Record RequestCounts := mkRequestCounts {
  rc_total : nat;
  rc_pending : nat;
  rc_completed : nat;
  rc_failed : nat;
  rc_expired : nat;
  rc_cancelled : nat
}.

Record AttemptCounts := mkAttemptCounts {
  ac_total : nat;
  ac_successful : nat;
  ac_failed_pin : nat;
  ac_failed_expired : nat;
  ac_failed_insufficient_funds : nat;
  ac_failed_invalid_credential : nat;
  ac_totalAmount : Z;
  ac_averageAmount : Average
}.

Definition getPaymentStatistics (w : World) : RequestCounts * AttemptCounts :=
  let paymentRequests := getAllPaymentRequests w in
  let allPayments := getAllPayments w in
  let successfulPayments := getSuccessfulPayments w in
  (mkRequestCounts (List.length paymentRequests)
     (countRequests Pending paymentRequests)
     (countRequests Completed paymentRequests)
     (countRequests Failed paymentRequests)
     (countRequests Expired paymentRequests)
     (countRequests Cancelled paymentRequests),
   mkAttemptCounts (List.length allPayments)
     (List.length successfulPayments)
     (countAttempts failed_pin allPayments)
     (countAttempts failed_expired allPayments)
     (countAttempts failed_insufficient_funds allPayments)
     (countAttempts failed_invalid_credential allPayments)
     (sumAmounts successfulPayments)
     (averageOf successfulPayments)).

Record MerchantStatistics := mkMerchantStats {
  ms_merchantId : string;
  ms_requestsTotal : nat;
  ms_requestsPending : nat;
  ms_requestsCompleted : nat;
  ms_attemptsTotal : nat;
  ms_attemptsSuccessful : nat;
  ms_attemptsFailed : nat;
  ms_totalAmount : Z;
  ms_averageAmount : Average
}.

Definition getMerchantStatistics (w : World) (merchantId : string)
  : MerchantStatistics :=
  let merchantRequests := getPaymentRequestsByMerchant w merchantId in
  let merchantPayments := getPaymentsByMerchantId w merchantId in
  let successfulMerchantPayments :=
    filter (hasStatus completed) merchantPayments in
  mkMerchantStats merchantId
    (List.length merchantRequests)
    (countRequests Pending merchantRequests)
    (countRequests Completed merchantRequests)
    (List.length merchantPayments)
    (List.length successfulMerchantPayments)
    (List.length merchantPayments - List.length successfulMerchantPayments)%nat
    (sumAmounts successfulMerchantPayments)
    (averageOf successfulMerchantPayments).

End PaymentService.

(** ** services/AccountService.js: balance *)

Module AccountService.

Definition getAllAccounts (w : World) : list Account.t := accounts w.

Definition with_accounts (w : World) (l : list Account.t) : World :=
  mkWorld (paymentRequests w) (payments w) l (outbox w).

Definition updateAccountBalance (env : Env) (accountId : string)
    (newBalance : Z) (description : string) : M Account.t :=
  fun w =>
    match findIndex (fun account => (Account.id account =? accountId)%string)
                    (getAllAccounts w) with
    | None => (w, Thrown "Account not found")
    | Some (accountIndex, account) =>
        let oldBalance := Account.balance account in
        let updated :=
          Account.mk (Account.id account) (Account.cardholderName account)
            (Account.email account) (Account.pan account) (Account.pin account)
            newBalance (Account.credentialId account)
            (Some (Account.mkUpdate oldBalance newBalance description
                                    (now env))) in
        (with_accounts w (set_nth accountIndex updated (getAllAccounts w)),
         Returned updated)
    end.

Definition getAccountById (w : World) (accountId : string)
  : option Account.t :=
  find (fun acc => (Account.id acc =? accountId)%string) (getAllAccounts w).

(** [maskPAN]: the empty string is falsy, so it falls under the first
    test like every string shorter than eight characters. *)
Definition maskPAN (pan : string) : string :=
  if (String.length pan <? 8)%nat then pan
  else
    let start := substring 0 4 pan in
    let end_ := substring (String.length pan - 4) 4 pan in
    let middle := repeatStar (String.length pan - 8) in
    (start ++ middle ++ end_)%string.

End AccountService.

(** ** The payment controller *)

Inductive ErrorMsg :=
  | Msg (text : string)
  | CannotBeProcessed (current : RequestStatus)
  | InsufficientBalanceMsg (available required : Z).

Record Completion := mkCompletion {
  c_paymentId : string;
  c_transactionId : string;
  c_amount : Z;
  c_merchantId : string;
  c_description : string;
  c_cardholderName : string;
  c_timestamp : Z;
  c_previous : Z;
  c_current : Z
}.

Inductive Payload :=
  | Error (e : ErrorMsg)
  | PaymentStatus (paymentRequest : Request.t) (proofState : option string)
  | ReadyForPin (paymentId : string)
  | PaymentCompleted (c : Completion)
  | CleanupDone (expiredRequests cleanedRequests : nat).

Record Response := mkResponse {
  statusCode : Z;
  success : bool;
  payload : Payload
}.

Module PaymentController.
Import PaymentService AccountService.

Definition fail (code : Z) (text : string) : Response :=
  mkResponse code false (Error (Msg text)).

Definition string_of_Z (z : Z) : string := NilZero.string_of_int (Z.to_int z).

(** The fields every attempt copies from the payment request. *)
Definition attemptOf (paymentId : string) (paymentRequest : Request.t)
    (status : AttemptStatus) (errorReason : option string)
    (errorDetails : option ErrorDetails) : PaymentData :=
  mkData paymentId status (Request.amount paymentRequest)
    (Some (Request.merchantId paymentRequest))
    (Request.description paymentRequest)
    None None None None None None errorReason errorDetails None None.

(** The same with the resolved account attached. *)
Definition attemptOfAccount (paymentId : string) (paymentRequest : Request.t)
    (account : Account.t) (status : AttemptStatus)
    (transactionId : option string) (previousBalance newBalance : option Z)
    (errorReason : option string) (errorDetails : option ErrorDetails)
    (clientIp userAgent : option string) : PaymentData :=
  mkData paymentId status (Request.amount paymentRequest)
    (Some (Request.merchantId paymentRequest))
    (Request.description paymentRequest)
    (Some (Account.id account)) (Some (Account.cardholderName account))
    (Some (Account.email account))
    transactionId previousBalance newBalance errorReason errorDetails
    clientIp userAgent.

Definition proofAccepted (env : Env) (st : string) : AdditionalData :=
  mkAdditional None
    [("proofState", MStr st); ("proofAcceptedAt", MTime (now env))].

(** *** GET /api/payments/:paymentId/status *)

Definition getPaymentStatus (env : Env) (paymentId : string)
  : World -> World * Response :=
  handle
    (w <- get ;;
     match getPaymentRequestById w paymentId with
     | None => ret (fail 404 "Payment request not found")
     | Some found =>
         paymentRequest <-
           (if RequestStatus_eqb (Request.status found) Pending
               && (Request.expiresAt found <=? now env)
            then
              updated <- updatePaymentRequestStatus env paymentId Expired
                           noAdditionalData ;;
              recordPaymentAttempt env
                (attemptOf paymentId found failed_expired
                   (Some "Payment request expired")
                   (Some (RequestExpiredAt (Request.expiresAt found)))) ;;;
              ret updated
            else ret found) ;;
         polled <-
           match or_null (Request.proofRequestId paymentRequest) with
           | Some proofRequestId =>
               if procivisConfigured env then
                 match getProofRequestStatus env proofRequestId with
                 | None => ret (paymentRequest, None)
                 | Some st =>
                     if (st =? "ACCEPTED")%string
                        && RequestStatus_eqb (Request.status paymentRequest)
                                             Pending
                     then
                       try_catch
                         (updated <- updatePaymentRequestStatus env paymentId
                                       Processing (proofAccepted env st) ;;
                          ret (updated, Some st))
                         (fun _ => ret (paymentRequest, Some st))
                     else ret (paymentRequest, Some st)
                 end
               else ret (paymentRequest, None)
           | None => ret (paymentRequest, None)
           end ;;
         ret (mkResponse 200 true
                (PaymentStatus (fst polled) (or_null (snd polled))))
     end)
    (fun e w => (w, fail 500 e)).

(** *** POST /api/payments/:paymentId/process *)

Definition processPayment (env : Env) (paymentId : string)
  : World -> World * Response :=
  handle
    (w <- get ;;
     match getPaymentRequestById w paymentId with
     | None => ret (fail 404 "Payment request not found")
     | Some paymentRequest =>
         if negb (RequestStatus_eqb (Request.status paymentRequest) Pending
                  || RequestStatus_eqb (Request.status paymentRequest)
                                       Processing)
         then ret (mkResponse 400 false
                     (Error (CannotBeProcessed (Request.status paymentRequest))))
         else if Request.expiresAt paymentRequest <=? now env
         then
           updatePaymentRequestStatus env paymentId Expired noAdditionalData ;;;
           recordPaymentAttempt env
             (attemptOf paymentId paymentRequest failed_expired
                (Some "Payment request expired during processing")
                (Some (RequestExpiredAt (Request.expiresAt paymentRequest)))) ;;;
           ret (fail 400 "Payment request has expired")
         else
           match or_null (Request.proofRequestId paymentRequest) with
           | Some proofRequestId =>
               if procivisConfigured env then
                 try_catch
                   match getProofRequestDetails env proofRequestId with
                   | None => throw "proof request failed"
                   | Some proofDetails =>
                       if (state proofDetails =? "ACCEPTED")%string
                       then
                         updatePaymentRequestStatus env paymentId Processing
                           (proofAccepted env (state proofDetails)) ;;;
                         ret (mkResponse 200 true (ReadyForPin paymentId))
                       else ret (fail 400 "Proof not yet accepted by customer")
                   end
                   (fun _ => ret (fail 500 "Failed to verify proof status"))
               else ret (fail 400 "No proof verification available")
           | None => ret (fail 400 "No proof verification available")
           end
     end)
    (fun e w => (w, fail 500 e)).

(** *** POST /api/payments/:paymentId/verify-pin

    The handler is cut where it first waits for the verifier
    ([getProofRequestDetails]): [verifyPIN_begin] is the code before that
    [await], [verifyPIN_resume] the code after it. *)

Inductive Phase1 :=
  | Finished (r : Response)
  | AwaitProofDetails (paymentRequest : Request.t) (proofRequestId : string)
                      (pin : string).

Definition verifyPIN_begin (env : Env) (paymentId : string)
    (pin : option string) : M Phase1 :=
  if negb (truthy paymentId)
  then ret (Finished (fail 400 "Payment ID is required"))
  else
    match or_null pin with
    | None => ret (Finished (fail 400 "PIN is required"))
    | Some pin =>
        w <- get ;;
        match getPaymentRequestById w paymentId with
        | None => ret (Finished (fail 404 "Payment request not found"))
        | Some paymentRequest =>
            if negb (RequestStatus_eqb (Request.status paymentRequest)
                                       Processing)
            then
              recordPaymentAttempt env
                (attemptOf paymentId paymentRequest failed_invalid_state
                   (Some "Payment not in processing state")
                   (Some (CurrentStatusExpectedProcessing
                            (Request.status paymentRequest)))) ;;;
              ret (Finished
                     (fail 400
                        "Payment request is not ready for PIN verification"))
            else
              match or_null (Request.proofRequestId paymentRequest) with
              | Some proofRequestId =>
                  if procivisConfigured env
                  then ret (AwaitProofDetails paymentRequest proofRequestId pin)
                  else ret (Finished
                              (fail 400 "No credential verification available"))
              | None =>
                  ret (Finished
                         (fail 400 "No credential verification available"))
              end
        end
    end.

(** [claims.find(c => c.path === p)?.value] *)
Definition claimValue (p : string) (input : ProofInput) : option string :=
  option_map value (find (fun c => (path c =? p)%string) (claims input)).

Definition findAccountByCredentialData (w : World)
    (cardHolderName last4Digits : string) : option Account.t :=
  find (fun account =>
          (Account.cardholderName account =? cardHolderName)%string
          && (slice_last4 (Account.pan account) =? last4Digits)%string)
       (getAllAccounts w).

(** The inner [try] block: either an early reply or the account. *)
Definition resolveAccount (env : Env) (paymentId : string)
    (paymentRequest : Request.t) (proofRequestId : string)
  : M (Response + Account.t) :=
  try_catch
    match getProofRequestDetails env proofRequestId with
    | None => throw "proof request failed"
    | Some proofDetails =>
        if negb (state proofDetails =? "ACCEPTED")%string
        then ret (inl (fail 400 "Credential verification not completed"))
        else
          match proofInputs proofDetails with
          | [] => throw "proofInputs[0] is undefined"
          | input :: _ =>
              match or_null (claimValue "cardHolderName" input),
                    or_null (claimValue "last4Digits" input) with
              | Some cardHolderName, Some last4Digits =>
                  w <- get ;;
                  match findAccountByCredentialData w cardHolderName
                                                    last4Digits with
                  | None =>
                      recordPaymentAttempt env
                        (attemptOf paymentId paymentRequest
                           failed_invalid_credential
                           (Some "Account not found for provided credentials")
                           (Some (CredentialOf cardHolderName last4Digits))) ;;;
                      ret (inl (fail 400
                                  "Account not found for provided credentials"))
                  | Some account => ret (inr account)
                  end
              | _, _ =>
                  ret (inl (fail 400 "Required credential data not found"))
              end
          end
    end
    (fun _ => ret (inl (fail 500 "Failed to verify credentials"))).

(** The branch [pin !== account.pin]. *)
Definition onInvalidPin (cfg : SecurityConfig.t) (env : Env)
    (paymentId : string) (paymentRequest : Request.t) (account : Account.t)
  : M Response :=
  recordPaymentAttempt env
    (attemptOfAccount paymentId paymentRequest account failed_pin
       None None None
       (Some "Invalid PIN") (Some (Details "PIN verification failed"))
       (ip env) (userAgentHeader env)) ;;;
  w <- get ;;
  let consecutiveFailures :=
    getConsecutivePinFailures w (Account.id account) in
  let securityStatus :=
    SecurityConfig.getSecurityStatus cfg consecutiveFailures in
  emit (SecurityStatusLogged (Account.id account) consecutiveFailures
          (fst securityStatus)) ;;;
  (if SecurityConfig.shouldTriggerAlert cfg consecutiveFailures
   then emit (SecurityAlertEmail account paymentRequest consecutiveFailures)
   else ret tt) ;;;
  (if SecurityConfig.shouldTriggerRevocation cfg consecutiveFailures
   then
     try_catch
       match or_null (Account.credentialId account) with
       | Some credentialId =>
           if procivisConfigured env
           then
             emit (RevokeCredentialCall credentialId) ;;;
             if revokeCredential env credentialId
             then emit (CredentialRevokedEmail account)
             else throw "revocation request failed"
           else ret tt
       | None => ret tt
       end
       (fun e => emit (RevokeFailedLogged e))
   else ret tt) ;;;
  ret (fail 400 "Invalid PIN. Please check and try again.").

(** The code after a matching PIN: balance check, debit, ledger row,
    completion. *)
Definition completePayment (env : Env) (paymentId : string)
    (paymentRequest : Request.t) (account : Account.t) : M Response :=
  if Account.balance account <? Request.amount paymentRequest
  then
    recordPaymentAttempt env
      (attemptOfAccount paymentId paymentRequest account
         failed_insufficient_funds
         None (Some (Account.balance account)) None
         (Some "Insufficient balance")
         (Some (AvailableRequired (Account.balance account)
                                  (Request.amount paymentRequest)))
         None None) ;;;
    updatePaymentRequestStatus env paymentId Failed
      (mkAdditional None
         [("errorReason", MStr "Insufficient balance");
          ("errorDetails",
           MDetails (AvailableRequired (Account.balance account)
                                       (Request.amount paymentRequest)));
          ("failedAt", MTime (now env))]) ;;;
    ret (mkResponse 400 false
           (Error (InsufficientBalanceMsg (Account.balance account)
                                          (Request.amount paymentRequest))))
  else
    let previousBalance := Account.balance account in
    let newBalance := previousBalance - Request.amount paymentRequest in
    updateAccountBalance env (Account.id account) newBalance
      ("Payment via PIN verification - Payment ID: " ++ paymentId)%string ;;;
    completedPayment <-
      recordPaymentAttempt env
        (attemptOfAccount paymentId paymentRequest account completed
           (Some ("txn_" ++ string_of_Z (now env))%string)
           (Some previousBalance) (Some newBalance)
           None None None None) ;;
    updatePaymentRequestStatus env paymentId Completed
      (mkAdditional None
         [("completedAt", MTime (now env));
          ("transactionId", MStr (Attempt.id completedPayment));
          ("accountId", MStr (Account.id account));
          ("cardholderName", MStr (Account.cardholderName account));
          ("pinVerifiedAt", MTime (now env))]) ;;;
    ret (mkResponse 200 true
           (PaymentCompleted
              (mkCompletion paymentId (Attempt.id completedPayment)
                 (Request.amount paymentRequest)
                 (Request.merchantId paymentRequest)
                 (Request.description paymentRequest)
                 (Account.cardholderName account)
                 (Attempt.timestamp completedPayment)
                 previousBalance newBalance))).

Definition verifyPIN_resume (cfg : SecurityConfig.t) (env : Env)
    (paymentId : string) (paymentRequest : Request.t)
    (proofRequestId pin : string) : M Response :=
  resolved <- resolveAccount env paymentId paymentRequest proofRequestId ;;
  match resolved with
  | inl reply => ret reply
  | inr account =>
      if negb (pin =? Account.pin account)%string
      then onInvalidPin cfg env paymentId paymentRequest account
      else completePayment env paymentId paymentRequest account
  end.

(** The outer [catch]: mark the request failed, whatever its state, and
    reply 500. *)
Definition verifyPIN_catch (env : Env) (paymentId : string) (e : string)
  : World -> World * Response :=
  fun w =>
    let w' :=
      fst (updatePaymentRequestStatus env paymentId Failed
             (mkAdditional None
                [("errorReason", MStr "PIN verification error");
                 ("errorDetails", MStr e);
                 ("failedAt", MTime (now env))]) w) in
    (w', fail 500 e).

Definition verifyPINAndCompletePayment (cfg : SecurityConfig.t) (env : Env)
    (paymentId : string) (pin : option string) : World -> World * Response :=
  handle
    (p <- verifyPIN_begin env paymentId pin ;;
     match p with
     | Finished reply => ret reply
     | AwaitProofDetails paymentRequest proofRequestId pin =>
         verifyPIN_resume cfg env paymentId paymentRequest proofRequestId pin
     end)
    (verifyPIN_catch env paymentId).

(** *** POST /api/payments/cleanup *)

Definition cleanupExpiredPayments (env : Env) : World -> World * Response :=
  handle
    (expiredCount <- expireOldPaymentRequests env ;;
     cleanedCount <- cleanupExpiredRequests env 24 ;;
     ret (mkResponse 200 true (CleanupDone expiredCount cleanedCount)))
    (fun e w => (w, fail 500 e)).

(** *** Overlapping verify-PIN submissions

    Node runs a handler without interruption until it awaits; other
    handlers run in between. A submission is executed here in two
    uninterrupted steps, [verifyPIN_begin] and [verifyPIN_resume], each
    under the handler's [catch]; a schedule says whose step runs next. The
    later awaits of the handler (file writes, notifier) are not cut points
    of this model: they would only add schedules, so every schedule below
    is one the handlers can take, namely when the verifier answers the
    second caller after the first has been replied to. *)

Record Submission := mkSubmission {
  sub_begin : Env;
  sub_resume : Env;
  sub_paymentId : string;
  sub_pin : option string
}.

Inductive Progress :=
  | NotStarted
  | Suspended (paymentRequest : Request.t) (proofRequestId : string)
              (pin : string)
  | Replied (r : Response).

Definition step (cfg : SecurityConfig.t) (s : Submission) (p : Progress)
  : World -> World * Progress :=
  match p with
  | NotStarted =>
      handle
        (p1 <- verifyPIN_begin (sub_begin s) (sub_paymentId s) (sub_pin s) ;;
         match p1 with
         | Finished reply => ret (Replied reply)
         | AwaitProofDetails paymentRequest proofRequestId pin =>
             ret (Suspended paymentRequest proofRequestId pin)
         end)
        (fun e w =>
           let '(w', r) := verifyPIN_catch (sub_begin s) (sub_paymentId s) e w in
           (w', Replied r))
  | Suspended paymentRequest proofRequestId pin =>
      handle
        (r <- verifyPIN_resume cfg (sub_resume s) (sub_paymentId s)
                paymentRequest proofRequestId pin ;;
         ret (Replied r))
        (fun e w =>
           let '(w', r) := verifyPIN_catch (sub_resume s) (sub_paymentId s) e w in
           (w', Replied r))
  | Replied r => fun w => (w, Replied r)
  end.

(** One step of the submission at position [i]. *)
Fixpoint stepAt (cfg : SecurityConfig.t) (i : nat)
    (threads : list (Submission * Progress)) (w : World)
  : World * list (Submission * Progress) :=
  match threads, i with
  | [], _ => (w, [])
  | (s, p) :: rest, O =>
      let '(w', p') := step cfg s p w in (w', (s, p') :: rest)
  | t :: rest, S j =>
      let '(w', rest') := stepAt cfg j rest w in (w', t :: rest')
  end.

Fixpoint runSchedule (cfg : SecurityConfig.t) (schedule : list nat)
    (threads : list (Submission * Progress)) (w : World)
  : World * list (Submission * Progress) :=
  match schedule with
  | [] => (w, threads)
  | i :: later =>
      let '(w', threads') := stepAt cfg i threads w in
      runSchedule cfg later threads' w'
  end.

(** Submissions for one payment request handled one after the other, each
    to its reply. *)
Fixpoint runSequentially (cfg : SecurityConfig.t) (paymentId : string)
    (calls : list (Env * option string)) (w : World)
  : World * list Response :=
  match calls with
  | [] => (w, [])
  | (env, pin) :: later =>
      let '(w1, r) := verifyPINAndCompletePayment cfg env paymentId pin w in
      let '(w2, rs) := runSequentially cfg paymentId later w1 in
      (w2, r :: rs)
  end.

(** *** POST /api/payments/request

    The body of the request, and the two verifier calls the handler makes:
    [createProofRequest] ([None]: it rejects) and [shareProofRequest],
    which yields the QR-code URL and the app URL. *)

Record CreateBody := mkCreateBody {
  b_amount : option Z;
  b_description : option string;
  b_merchantId : option string
}.

Record Verifier := mkVerifier {
  createProofRequest : option string;
  shareProofRequest : string -> option (string * string)
}.

Inductive CreateReply :=
  | Created (paymentRequest : Request.t) (message : string)
            (warning : option string)
  | NotCreated (statusCode : Z) (error : string).

Definition createPaymentRequest (env : Env) (verifier : Verifier)
    (baseUrl : string) (body : CreateBody) : World -> World * CreateReply :=
  handle
    (let description :=
       match b_description body with Some d => d | None => "" end in
     let merchantId :=
       match b_merchantId body with
       | Some m => m
       | None => "default-merchant"
       end in
     match b_amount body with
     | None => ret (NotCreated 400 "Valid payment amount is required")
     | Some numericAmount =>
         if numericAmount <=? 0
         then ret (NotCreated 400 "Valid payment amount is required")
         else
           paymentRequest <-
             PaymentService.createPaymentRequest env baseUrl
               (mkNewPayment (Some numericAmount) (Some description)
                             (Some merchantId)) ;;
           if negb (procivisConfigured env)
           then ret (Created paymentRequest
                       "Payment request created successfully (Procivis not configured)"
                       None)
           else
             try_catch
               match createProofRequest verifier with
               | None => throw "proof request failed"
               | Some proofRequestId =>
                   match shareProofRequest verifier proofRequestId with
                   | None => throw "share failed"
                   | Some (qrCodeUrl, appUrl) =>
                       updatedPaymentRequest <-
                         updatePaymentRequestStatus env
                           (Request.id paymentRequest) Pending
                           (mkAdditional (Some proofRequestId)
                              [("qrCode.url", MStr qrCodeUrl);
                               ("qrCode.appUrl", MStr appUrl)]) ;;
                       ret (Created updatedPaymentRequest
                              "Payment request created successfully" None)
                   end
               end
               (fun _ =>
                  ret (Created paymentRequest
                         "Payment request created (Procivis integration failed)"
                         (Some "Advanced verification features unavailable")))
     end)
    (fun e w => (w, NotCreated 500 e)).

(** *** GET /api/payments/all *)

Record AllPayments := mkAllPayments {
  all_paymentRequests : list Request.t;
  all_completedPayments : list Attempt.t;
  all_statistics : RequestCounts * AttemptCounts;
  all_onlySuccessful : bool
}.

(** [onlySuccessful] is the query parameter, [None] when absent. *)
Definition getAllPayments (onlySuccessful : option string) (w : World)
  : AllPayments :=
  let only :=
    match onlySuccessful with
    | Some v => (v =? "true")%string
    | None => false
    end in
  let allPaymentRequests := getAllPaymentRequests w in
  let allPaymentAttempts :=
    if only then getSuccessfulPayments w else PaymentService.getAllPayments w in
  mkAllPayments (sliceLast 50 allPaymentRequests)
    (sliceLast 50 allPaymentAttempts)
    (getPaymentStatistics w) only.

End PaymentController.

(** ** Sample data used by the examples below *)

Module Sample.

Definition policy : SecurityConfig.t := fst (SecurityConfig.new None None).

Definition alice : Account.t :=
  Account.mk "acc_alice" "Alice Example" "alice@example.org"
    "4111111111111111" "482913" 10000 (Some "cred_alice") None.

(** An account that was never issued a credential. *)
Definition bob : Account.t :=
  Account.mk "acc_bob" "Bob Example" "bob@example.org"
    "5500000000002222" "771100" 4000 None None.

Definition request (st : RequestStatus) (expires : Z) : Request.t :=
  Request.mk "pay_1" 2500 "coffee beans" "m1" st 1000 1000 expires
    (Some "proof_1") [].

Definition proofFor (name last4 : string) : ProofDetails :=
  mkProof "ACCEPTED"
    [mkProofInput [mkClaim "cardHolderName" name;
                   mkClaim "last4Digits" last4]].

Definition envAt (t : Z) (fresh : string) (proof : option ProofDetails)
  : Env :=
  mkEnv t fresh true (fun _ => proof) (fun _ => true)
    (Some "203.0.113.7") (Some "curl/8.0").

(** A ledger row of [account] with the given status and timestamp. *)
Definition row (account : Account.t) (st : AttemptStatus) (t : Z)
  : Attempt.t :=
  Attempt.mk "pay_row" "pay_0" st 2500 (Some "m1") "" t
    (Some (Account.id account)) (Some (Account.cardholderName account))
    (Some (Account.email account)) None None None None None None None.

Definition world (st : RequestStatus) (expires : Z) (ledger : list Attempt.t)
  : World :=
  mkWorld [request st expires] ledger [alice; bob] [].

Definition twoFailures : list Attempt.t :=
  [row alice failed_pin 1; row alice failed_pin 2].

Definition fourFailures : list Attempt.t :=
  [row alice failed_pin 1; row alice failed_pin 2;
   row alice failed_pin 3; row alice failed_pin 4].

(** The argument with which the controller records a completed payment
    of [alice]. *)
Definition completedData : PaymentService.PaymentData :=
  PaymentController.attemptOfAccount "pay_1" (request Processing 5000) alice
    completed (Some "txn_5") (Some 10000) (Some 7500) None None None None.

(** A proof whose claims lack the last four digits. *)
Definition proofWithoutDigits : ProofDetails :=
  mkProof "ACCEPTED"
    [mkProofInput [mkClaim "cardHolderName" "Alice Example"]].

Definition bobFourFailures : list Attempt.t :=
  [row bob failed_pin 1; row bob failed_pin 2;
   row bob failed_pin 3; row bob failed_pin 4].

(** Two submissions of the right PIN for the same request, the second
    arriving while the first waits for the verifier. *)
Definition firstSubmission : PaymentController.Submission :=
  PaymentController.mkSubmission
    (envAt 2000 "pay_a" (Some (proofFor "Alice Example" "1111")))
    (envAt 2010 "pay_a" (Some (proofFor "Alice Example" "1111")))
    "pay_1" (Some "482913").

Definition secondSubmission : PaymentController.Submission :=
  PaymentController.mkSubmission
    (envAt 2001 "pay_b" (Some (proofFor "Alice Example" "1111")))
    (envAt 2011 "pay_b" (Some (proofFor "Alice Example" "1111")))
    "pay_1" (Some "482913").

(** The same for [bob], whose balance covers the amount once. *)
Definition bobFirst : PaymentController.Submission :=
  PaymentController.mkSubmission
    (envAt 2000 "pay_a" (Some (proofFor "Bob Example" "2222")))
    (envAt 2010 "pay_a" (Some (proofFor "Bob Example" "2222")))
    "pay_1" (Some "771100").

Definition bobSecond : PaymentController.Submission :=
  PaymentController.mkSubmission
    (envAt 2001 "pay_b" (Some (proofFor "Bob Example" "2222")))
    (envAt 2011 "pay_b" (Some (proofFor "Bob Example" "2222")))
    "pay_1" (Some "771100").

(** A second payment request, three days old and still in PROCESSING. *)
Definition oldRequest : Request.t :=
  Request.mk "pay_0" 900 "old order" "m1" Processing 0 0 1800000
    (Some "proof_0") [].

(** [bob] asked for more than he has. *)
Definition largeRequest : Request.t :=
  Request.mk "pay_1" 9900 "espresso machine" "m1" Processing 1000 1000 5000
    (Some "proof_1") [].

End Sample.

(** ** Specification-side definitions

    Written from the words of the specification, to be compared with the
    code above. *)

(** "scanning ... before the first completed row (or the end of history)" *)
Fixpoint beforeFirstCompleted (rows : list Attempt.t) : list Attempt.t :=
  match rows with
  | [] => []
  | p :: rest =>
      if PaymentService.hasStatus completed p then []
      else p :: beforeFirstCompleted rest
  end.

(** "newest-first": no row is followed by a strictly newer one. *)
Definition newestFirst (rows : list Attempt.t) : Prop :=
  StronglySorted
    (fun a b => Attempt.timestamp b <= Attempt.timestamp a) rows.

(** "proof claims missing / account unresolvable": the ways the proof
    exchange of a request can end for the PIN check. *)
Inductive CredentialCheck :=
  | Unavailable
  | VerifierFailed
  | NotAccepted
  | ClaimsMissing
  | NoAccountMatches (cardHolderName last4Digits : string)
  | Resolved (account : Account.t).

Definition credentialCheck (env : Env) (w : World) (paymentRequest : Request.t)
  : CredentialCheck :=
  match or_null (Request.proofRequestId paymentRequest) with
  | None => Unavailable
  | Some proofRequestId =>
      if negb (procivisConfigured env) then Unavailable
      else
        match getProofRequestDetails env proofRequestId with
        | None => VerifierFailed
        | Some proofDetails =>
            if negb (state proofDetails =? "ACCEPTED")%string then NotAccepted
            else
              match proofInputs proofDetails with
              | [] => VerifierFailed
              | input :: _ =>
                  match or_null (PaymentController.claimValue
                                   "cardHolderName" input),
                        or_null (PaymentController.claimValue
                                   "last4Digits" input) with
                  | Some name, Some last4 =>
                      match PaymentController.findAccountByCredentialData
                              w name last4 with
                      | Some account => Resolved account
                      | None => NoAccountMatches name last4
                      end
                  | _, _ => ClaimsMissing
                  end
              end
        end
  end.

(** Section 4.2, decision rules: what is sent for a count [c]. *)
Definition securityResponse (cfg : SecurityConfig.t) (env : Env)
    (account : Account.t) (paymentRequest : Request.t) (c : Z)
  : list Effect :=
  [SecurityStatusLogged (Account.id account) c
     (SecurityConfig.getRiskLevel cfg c)]
  ++ (if c >=? SecurityConfig.maxPinFailuresBeforeAlert cfg
      then [SecurityAlertEmail account paymentRequest c] else [])
  ++ (if c >=? SecurityConfig.maxPinFailuresBeforeRevoke cfg
      then match or_null (Account.credentialId account) with
           | Some credentialId =>
               if procivisConfigured env
               then RevokeCredentialCall credentialId
                    :: (if revokeCredential env credentialId
                        then [CredentialRevokedEmail account]
                        else [RevokeFailedLogged "revocation request failed"])
               else []
           | None => []
           end
      else []).

(** The ledger row of a wrong PIN, as the controller fills it. *)
Definition failedPinRow (env : Env) (paymentId : string)
    (paymentRequest : Request.t) (account : Account.t) : Attempt.t :=
  Attempt.mk (freshId env) paymentId failed_pin
    (Request.amount paymentRequest)
    (or_null (Some (Request.merchantId paymentRequest)))
    (Request.description paymentRequest) (now env)
    (or_null (Some (Account.id account)))
    (or_null (Some (Account.cardholderName account)))
    (or_null (Some (Account.email account)))
    None None None (Some "Invalid PIN")
    (Some (Details "PIN verification failed"))
    (or_null (ip env)) (or_null (userAgentHeader env)).

(** The ledger row of an attempt that names no account. *)
Definition anonymousRow (env : Env) (paymentId : string)
    (paymentRequest : Request.t) (st : AttemptStatus) (reason : string)
    (details : ErrorDetails) : Attempt.t :=
  Attempt.mk (freshId env) paymentId st
    (Request.amount paymentRequest)
    (or_null (Some (Request.merchantId paymentRequest)))
    (Request.description paymentRequest) (now env)
    None None None None None None (or_null (Some reason)) (Some details)
    None None.

(** A handler "touches only a live request" of the given id: the
    collection of payment requests is as before, or differs in the one
    slot that the id designates, which held a non-terminal request. *)
Definition touchesLiveOnly (paymentId : string) (w w' : World) : Prop :=
  paymentRequests w' = paymentRequests w
  \/ exists i r r',
       findIndex (fun req => (Request.id req =? paymentId)%string)
                 (paymentRequests w) = Some (i, r)
       /\ terminal (Request.status r) = false
       /\ paymentRequests w' = set_nth i r' (paymentRequests w).

(** Ledger rows that record a completed payment of a request: one per
    debit. *)
Definition completedRows (paymentId : string) (w : World) : nat :=
  List.length
    (filter (fun a => PaymentService.hasStatus completed a
                      && (Attempt.paymentRequestId a =? paymentId)%string)
            (payments w)).

Definition successes (replies : list Response) : nat :=
  List.length (filter success replies).

(** The order of the risk levels. *)
Definition riskRank (l : RiskLevel) : Z :=
  match l with
  | LOW => 0
  | MEDIUM => 1
  | HIGH => 2
  | CRITICAL => 3
  end.

(** What identifies a payment request, as opposed to its progress. *)
Definition sameRequest (r r' : Request.t) : Prop :=
  Request.id r' = Request.id r
  /\ Request.amount r' = Request.amount r
  /\ Request.description r' = Request.description r
  /\ Request.merchantId r' = Request.merchantId r
  /\ Request.createdAt r' = Request.createdAt r
  /\ Request.expiresAt r' = Request.expiresAt r.

(** What identifies an account, as opposed to its balance. *)
Definition sameAccount (a a' : Account.t) : Prop :=
  Account.id a' = Account.id a
  /\ Account.cardholderName a' = Account.cardholderName a
  /\ Account.email a' = Account.email a
  /\ Account.pan a' = Account.pan a
  /\ Account.pin a' = Account.pin a
  /\ Account.credentialId a' = Account.credentialId a.

(** One step of the pipeline: the ledger and the outbox only grow at the
    end, and every payment request and account stays in its slot with its
    identity. *)
Definition pipelineStep (w w' : World) : Prop :=
  (exists added, payments w' = payments w ++ added)
  /\ Forall2 sameRequest (paymentRequests w) (paymentRequests w')
  /\ Forall2 sameAccount (accounts w) (accounts w')
  /\ (exists sent, outbox w' = outbox w ++ sent).

(** A step that moves no money and sends nothing. *)
Definition quietStep (w w' : World) : Prop :=
  accounts w' = accounts w /\ outbox w' = outbox w.

(** The verifier, when asked, reports the proof of a request as accepted. *)
Definition proofAcceptedFor (env : Env) (req : Request.t) : bool :=
  match or_null (Request.proofRequestId req) with
  | Some proofRequestId =>
      procivisConfigured env
      && match getProofRequestDetails env proofRequestId with
         | Some details => (state details =? "ACCEPTED")%string
         | None => false
         end
  | None => false
  end.

(** What the expiry sweep does to one request, and which requests the
    purge retains. *)
Definition expireIfStale (env : Env) (req : Request.t) : Request.t :=
  if PaymentService.stale env req
  then PaymentService.with_status req Expired (now env)
  else req.

Definition retained (env : Env) (olderThanHours : Z) (req : Request.t)
  : bool :=
  if RequestStatus_eqb (Request.status req) Pending
  then now env <? Request.expiresAt req
  else now env - olderThanHours * 60 * 60 * 1000 <? Request.updatedAt req.

(** A computation whose every run is related to its start by [R]. *)
Definition keeps (R : World -> World -> Prop) {A : Type} (m : M A) : Prop :=
  forall w, R w (fst (m w)).

(* ===================================================================== *)
(** * Part II: properties                                                 *)
(* ===================================================================== *)

Section SecurityConfigFacts.
Import SecurityConfig.

Lemma Math_ceil_half_least (a : Z) :
  a <= 2 * Math_ceil_half a /\ 2 * (Math_ceil_half a - 1) < a.
Proof.
  unfold Math_ceil_half.
  pose proof (Z.div_mod (a + 1) 2 ltac:(lia)) as E.
  pose proof (Z.mod_pos_bound (a + 1) 2 ltac:(lia)) as B.
  lia.
Qed.

End SecurityConfigFacts.

(** Arrays: [find], [findIndex] and assignment at an index. *)
Section ArrayFacts.
Context {A : Type} (p : A -> bool).

Lemma findIndex_find (l : list A) :
  find p l = option_map snd (findIndex p l).
Proof.
  induction l as [| x rest IH]; cbn [find findIndex]; [reflexivity |].
  destruct (p x); [reflexivity |]. rewrite IH.
  now destruct (findIndex p rest) as [[i y] |].
Qed.

Lemma find_findIndex (l : list A) (x : A) :
  find p l = Some x -> exists i, findIndex p l = Some (i, x).
Proof.
  rewrite findIndex_find.
  destruct (findIndex p l) as [[i y] |]; cbn; [| discriminate].
  intros [= ->]. now exists i.
Qed.

Lemma findIndex_nth (l : list A) (i : nat) (x : A) :
  findIndex p l = Some (i, x) -> nth_error l i = Some x /\ p x = true.
Proof.
  revert i. induction l as [| y rest IH]; intros i; cbn [findIndex].
  - discriminate.
  - destruct (p y) eqn:Hy.
    + intros [= <- <-]. now split.
    + destruct (findIndex p rest) as [[j z] |]; [| discriminate].
      intros [= <- <-]. now apply IH.
Qed.

Lemma findIndex_set_nth (l : list A) (i : nat) (x y : A) :
  findIndex p l = Some (i, x) -> p y = true ->
  findIndex p (set_nth i y l) = Some (i, y).
Proof.
  revert i. induction l as [| z rest IH]; intros i; cbn [findIndex].
  - discriminate.
  - destruct (p z) eqn:Hz.
    + intros [= <- <-] Hy. cbn [set_nth findIndex]. now rewrite Hy.
    + destruct (findIndex p rest) as [[j u] |] eqn:Hrest; [| discriminate].
      intros [= <- <-] Hy. cbn [set_nth findIndex]. rewrite Hz.
      now rewrite (IH j eq_refl Hy).
Qed.

Lemma nth_error_set_nth_other (l : list A) (i k : nat) (y : A) :
  i <> k -> nth_error (set_nth i y l) k = nth_error l k.
Proof.
  revert i k. induction l as [| z rest IH]; intros i k Hne.
  - now destruct i.
  - destruct i as [| i], k as [| k]; cbn [set_nth nth_error];
      try reflexivity; try congruence.
    apply IH. congruence.
Qed.

End ArrayFacts.

(** Section 4.1 of the specification: what [updatePaymentRequestStatus]
    does to the collection. *)
Section StatusUpdate.
Import PaymentService.

Lemma updatePaymentRequestStatus_runs (env : Env) (paymentId : string)
    (st : RequestStatus) (ad : AdditionalData) (w : World) (r : Request.t) :
  getPaymentRequestById w paymentId = Some r ->
  let r' := Object_assign (with_status r st (now env)) ad in
  exists i,
    findIndex (fun req => (Request.id req =? paymentId)%string)
              (paymentRequests w) = Some (i, r)
    /\ updatePaymentRequestStatus env paymentId st ad w
       = (with_paymentRequests w (set_nth i r' (paymentRequests w)),
          Returned r')
    /\ getPaymentRequestById
         (with_paymentRequests w (set_nth i r' (paymentRequests w)))
         paymentId = Some r'.
Proof.
  intros Hfind. cbv zeta.
  unfold getPaymentRequestById, getAllPaymentRequests in Hfind.
  destruct (find_findIndex _ _ _ Hfind) as [i Hi].
  exists i. split; [exact Hi |].
  unfold updatePaymentRequestStatus, getAllPaymentRequests.
  rewrite Hi. split; [reflexivity |].
  unfold getPaymentRequestById, getAllPaymentRequests.
  cbn [with_paymentRequests paymentRequests].
  rewrite findIndex_find.
  erewrite findIndex_set_nth; [reflexivity | exact Hi |].
  destruct (findIndex_nth _ _ _ _ Hi) as [_ Hp]. exact Hp.
Qed.

End StatusUpdate.

(** Section 3 of the specification, SecurityPolicy. *)
Section SecurityPolicy.
Import SecurityConfig.

(** C7: after initialization, for every supplied pair of
    thresholds, 1 <= alertThreshold <= revokeThreshold, and
    alertThreshold < revokeThreshold exactly when revokeThreshold is at
    least 2. A supplied value below 1 (or absent) is first replaced by its
    default, 5 for revoke and 2 for alert; if the alert value is then not
    below the revoke value it is set to max(1, revokeThreshold - 1) with the
    adjustment warning, and is kept otherwise. Initialization is a total
    function: it never fails. *)
Theorem C7_thresholds_after_initialization (revokeEnv alertEnv : option Z) :
  let c := fst (new revokeEnv alertEnv) in
  let warnings := snd (new revokeEnv alertEnv) in
  let r := suppliedOrDefault revokeEnv 5 in
  let a := suppliedOrDefault alertEnv 2 in
  maxPinFailuresBeforeRevoke c = r
  /\ 1 <= maxPinFailuresBeforeAlert c <= maxPinFailuresBeforeRevoke c
  /\ (maxPinFailuresBeforeAlert c < maxPinFailuresBeforeRevoke c
      <-> 2 <= maxPinFailuresBeforeRevoke c)
  /\ (a < r ->
      maxPinFailuresBeforeAlert c = a /\ ~ In warn_adjusting warnings)
  /\ (r <= a ->
      maxPinFailuresBeforeAlert c = Z.max 1 (r - 1)
      /\ In warn_adjusting warnings).
Proof.
  cbv zeta. unfold new, validateConfiguration, suppliedOrDefault.
  cbn [maxPinFailuresBeforeRevoke maxPinFailuresBeforeAlert].
  set (r0 := parseInt_or revokeEnv 5). set (a0 := parseInt_or alertEnv 2).
  destruct (r0 <? 1) eqn:Hr; destruct (a0 <? 1) eqn:Ha;
    match goal with |- context [?x >=? ?y] => destruct (x >=? y) eqn:Hc end;
    cbn [fst snd maxPinFailuresBeforeRevoke maxPinFailuresBeforeAlert app In];
    repeat split; unfold not; intros; try lia; auto;
    repeat match goal with
           | H : _ \/ _ |- _ => destruct H
           | H : False |- _ => destruct H
           | H : @eq string _ _ |- _ => discriminate H
           end.
Qed.

(** C7, as stated, fails for a supplied revoke threshold of 1: the alert
    threshold ends at 1 as well, not strictly below it, and not at
    revokeThreshold - 1 = 0. *)
Lemma C7_revoke_one_counterexample :
  let c := fst (new (Some 1) (Some 3)) in
  ~ (1 <= maxPinFailuresBeforeAlert c < maxPinFailuresBeforeRevoke c)
  /\ maxPinFailuresBeforeAlert c <> maxPinFailuresBeforeRevoke c - 1.
Proof. vm_compute. split; [intros [_ H]; discriminate H | discriminate]. Qed.

(** [getRiskLevel] on thresholds that satisfy what initialization
    establishes. *)
Lemma getRiskLevel_classification (c : t) (n : Z) :
  maxPinFailuresBeforeAlert c <= maxPinFailuresBeforeRevoke c ->
  (getRiskLevel c n = CRITICAL <-> maxPinFailuresBeforeRevoke c <= n)
  /\ (getRiskLevel c n = HIGH
      <-> maxPinFailuresBeforeAlert c <= n < maxPinFailuresBeforeRevoke c)
  /\ (getRiskLevel c n = MEDIUM
      <-> Math_ceil_half (maxPinFailuresBeforeAlert c) <= n
          < maxPinFailuresBeforeAlert c)
  /\ (getRiskLevel c n = LOW
      <-> n < Math_ceil_half (maxPinFailuresBeforeAlert c)
          /\ n < maxPinFailuresBeforeAlert c).
Proof.
  intros Hle. unfold getRiskLevel.
  destruct (n >=? maxPinFailuresBeforeRevoke c) eqn:H1;
  destruct (n >=? maxPinFailuresBeforeAlert c) eqn:H2;
  destruct (n >=? Math_ceil_half (maxPinFailuresBeforeAlert c)) eqn:H3;
  repeat split; intros; try discriminate; try lia.
Qed.

End SecurityPolicy.

(** Section 4.2 of the specification: the derived failure count. *)
Section ThresholdEngine.
Import PaymentService.

Lemma insertNewestFirst_perm (a : Attempt.t) (l : list Attempt.t) :
  Permutation (insertNewestFirst a l) (a :: l).
Proof.
  induction l as [| b rest IH]; cbn [insertNewestFirst].
  - reflexivity.
  - destruct (Attempt.timestamp b <=? Attempt.timestamp a).
    + reflexivity.
    + rewrite IH. apply perm_swap.
Qed.

Lemma sortNewestFirst_perm (l : list Attempt.t) :
  Permutation (sortNewestFirst l) l.
Proof.
  induction l as [| a rest IH]; cbn [sortNewestFirst].
  - reflexivity.
  - rewrite insertNewestFirst_perm. now constructor.
Qed.

Lemma insertNewestFirst_sorted (a : Attempt.t) (l : list Attempt.t) :
  newestFirst l -> newestFirst (insertNewestFirst a l).
Proof.
  unfold newestFirst.
  induction 1 as [| b rest Hsorted IH Hall]; cbn [insertNewestFirst].
  - repeat constructor.
  - destruct (Attempt.timestamp b <=? Attempt.timestamp a) eqn:Hcmp.
    + apply Z.leb_le in Hcmp. constructor.
      * now constructor.
      * constructor; [exact Hcmp |].
        eapply Forall_impl; [| exact Hall]. cbn. intros x Hx. lia.
    + apply Z.leb_gt in Hcmp. constructor; [exact IH |].
      eapply Permutation_Forall.
      * symmetry. apply insertNewestFirst_perm.
      * constructor; [lia | exact Hall].
Qed.

Lemma sortNewestFirst_sorted (l : list Attempt.t) :
  newestFirst (sortNewestFirst l).
Proof.
  induction l as [| a rest IH]; cbn [sortNewestFirst].
  - constructor.
  - now apply insertNewestFirst_sorted.
Qed.

Lemma countLoop_spec (rows : list Attempt.t) (n : Z) :
  countLoop rows n
  = n + Z.of_nat (List.length (filter (hasStatus failed_pin)
                                      (beforeFirstCompleted rows))).
Proof.
  revert n. induction rows as [| p rest IH]; intros n.
  - cbn. lia.
  - cbn [countLoop beforeFirstCompleted]. unfold hasStatus in *.
    destruct (Attempt.status p) eqn:Hst; cbn [AttemptStatus_eqb filter];
      rewrite ?Hst; cbn [AttemptStatus_eqb List.length];
      rewrite ?IH; lia.
Qed.

(** A row strictly newer than all others sorts to the front. *)
Lemma sortNewestFirst_newest (l : list Attempt.t) (x : Attempt.t) :
  (forall p, In p l -> Attempt.timestamp p < Attempt.timestamp x) ->
  sortNewestFirst (l ++ [x]) = x :: sortNewestFirst l.
Proof.
  induction l as [| y rest IH]; intros Hnew.
  - reflexivity.
  - cbn [app sortNewestFirst]. rewrite IH by (intros; apply Hnew; now right).
    cbn [insertNewestFirst].
    pose proof (Hnew y (or_introl eq_refl)) as Hy.
    destruct (Attempt.timestamp x <=? Attempt.timestamp y) eqn:Hcmp.
    + apply Z.leb_le in Hcmp. lia.
    + reflexivity.
Qed.

Lemma getConsecutivePinFailures_refines (w : World) (accountId : string) :
  let rows := sortNewestFirst (getPaymentsByAccountId w accountId) in
  Permutation rows (getPaymentsByAccountId w accountId)
  /\ newestFirst rows
  /\ getConsecutivePinFailures w accountId
     = Z.of_nat (List.length (filter (hasStatus failed_pin)
                                     (beforeFirstCompleted rows))).
Proof.
  cbv zeta. split; [apply sortNewestFirst_perm |].
  split; [apply sortNewestFirst_sorted |].
  unfold getConsecutivePinFailures. now rewrite countLoop_spec.
Qed.

(** The row that [recordPaymentAttempt] appends belongs to the account it
    names. *)
Lemma recorded_row_belongs (env : Env) (data : PaymentData) (w : World)
    (accountId : string) :
  d_accountId data = Some accountId ->
  truthy accountId = true ->
  truthy (d_paymentRequestId data) = true ->
  exists r,
    recordPaymentAttempt env data w
    = (with_payments w (payments w ++ [r]), Returned r)
    /\ belongsTo accountId r = true
    /\ Attempt.status r = d_status data
    /\ Attempt.timestamp r = now env.
Proof.
  intros Hacc Hid Hpid. unfold recordPaymentAttempt. rewrite Hpid.
  cbn [negb]. eexists. split; [reflexivity |].
  unfold belongsTo. cbn [Attempt.accountId Attempt.status Attempt.timestamp].
  rewrite Hacc. cbn [or_null]. rewrite Hid.
  now rewrite String.eqb_refl.
Qed.

(** C4: for every account and every ledger, the derived
    consecutive-failure count equals the number of failed_pin rows met when
    scanning that account's rows newest-first (a reordering of exactly that
    account's rows, by non-increasing timestamp) before the first completed
    row or the end of history; rows of the other failure kinds neither
    increment nor reset it. Immediately after a completed attempt is
    appended whose timestamp is strictly later than that of every earlier
    row of the account, the computed count is 0. *)
Theorem C4_consecutive_failure_count (w : World) (accountId : string)
    (env : Env) (data : PaymentData) :
  let rows := sortNewestFirst (getPaymentsByAccountId w accountId) in
  (Permutation rows (getPaymentsByAccountId w accountId)
   /\ newestFirst rows
   /\ getConsecutivePinFailures w accountId
      = Z.of_nat (List.length (filter (hasStatus failed_pin)
                                      (beforeFirstCompleted rows))))
  /\ (d_status data = completed ->
      d_accountId data = Some accountId ->
      truthy accountId = true ->
      truthy (d_paymentRequestId data) = true ->
      (forall p, In p (getPaymentsByAccountId w accountId) ->
                 Attempt.timestamp p < now env) ->
      getConsecutivePinFailures (fst (recordPaymentAttempt env data w))
                                accountId = 0).
Proof.
  cbv zeta. split; [apply getConsecutivePinFailures_refines |].
  intros Hst Hacc Hid Hpid Hnew.
  destruct (recorded_row_belongs env data w accountId Hacc Hid Hpid)
    as (r & -> & Hbel & Hstatus & Hts).
  cbn [fst]. unfold getConsecutivePinFailures, getPaymentsByAccountId.
  cbn [getAllPayments with_payments payments].
  rewrite filter_app. cbn [filter]. rewrite Hbel.
  rewrite sortNewestFirst_newest.
  - cbn [countLoop]. now rewrite Hstatus, Hst.
  - intros p Hp. rewrite Hts. now apply Hnew.
Qed.

(** Scenario E of the specification: four failed_pin rows, then a completed
    attempt recorded at a later instant. *)
Lemma C4_scenario_E_witness :
  getConsecutivePinFailures (Sample.world Processing 5000 Sample.fourFailures)
                            "acc_alice" = 4
  /\ getConsecutivePinFailures
       (fst (recordPaymentAttempt (Sample.envAt 5 "pay_a" None)
               Sample.completedData
               (Sample.world Processing 5000 Sample.fourFailures)))
       "acc_alice" = 0.
Proof.
  split; [reflexivity |].
  apply (proj2 (C4_consecutive_failure_count
                  (Sample.world Processing 5000 Sample.fourFailures)
                  "acc_alice" (Sample.envAt 5 "pay_a" None)
                  Sample.completedData));
    try reflexivity.
  cbn. intros p [<- | [<- | [<- | [<- | []]]]]; cbn; lia.
Defined.

(** C4, as stated, fails when the completed row carries the timestamp of an
    earlier failed_pin row of the account (the clock has millisecond
    resolution): the stable sort keeps the older row in front, the scan
    counts it, and the count after the append is 1. *)
Lemma C4_same_millisecond_counterexample :
  let w := Sample.world Processing 5000 [Sample.row Sample.alice failed_pin 5] in
  let w' := fst (recordPaymentAttempt (Sample.envAt 5 "pay_a" None)
                   Sample.completedData w) in
  List.map Attempt.status (getPaymentsByAccountId w' "acc_alice")
  = [failed_pin; completed]
  /\ getConsecutivePinFailures w' "acc_alice" = 1
  /\ getConsecutivePinFailures w' "acc_alice" <> 0.
Proof. vm_compute. repeat split; discriminate. Qed.

(** What [getSecurityStatistics] reports never reaches CRITICAL, whatever
    the policy, while [getRiskLevel] does from the revoke threshold on. *)
Lemma getSecurityStatistics_never_critical (cfg : SecurityConfig.t)
    (w : World) (accountId : string) :
  let stats := getSecurityStatistics w accountId in
  SecurityConfig.maxPinFailuresBeforeRevoke cfg
    <= s_consecutivePinFailures stats ->
  SecurityConfig.getRiskLevel cfg (s_consecutivePinFailures stats) = CRITICAL
  /\ s_riskLevel stats <> CRITICAL.
Proof.
  cbv zeta. intros Hge. split.
  - unfold SecurityConfig.getRiskLevel.
    destruct (Z.geb_spec (s_consecutivePinFailures
                            (getSecurityStatistics w accountId))
                         (SecurityConfig.maxPinFailuresBeforeRevoke cfg));
      [reflexivity | lia].
  - unfold getSecurityStatistics. cbn [s_riskLevel].
    destruct (_ >=? 4); [discriminate |].
    destruct (_ >=? 2); discriminate.
Qed.

(** C8: the code at the failing inputs. Under the default policy (alert 2,
    revoke 5), an account with two consecutive failed_pin rows is HIGH for
    [SecurityConfig.getRiskLevel] and MEDIUM in the report of
    [PaymentService.getSecurityStatistics]; with five such rows it is
    CRITICAL for the former and HIGH in the latter. *)
Theorem C8_statistics_risk_level_diverges :
  let two := getSecurityStatistics
               (Sample.world Processing 5000 Sample.twoFailures) "acc_alice" in
  let five := getSecurityStatistics
                (Sample.world Processing 5000
                   (Sample.row Sample.alice failed_pin 0 :: Sample.fourFailures))
                "acc_alice" in
  SecurityConfig.maxPinFailuresBeforeAlert Sample.policy = 2
  /\ SecurityConfig.maxPinFailuresBeforeRevoke Sample.policy = 5
  /\ s_consecutivePinFailures two = 2
  /\ SecurityConfig.getRiskLevel Sample.policy (s_consecutivePinFailures two)
     = HIGH
  /\ s_riskLevel two = MEDIUM
  /\ s_consecutivePinFailures five = 5
  /\ SecurityConfig.getRiskLevel Sample.policy (s_consecutivePinFailures five)
     = CRITICAL
  /\ s_riskLevel five = HIGH.
Proof. vm_compute. repeat split. Qed.

End ThresholdEngine.

(** Section 4.4 of the specification: verify-PIN. *)
Section VerifyPin.
Import PaymentService AccountService PaymentController.

Ltac run_handler :=
  cbv beta iota delta
    [verifyPINAndCompletePayment verifyPIN_begin verifyPIN_resume
     resolveAccount handle bind ret get throw try_catch emit].

(** What verify-PIN does on a request in PROCESSING, by the outcome of the
    proof exchange. *)
Lemma verifyPIN_processing (cfg : SecurityConfig.t) (env : Env)
    (paymentId : string) (pin : option string) (p : string) (w : World)
    (paymentRequest : Request.t) :
  truthy paymentId = true ->
  or_null pin = Some p ->
  getPaymentRequestById w paymentId = Some paymentRequest ->
  Request.status paymentRequest = Processing ->
  verifyPINAndCompletePayment cfg env paymentId pin w
  = match credentialCheck env w paymentRequest with
    | Unavailable => (w, fail 400 "No credential verification available")
    | VerifierFailed => (w, fail 500 "Failed to verify credentials")
    | NotAccepted => (w, fail 400 "Credential verification not completed")
    | ClaimsMissing => (w, fail 400 "Required credential data not found")
    | NoAccountMatches name last4 =>
        (with_payments w
           (payments w
            ++ [anonymousRow env paymentId paymentRequest
                  failed_invalid_credential
                  "Account not found for provided credentials"
                  (CredentialOf name last4)]),
         fail 400 "Account not found for provided credentials")
    | Resolved account =>
        if negb (p =? Account.pin account)%string
        then handle (onInvalidPin cfg env paymentId paymentRequest account)
                    (verifyPIN_catch env paymentId) w
        else handle (completePayment env paymentId paymentRequest account)
                    (verifyPIN_catch env paymentId) w
    end.
Proof.
  intros Hid Hpin Hfind Hst. run_handler.
  rewrite Hid; cbn [negb]. rewrite Hpin; cbv beta iota.
  rewrite Hfind; cbv beta iota. rewrite Hst; cbn [negb RequestStatus_eqb].
  unfold credentialCheck.
  destruct (or_null (Request.proofRequestId paymentRequest)) as [prid |];
    [| reflexivity].
  destruct (procivisConfigured env); cbn [negb]; [| reflexivity].
  destruct (getProofRequestDetails env prid) as [details |]; [| reflexivity].
  destruct (state details =? "ACCEPTED")%string; cbn [negb]; [| reflexivity].
  destruct (proofInputs details) as [| input rest]; [reflexivity |].
  destruct (or_null (claimValue "cardHolderName" input)) as [name |];
    [| reflexivity].
  destruct (or_null (claimValue "last4Digits" input)) as [last4 |];
    [| reflexivity].
  destruct (findAccountByCredentialData w name last4) as [account |].
  - destruct (negb (p =? Account.pin account)%string); reflexivity.
  - unfold recordPaymentAttempt, attemptOf. cbn [d_paymentRequestId].
    rewrite Hid. reflexivity.
Qed.

(** The wrong-PIN branch, run to its reply. *)
Lemma onInvalidPin_runs (cfg : SecurityConfig.t) (env : Env)
    (paymentId : string) (paymentRequest : Request.t) (account : Account.t)
    (w : World) :
  truthy paymentId = true ->
  let row := failedPinRow env paymentId paymentRequest account in
  let c := getConsecutivePinFailures
             (with_payments w (payments w ++ [row])) (Account.id account) in
  onInvalidPin cfg env paymentId paymentRequest account w
  = (mkWorld (paymentRequests w) (payments w ++ [row]) (accounts w)
       (outbox w ++ securityResponse cfg env account paymentRequest c),
     Returned (fail 400 "Invalid PIN. Please check and try again.")).
Proof.
  intros Hid. cbv zeta.
  unfold onInvalidPin, recordPaymentAttempt, attemptOfAccount.
  cbn [d_paymentRequestId]. rewrite Hid. cbn [negb].
  cbv beta iota delta [bind ret get throw try_catch emit].
  cbn [fst snd paymentRequests payments accounts outbox with_payments
       getAllPayments d_status d_amount d_merchantId d_description
       d_accountId d_cardholderName d_accountEmail d_transactionId
       d_previousBalance d_newBalance d_errorReason d_errorDetails d_clientIp
       d_userAgent or_null_num].
  fold (failedPinRow env paymentId paymentRequest account).
  set (row := failedPinRow env paymentId paymentRequest account).
  set (c := getConsecutivePinFailures _ _).
  unfold securityResponse, SecurityConfig.shouldTriggerAlert,
    SecurityConfig.shouldTriggerRevocation, SecurityConfig.getSecurityStatus.
  cbn [fst].
  destruct (c >=? SecurityConfig.maxPinFailuresBeforeAlert cfg);
  destruct (c >=? SecurityConfig.maxPinFailuresBeforeRevoke cfg);
    cbn [fst snd paymentRequests payments accounts outbox];
    try destruct (or_null (Account.credentialId account)) as [cid |];
    try destruct (procivisConfigured env);
    try destruct (revokeCredential env cid);
    cbn [fst snd paymentRequests payments accounts outbox app];
    rewrite <- ?app_assoc; reflexivity.
Qed.

(** The guards in front of the state check. *)
Lemma verifyPIN_rejected (cfg : SecurityConfig.t) (env : Env)
    (paymentId : string) (pin : option string) (w : World) :
  truthy paymentId = false \/ or_null pin = None
  \/ getPaymentRequestById w paymentId = None ->
  verifyPINAndCompletePayment cfg env paymentId pin w
  = (w, fail 400 "Payment ID is required")
  \/ verifyPINAndCompletePayment cfg env paymentId pin w
     = (w, fail 400 "PIN is required")
  \/ verifyPINAndCompletePayment cfg env paymentId pin w
     = (w, fail 404 "Payment request not found").
Proof.
  intros H. run_handler.
  destruct (truthy paymentId); cbn [negb]; [| now left].
  destruct (or_null pin) as [p |]; [| now right; left].
  destruct H as [H | [H | H]]; try discriminate.
  rewrite H. now right; right.
Qed.

(** C10: when the PIN is missing, or no payment request has the given
    id, verify-PIN replies with a failure (400 or 404) and leaves every
    collection as it was: no ledger row of any kind, no change to a payment
    request, no change to a balance, nothing sent. *)
Theorem C10_rejection_without_mutation (cfg : SecurityConfig.t) (env : Env)
    (paymentId : string) (pin : option string) (w : World) :
  or_null pin = None \/ getPaymentRequestById w paymentId = None ->
  fst (verifyPINAndCompletePayment cfg env paymentId pin w) = w
  /\ success (snd (verifyPINAndCompletePayment cfg env paymentId pin w))
     = false
  /\ (statusCode (snd (verifyPINAndCompletePayment cfg env paymentId pin w))
      = 400
      \/ statusCode (snd (verifyPINAndCompletePayment cfg env paymentId pin w))
         = 404).
Proof.
  intros H.
  assert (Hguard : truthy paymentId = false \/ or_null pin = None
                   \/ getPaymentRequestById w paymentId = None)
    by (destruct H; auto).
  destruct (verifyPIN_rejected cfg env paymentId pin w Hguard)
    as [E | [E | E]]; rewrite E; cbn; auto.
Qed.

Lemma C10_rejection_witness :
  fst (verifyPINAndCompletePayment Sample.policy
         (Sample.envAt 2000 "pay_a" None) "pay_1" (Some "")
         (Sample.world Processing 5000 []))
  = Sample.world Processing 5000 []
  /\ fst (verifyPINAndCompletePayment Sample.policy
            (Sample.envAt 2000 "pay_a" None) "pay_404" (Some "482913")
            (Sample.world Processing 5000 []))
     = Sample.world Processing 5000 [].
Proof.
  split.
  - apply (C10_rejection_without_mutation Sample.policy
             (Sample.envAt 2000 "pay_a" None)
             "pay_1" (Some "") (Sample.world Processing 5000 [])).
    left. reflexivity.
  - apply (C10_rejection_without_mutation Sample.policy
             (Sample.envAt 2000 "pay_a" None)
             "pay_404" (Some "482913") (Sample.world Processing 5000 [])).
    right. reflexivity.
Defined.

Lemma resolved_configured (env : Env) (w : World) (paymentRequest : Request.t)
    (account : Account.t) :
  credentialCheck env w paymentRequest = Resolved account ->
  procivisConfigured env = true.
Proof.
  unfold credentialCheck.
  destruct (or_null (Request.proofRequestId paymentRequest));
    [| discriminate].
  destruct (procivisConfigured env); [reflexivity | discriminate].
Qed.

(** C5: on a request in PROCESSING whose proof resolves to an account,
    a PIN that differs from the account's leaves the payment request as it
    was (still PROCESSING) and every balance untouched, appends exactly one
    ledger row, of status failed_pin, and consults the threshold engine
    with the consecutive-failure count of the ledger that already holds
    that row. *)
Theorem C5_wrong_pin_keeps_processing (cfg : SecurityConfig.t) (env : Env)
    (paymentId : string) (pin : option string) (p : string) (w : World)
    (paymentRequest : Request.t) (account : Account.t) :
  truthy paymentId = true ->
  or_null pin = Some p ->
  getPaymentRequestById w paymentId = Some paymentRequest ->
  Request.status paymentRequest = Processing ->
  credentialCheck env w paymentRequest = Resolved account ->
  (p =? Account.pin account)%string = false ->
  let w' := fst (verifyPINAndCompletePayment cfg env paymentId pin w) in
  let c := getConsecutivePinFailures w' (Account.id account) in
  paymentRequests w' = paymentRequests w
  /\ getPaymentRequestById w' paymentId = Some paymentRequest
  /\ accounts w' = accounts w
  /\ (exists row,
        payments w' = payments w ++ [row]
        /\ Attempt.status row = failed_pin
        /\ Attempt.paymentRequestId row = paymentId
        /\ belongsTo (Account.id account) row
           = truthy (Account.id account))
  /\ outbox w'
     = outbox w ++ securityResponse cfg env account paymentRequest c
  /\ In (SecurityStatusLogged (Account.id account) c
           (SecurityConfig.getRiskLevel cfg c)) (outbox w').
Proof.
  intros Hid Hpin Hfind Hst Hres Hne. cbv zeta.
  rewrite (verifyPIN_processing cfg env paymentId pin p w paymentRequest)
    by assumption.
  rewrite Hres, Hne. cbn [negb]. unfold handle.
  rewrite onInvalidPin_runs by assumption. cbn [fst paymentRequests accounts
    payments outbox].
  repeat split.
  - exact Hfind.
  - eexists. split; [reflexivity |]. repeat split.
    unfold belongsTo, failedPinRow. cbn [Attempt.accountId or_null].
    destruct (truthy (Account.id account)); [apply String.eqb_refl |].
    reflexivity.
  - apply in_or_app. right. unfold securityResponse. now left.
Qed.

(** C6: on every failing PIN check, with c the derived count:
    if c >= alertThreshold the alert notification is sent (on every such
    check); if c >= revokeThreshold and the account holds a credential id,
    revocation of that credential is requested, and a rejected request is
    logged; if the account holds no credential id, no revocation is
    requested. Whatever the revocation does, the reply is the same
    "Invalid PIN" failure. *)
Theorem C6_security_response (cfg : SecurityConfig.t) (env : Env)
    (paymentId : string) (pin : option string) (p : string) (w : World)
    (paymentRequest : Request.t) (account : Account.t) :
  truthy paymentId = true ->
  or_null pin = Some p ->
  getPaymentRequestById w paymentId = Some paymentRequest ->
  Request.status paymentRequest = Processing ->
  credentialCheck env w paymentRequest = Resolved account ->
  (p =? Account.pin account)%string = false ->
  let result := verifyPINAndCompletePayment cfg env paymentId pin w in
  let c := getConsecutivePinFailures (fst result) (Account.id account) in
  exists sent,
    outbox (fst result) = outbox w ++ sent
    /\ (SecurityConfig.maxPinFailuresBeforeAlert cfg <= c ->
        In (SecurityAlertEmail account paymentRequest c) sent)
    /\ (SecurityConfig.maxPinFailuresBeforeRevoke cfg <= c ->
        forall credentialId,
          or_null (Account.credentialId account) = Some credentialId ->
          In (RevokeCredentialCall credentialId) sent
          /\ (revokeCredential env credentialId = false ->
              In (RevokeFailedLogged "revocation request failed") sent))
    /\ (or_null (Account.credentialId account) = None ->
        forall credentialId, ~ In (RevokeCredentialCall credentialId) sent)
    /\ snd result = fail 400 "Invalid PIN. Please check and try again.".
Proof.
  intros Hid Hpin Hfind Hst Hres Hne. cbv zeta.
  pose proof (resolved_configured _ _ _ _ Hres) as Hconf.
  rewrite (verifyPIN_processing cfg env paymentId pin p w paymentRequest)
    by assumption.
  rewrite Hres, Hne. cbn [negb]. unfold handle.
  rewrite onInvalidPin_runs by assumption.
  cbn [fst snd paymentRequests accounts payments outbox].
  eexists. split; [reflexivity |].
  set (c := getConsecutivePinFailures _ _).
  unfold securityResponse. rewrite Hconf.
  repeat split.
  - intros Ha. apply Z.geb_le in Ha. rewrite Ha.
    right. now left.
  - apply Z.geb_le in H. rewrite H, H0.
    apply in_or_app. right. apply in_or_app. right. now left.
  - intros Hrev. apply Z.geb_le in H. rewrite H, H0, Hrev.
    apply in_or_app. right. apply in_or_app. right. right. now left.
  - intros Hnone cid Hin. rewrite Hnone in Hin.
    destruct (c >=? SecurityConfig.maxPinFailuresBeforeAlert cfg);
    destruct (c >=? SecurityConfig.maxPinFailuresBeforeRevoke cfg);
      cbn in Hin; intuition discriminate.
Qed.

(** C9: on a request in PROCESSING, when the proof claims
    resolve to no account, one failed_invalid_credential row is appended and
    the call is rejected (400) before any transition: the payment request
    and the balances are as before. When a claim (cardholder name or last
    four digits) is missing, the call is rejected (400) with nothing
    changed at all: no ledger row is appended. *)
Theorem C9_unresolved_credential (cfg : SecurityConfig.t) (env : Env)
    (paymentId : string) (pin : option string) (p : string) (w : World)
    (paymentRequest : Request.t) :
  truthy paymentId = true ->
  or_null pin = Some p ->
  getPaymentRequestById w paymentId = Some paymentRequest ->
  Request.status paymentRequest = Processing ->
  let result := verifyPINAndCompletePayment cfg env paymentId pin w in
  (forall name last4,
      credentialCheck env w paymentRequest = NoAccountMatches name last4 ->
      payments (fst result)
      = payments w
        ++ [anonymousRow env paymentId paymentRequest
              failed_invalid_credential
              "Account not found for provided credentials"
              (CredentialOf name last4)]
      /\ paymentRequests (fst result) = paymentRequests w
      /\ accounts (fst result) = accounts w
      /\ snd result = fail 400 "Account not found for provided credentials")
  /\ (credentialCheck env w paymentRequest = ClaimsMissing ->
      fst result = w
      /\ snd result = fail 400 "Required credential data not found").
Proof.
  intros Hid Hpin Hfind Hst. cbv zeta.
  rewrite (verifyPIN_processing cfg env paymentId pin p w paymentRequest)
    by assumption.
  split.
  - intros name last4 ->. now cbn.
  - intros ->. now cbn.
Qed.

End VerifyPin.

Lemma C5_wrong_pin_witness :
  let w' := fst (PaymentController.verifyPINAndCompletePayment Sample.policy
                   (Sample.envAt 2000 "pay_a"
                      (Some (Sample.proofFor "Alice Example" "1111")))
                   "pay_1" (Some "000000")
                   (Sample.world Processing 5000 Sample.twoFailures)) in
  paymentRequests w' = [Sample.request Processing 5000]
  /\ List.map Attempt.status (payments w')
     = [failed_pin; failed_pin; failed_pin].
Proof.
  pose proof (C5_wrong_pin_keeps_processing Sample.policy
                (Sample.envAt 2000 "pay_a"
                   (Some (Sample.proofFor "Alice Example" "1111")))
                "pay_1" (Some "000000") "000000"
                (Sample.world Processing 5000 Sample.twoFailures)
                (Sample.request Processing 5000) Sample.alice
                eq_refl eq_refl eq_refl eq_refl eq_refl eq_refl)
    as (Hreq & _ & _ & (row & Hrows & Hstatus & _) & _).
  cbv zeta. split; [exact Hreq |].
  rewrite Hrows, map_app. cbn [map]. rewrite Hstatus. reflexivity.
Defined.

Lemma C6_security_response_witness :
  snd (PaymentController.verifyPINAndCompletePayment Sample.policy
         (Sample.envAt 2000 "pay_a"
            (Some (Sample.proofFor "Alice Example" "1111")))
         "pay_1" (Some "000000")
         (Sample.world Processing 5000 Sample.fourFailures))
  = PaymentController.fail 400 "Invalid PIN. Please check and try again.".
Proof.
  destruct (C6_security_response Sample.policy
              (Sample.envAt 2000 "pay_a"
                 (Some (Sample.proofFor "Alice Example" "1111")))
              "pay_1" (Some "000000") "000000"
              (Sample.world Processing 5000 Sample.fourFailures)
              (Sample.request Processing 5000) Sample.alice
              eq_refl eq_refl eq_refl eq_refl eq_refl eq_refl)
    as (sent & _ & _ & _ & _ & Hreply).
  exact Hreply.
Defined.

(** C6, as stated, fails for an account without a credential id: the
    fifth consecutive wrong PIN reaches the revoke threshold of the default
    policy, the alert is sent, and no revocation is requested. *)
Lemma C6_no_credential_counterexample :
  let result :=
    PaymentController.verifyPINAndCompletePayment Sample.policy
      (Sample.envAt 2000 "pay_a" (Some (Sample.proofFor "Bob Example" "2222")))
      "pay_1" (Some "000000")
      (Sample.world Processing 5000 Sample.bobFourFailures) in
  let c := PaymentService.getConsecutivePinFailures (fst result) "acc_bob" in
  SecurityConfig.shouldTriggerRevocation Sample.policy c = true
  /\ outbox (fst result)
     = [SecurityStatusLogged "acc_bob" 5 CRITICAL;
        SecurityAlertEmail Sample.bob (Sample.request Processing 5000) 5]
  /\ ~ (exists credentialId,
          In (RevokeCredentialCall credentialId) (outbox (fst result))).
Proof.
  vm_compute. repeat split.
  intros [cid [H | [H | []]]]; discriminate H.
Qed.

Lemma C9_unresolved_credential_witness :
  let result :=
    PaymentController.verifyPINAndCompletePayment Sample.policy
      (Sample.envAt 2000 "pay_a" (Some (Sample.proofFor "Nobody" "0000")))
      "pay_1" (Some "482913") (Sample.world Processing 5000 []) in
  List.map Attempt.status (payments (fst result)) = [failed_invalid_credential]
  /\ paymentRequests (fst result) = [Sample.request Processing 5000].
Proof.
  destruct (C9_unresolved_credential Sample.policy
              (Sample.envAt 2000 "pay_a"
                 (Some (Sample.proofFor "Nobody" "0000")))
              "pay_1" (Some "482913") "482913"
              (Sample.world Processing 5000 [])
              (Sample.request Processing 5000)
              eq_refl eq_refl eq_refl eq_refl) as [Hnone _].
  destruct (Hnone "Nobody" "0000" eq_refl) as (Hrows & Hreq & _).
  cbv zeta. rewrite Hrows, Hreq. split; reflexivity.
Defined.

(** C9, as stated, fails when a claim is missing: the call is rejected
    and the ledger gains no row. *)
Lemma C9_missing_claim_counterexample :
  let w := Sample.world Processing 5000 [] in
  let result :=
    PaymentController.verifyPINAndCompletePayment Sample.policy
      (Sample.envAt 2000 "pay_a" (Some Sample.proofWithoutDigits))
      "pay_1" (Some "482913") w in
  credentialCheck (Sample.envAt 2000 "pay_a" (Some Sample.proofWithoutDigits))
                  w (Sample.request Processing 5000) = ClaimsMissing
  /\ payments (fst result) = []
  /\ List.map Request.status (paymentRequests (fst result)) = [Processing]
  /\ snd result
     = PaymentController.fail 400 "Required credential data not found".
Proof. vm_compute. repeat split. Qed.

(** Section 4.1 of the specification: lazy expiry. *)
Section Expiry.
Import PaymentService AccountService PaymentController.

Ltac run_monad :=
  cbv beta iota delta [handle bind ret get throw try_catch emit].

(** C3: poll-status re-checks expiresAt on a PENDING request and
    process re-checks it on every non-terminal request, before anything
    else is done with the request. A PENDING request polled at or after
    expiresAt becomes EXPIRED and one failed_expired row (reason "Payment
    request expired") is appended. A non-terminal request submitted to
    process at or after expiresAt becomes EXPIRED, exactly one failed_expired
    row with reason "Payment request expired during processing" is appended,
    and the call is rejected (400); no balance changes in either case. *)
Theorem C3_expiry_on_poll_and_process (env : Env) (paymentId : string)
    (w : World) (paymentRequest : Request.t) :
  truthy paymentId = true ->
  getPaymentRequestById w paymentId = Some paymentRequest ->
  Request.expiresAt paymentRequest <= now env ->
  let expired := with_status paymentRequest Expired (now env) in
  (Request.status paymentRequest = Pending ->
   let polled := getPaymentStatus env paymentId w in
   getPaymentRequestById (fst polled) paymentId = Some expired
   /\ payments (fst polled)
      = payments w
        ++ [anonymousRow env paymentId paymentRequest failed_expired
              "Payment request expired"
              (RequestExpiredAt (Request.expiresAt paymentRequest))]
   /\ accounts (fst polled) = accounts w
   /\ exists proofState,
        snd polled = mkResponse 200 true (PaymentStatus expired proofState))
  /\ (terminal (Request.status paymentRequest) = false ->
      let processed := processPayment env paymentId w in
      getPaymentRequestById (fst processed) paymentId = Some expired
      /\ payments (fst processed)
         = payments w
           ++ [anonymousRow env paymentId paymentRequest failed_expired
                 "Payment request expired during processing"
                 (RequestExpiredAt (Request.expiresAt paymentRequest))]
      /\ accounts (fst processed) = accounts w
      /\ snd processed = fail 400 "Payment request has expired").
Proof.
  intros Hid Hfind Hexp. cbv zeta.
  apply Z.leb_le in Hexp.
  destruct (updatePaymentRequestStatus_runs env paymentId Expired
              noAdditionalData w paymentRequest Hfind)
    as (i & Hi & Hupd & Hget).
  split.
  - intros Hst. unfold getPaymentStatus. run_monad.
    rewrite Hfind; cbv beta iota. rewrite Hst, Hexp.
    cbn [RequestStatus_eqb andb]. rewrite Hupd; cbv beta iota.
    unfold recordPaymentAttempt, attemptOf. cbn [d_paymentRequestId].
    rewrite Hid. cbn [negb].
    cbn [Object_assign with_status noAdditionalData ad_proofRequestId
         ad_fields fold_left Request.proofRequestId Request.status
         Request.id Request.amount Request.description Request.merchantId
         Request.createdAt Request.updatedAt Request.expiresAt
         Request.resultMetadata].
    destruct (or_null (Request.proofRequestId paymentRequest)) as [prid |].
    + destruct (procivisConfigured env).
      * destruct (getProofRequestStatus env prid) as [st |].
        -- rewrite andb_false_r. cbn [fst snd]. repeat split; eauto.
        -- cbn [fst snd]. repeat split; eauto.
      * cbn [fst snd]. repeat split; eauto.
    + cbn [fst snd]. repeat split; eauto.
  - intros Hlive. unfold processPayment. run_monad.
    rewrite Hfind; cbv beta iota.
    assert (Hok : negb (RequestStatus_eqb (Request.status paymentRequest)
                                          Pending
                        || RequestStatus_eqb (Request.status paymentRequest)
                                             Processing) = false)
      by (destruct (Request.status paymentRequest); try discriminate;
          reflexivity).
    rewrite Hok, Hexp, Hupd; cbv beta iota.
    unfold recordPaymentAttempt, attemptOf. cbn [d_paymentRequestId].
    rewrite Hid. cbn [negb fst snd]. repeat split. exact Hget.
Qed.

End Expiry.

Lemma C3_expiry_witness :
  let processed :=
    PaymentController.processPayment (Sample.envAt 9000 "pay_a" None) "pay_1"
      (Sample.world Processing 5000 []) in
  List.map Request.status (paymentRequests (fst processed)) = [Expired]
  /\ List.map Attempt.errorReason (payments (fst processed))
     = [Some "Payment request expired during processing"].
Proof.
  destruct (C3_expiry_on_poll_and_process (Sample.envAt 9000 "pay_a" None)
              "pay_1" (Sample.world Processing 5000 [])
              (Sample.request Processing 5000) eq_refl eq_refl
              ltac:(cbn; lia)) as [_ Hprocess].
  destruct (Hprocess eq_refl) as (_ & Hrows & _).
  cbv zeta. rewrite Hrows. split; reflexivity.
Defined.

(** C3, as stated, fails in three places. Process turns an expired
    request EXPIRED, not FAILED. Poll-status does not look at expiresAt
    unless the request is PENDING. Verify-PIN never looks at expiresAt: an
    expired request in PROCESSING is completed and the balance debited. *)
Lemma C3_expiry_counterexample :
  let late := Sample.envAt 9000 "pay_a"
                (Some (Sample.proofFor "Alice Example" "1111")) in
  let w := Sample.world Processing 5000 [] in
  List.map Request.status
    (paymentRequests (fst (PaymentController.processPayment late "pay_1" w)))
  = [Expired]
  /\ List.map Request.status
       (paymentRequests (fst (PaymentController.processPayment late "pay_1" w)))
     <> [Failed]
  /\ fst (PaymentController.getPaymentStatus late "pay_1" w) = w
  /\ List.map Request.status
       (paymentRequests
          (fst (PaymentController.verifyPINAndCompletePayment Sample.policy
                  late "pay_1" (Some "482913") w)))
     = [Completed]
  /\ List.map Account.balance
       (accounts
          (fst (PaymentController.verifyPINAndCompletePayment Sample.policy
                  late "pay_1" (Some "482913") w)))
     = [7500; 4000].
Proof. vm_compute. repeat split. discriminate. Qed.

(** Section 4.1 of the specification: terminal states, and section 8:
    at most one debit. *)
Section Lifecycle.
Import PaymentService AccountService PaymentController.

Ltac run_monad :=
  cbv beta iota delta [handle bind ret get throw try_catch emit].

Lemma touchesLiveOnly_keeps (paymentId : string) (w w' : World) (k : nat)
    (r : Request.t) :
  touchesLiveOnly paymentId w w' ->
  nth_error (paymentRequests w) k = Some r ->
  terminal (Request.status r) = true ->
  nth_error (paymentRequests w') k = Some r.
Proof.
  intros [-> | (i & r0 & r' & Hi & Hlive & ->)] Hk Hterm; [exact Hk |].
  destruct (Nat.eq_dec i k) as [-> | Hne].
  - destruct (findIndex_nth _ _ _ _ Hi) as [Hnth _].
    rewrite Hnth in Hk. injection Hk as ->. congruence.
  - now rewrite nth_error_set_nth_other.
Qed.

Lemma findIndex_of_In {A : Type} (q : A -> bool) (l : list A) (x : A) :
  In x l -> q x = true -> exists i y, findIndex q l = Some (i, y).
Proof.
  induction l as [| z rest IH]; intros Hin Hq; [destruct Hin |].
  cbn [findIndex]. destruct (q z) eqn:Hz; [now eauto |].
  destruct Hin as [-> | Hin]; [congruence |].
  destruct (IH Hin Hq) as (i & y & ->). now eauto.
Qed.

Lemma resolved_account_known (env : Env) (w : World)
    (paymentRequest : Request.t) (account : Account.t) :
  credentialCheck env w paymentRequest = Resolved account ->
  In account (accounts w).
Proof.
  unfold credentialCheck.
  destruct (or_null (Request.proofRequestId paymentRequest)) as [prid |];
    [| discriminate].
  destruct (negb (procivisConfigured env)); [discriminate |].
  destruct (getProofRequestDetails env prid) as [d |]; [| discriminate].
  destruct (negb (state d =? "ACCEPTED")%string); [discriminate |].
  destruct (proofInputs d) as [| input rest]; [discriminate |].
  destruct (or_null (claimValue "cardHolderName" input)) as [name |];
    [| discriminate].
  destruct (or_null (claimValue "last4Digits" input)) as [last4 |];
    [| discriminate].
  destruct (findAccountByCredentialData w name last4) as [a |] eqn:Hfind;
    [| discriminate].
  intros [= <-]. unfold findAccountByCredentialData in Hfind.
  now apply find_some in Hfind.
Qed.

(** The code after a matching PIN, run to its reply. *)
Lemma completePayment_runs (env : Env) (paymentId : string)
    (paymentRequest : Request.t) (account : Account.t) (w : World) :
  truthy paymentId = true ->
  getPaymentRequestById w paymentId = Some paymentRequest ->
  In account (accounts w) ->
  exists i,
    findIndex (fun req => (Request.id req =? paymentId)%string)
              (paymentRequests w) = Some (i, paymentRequest)
    /\ if Account.balance account <? Request.amount paymentRequest
       then
         exists row r',
           Attempt.status row = failed_insufficient_funds
           /\ Request.status r' = Failed
           /\ completePayment env paymentId paymentRequest account w
              = (mkWorld (set_nth i r' (paymentRequests w))
                   (payments w ++ [row]) (accounts w) (outbox w),
                 Returned
                   (mkResponse 400 false
                      (Error (InsufficientBalanceMsg
                                (Account.balance account)
                                (Request.amount paymentRequest)))))
       else
         exists row r' done,
           Attempt.status row = completed
           /\ Attempt.paymentRequestId row = paymentId
           /\ Request.status r' = Completed
           /\ Request.id r' = Request.id paymentRequest
           /\ completePayment env paymentId paymentRequest account w
              = (mkWorld (set_nth i r' (paymentRequests w))
                   (payments w ++ [row])
                   (accounts
                      (fst (updateAccountBalance env (Account.id account)
                              (Account.balance account
                               - Request.amount paymentRequest)
                              ("Payment via PIN verification - Payment ID: "
                               ++ paymentId)%string w)))
                   (outbox w),
                 Returned (mkResponse 200 true (PaymentCompleted done))).
Proof.
  intros Hid Hfind Hin.
  pose proof Hfind as Hfind'.
  unfold getPaymentRequestById, getAllPaymentRequests in Hfind'.
  destruct (find_findIndex _ _ _ Hfind') as [i Hi].
  exists i. split; [exact Hi |].
  unfold completePayment.
  destruct (Account.balance account <? Request.amount paymentRequest).
  - run_monad. unfold recordPaymentAttempt, attemptOfAccount.
    cbn [d_paymentRequestId]. rewrite Hid. cbn [negb].
    unfold updatePaymentRequestStatus, getAllPaymentRequests.
    cbn [with_payments paymentRequests]. rewrite Hi.
    do 2 eexists. split; [| split; [| reflexivity]]; reflexivity.
  - cbv zeta. run_monad.
    destruct (findIndex_of_In
                (fun a => (Account.id a =? Account.id account)%string)
                (accounts w) account Hin (String.eqb_refl _))
      as (j & a0 & Hj).
    unfold updateAccountBalance at 1. unfold getAllAccounts at 1.
    rewrite Hj.
    unfold recordPaymentAttempt, attemptOfAccount.
    cbn [d_paymentRequestId]. rewrite Hid. cbn [negb].
    unfold updatePaymentRequestStatus, getAllPaymentRequests.
    cbn [with_payments with_accounts paymentRequests]. rewrite Hi.
    unfold updateAccountBalance, getAllAccounts. rewrite Hj.
    do 3 eexists.
    split; [| split; [| split; [| split; [| reflexivity]]]]; reflexivity.
Qed.

(** Verify-PIN on a request that is not in PROCESSING: the attempt is
    logged and nothing else changes. *)
Lemma verifyPIN_wrong_state (cfg : SecurityConfig.t) (env : Env)
    (paymentId : string) (pin : option string) (p : string) (w : World)
    (paymentRequest : Request.t) :
  truthy paymentId = true ->
  or_null pin = Some p ->
  getPaymentRequestById w paymentId = Some paymentRequest ->
  Request.status paymentRequest <> Processing ->
  verifyPINAndCompletePayment cfg env paymentId pin w
  = (with_payments w
       (payments w
        ++ [anonymousRow env paymentId paymentRequest failed_invalid_state
              "Payment not in processing state"
              (CurrentStatusExpectedProcessing
                 (Request.status paymentRequest))]),
     fail 400 "Payment request is not ready for PIN verification").
Proof.
  intros Hid Hpin Hfind Hst.
  cbv beta iota delta
    [verifyPINAndCompletePayment verifyPIN_begin handle bind ret get].
  rewrite Hid; cbn [negb]. rewrite Hpin; cbv beta iota.
  rewrite Hfind; cbv beta iota.
  assert (Hneq : RequestStatus_eqb (Request.status paymentRequest) Processing
                 = false)
    by (destruct (Request.status paymentRequest); try reflexivity;
        now elim Hst).
  rewrite Hneq. cbn [negb].
  unfold recordPaymentAttempt, attemptOf. cbn [d_paymentRequestId].
  rewrite Hid. reflexivity.
Qed.

Lemma verifyPIN_touches (cfg : SecurityConfig.t) (env : Env)
    (paymentId : string) (pin : option string) (w : World) :
  touchesLiveOnly paymentId w
    (fst (verifyPINAndCompletePayment cfg env paymentId pin w)).
Proof.
  destruct (truthy paymentId) eqn:Hid;
  [destruct (or_null pin) as [p |] eqn:Hpin;
   [destruct (getPaymentRequestById w paymentId) as [pr |] eqn:Hfind |] |];
    try (destruct (verifyPIN_rejected cfg env paymentId pin w)
           as [E | [E | E]]; [now auto | rewrite E; now left ..]).
  destruct (RequestStatus_eqb (Request.status pr) Processing) eqn:Hst.
  - assert (Hproc : Request.status pr = Processing)
      by (destruct (Request.status pr); try discriminate; reflexivity).
    rewrite (verifyPIN_processing cfg env paymentId pin p w pr) by assumption.
    destruct (credentialCheck env w pr) as [| | | | name last4 | account]
      eqn:Hres; try (now left).
    destruct (negb (p =? Account.pin account)%string).
    + unfold handle. rewrite onInvalidPin_runs by assumption. now left.
    + destruct (completePayment_runs env paymentId pr account w Hid Hfind
                  (resolved_account_known _ _ _ _ Hres)) as (i & Hi & Hrun).
      unfold handle.
      destruct (Account.balance account <? Request.amount pr).
      * destruct Hrun as (row & r' & _ & _ & ->).
        right. exists i, pr, r'. rewrite Hproc. now repeat split.
      * destruct Hrun as (row & r' & done & _ & _ & _ & _ & ->).
        right. exists i, pr, r'. rewrite Hproc. now repeat split.
  - rewrite (verifyPIN_wrong_state cfg env paymentId pin p w pr);
      try assumption; [now left |].
    intros E. rewrite E in Hst. discriminate.
Qed.

Lemma processPayment_touches (env : Env) (paymentId : string) (w : World) :
  touchesLiveOnly paymentId w (fst (processPayment env paymentId w)).
Proof.
  unfold processPayment. run_monad.
  destruct (getPaymentRequestById w paymentId) as [pr |] eqn:Hfind;
    [| now left].
  destruct (negb (RequestStatus_eqb (Request.status pr) Pending
                  || RequestStatus_eqb (Request.status pr) Processing))
    eqn:Hguard; [now left |].
  assert (Hlive : terminal (Request.status pr) = false)
    by (destruct (Request.status pr); try discriminate; reflexivity).
  pose proof Hfind as Hfind'.
  unfold getPaymentRequestById, getAllPaymentRequests in Hfind'.
  destruct (find_findIndex _ _ _ Hfind') as [i Hi].
  assert (Hupd : forall st ad,
             touchesLiveOnly paymentId w
               (fst (updatePaymentRequestStatus env paymentId st ad w))).
  { intros st ad. unfold updatePaymentRequestStatus, getAllPaymentRequests.
    rewrite Hi. right. now exists i, pr, (Object_assign (with_status pr st (now env)) ad). }
  destruct (Request.expiresAt pr <=? now env).
  - specialize (Hupd Expired noAdditionalData).
    destruct (updatePaymentRequestStatus env paymentId Expired
                noAdditionalData w) as [w1 [r1 | e]]; [| exact Hupd].
    unfold recordPaymentAttempt.
    destruct (negb (truthy (d_paymentRequestId _))); exact Hupd.
  - destruct (or_null (Request.proofRequestId pr)) as [prid |]; [| now left].
    destruct (procivisConfigured env); [| now left].
    destruct (getProofRequestDetails env prid) as [d |]; [| now left].
    destruct (state d =? "ACCEPTED")%string; [| now left].
    specialize (Hupd Processing (proofAccepted env (state d))).
    destruct (updatePaymentRequestStatus env paymentId Processing
                (proofAccepted env (state d)) w) as [w1 [r1 | e]];
      exact Hupd.
Qed.

Lemma getPaymentStatus_touches (env : Env) (paymentId : string) (w : World) :
  touchesLiveOnly paymentId w (fst (getPaymentStatus env paymentId w)).
Proof.
  unfold getPaymentStatus. run_monad.
  destruct (getPaymentRequestById w paymentId) as [pr |] eqn:Hfind;
    [| now left].
  pose proof Hfind as Hfind'.
  unfold getPaymentRequestById, getAllPaymentRequests in Hfind'.
  destruct (find_findIndex _ _ _ Hfind') as [i Hi].
  destruct (RequestStatus_eqb (Request.status pr) Pending) eqn:Hst.
  - assert (Hlive : terminal (Request.status pr) = false)
      by (destruct (Request.status pr); try discriminate; reflexivity).
    assert (Hupd : forall st ad,
               touchesLiveOnly paymentId w
                 (fst (updatePaymentRequestStatus env paymentId st ad w))).
    { intros st ad. unfold updatePaymentRequestStatus, getAllPaymentRequests.
      rewrite Hi. right.
      now exists i, pr, (Object_assign (with_status pr st (now env)) ad). }
    destruct (Request.expiresAt pr <=? now env); cbn [andb].
    + specialize (Hupd Expired noAdditionalData).
      unfold updatePaymentRequestStatus, getAllPaymentRequests in *.
      rewrite Hi in *. cbn [fst] in Hupd.
      unfold recordPaymentAttempt.
      destruct (negb (truthy (d_paymentRequestId _))); [exact Hupd |].
      cbn [Object_assign with_status noAdditionalData ad_proofRequestId
           ad_fields fold_left Request.proofRequestId Request.status].
      destruct (or_null (Request.proofRequestId pr)) as [prid |];
        [| exact Hupd].
      destruct (procivisConfigured env); [| exact Hupd].
      destruct (getProofRequestStatus env prid) as [st |]; [| exact Hupd].
      rewrite andb_false_r. exact Hupd.
    + destruct (or_null (Request.proofRequestId pr)) as [prid |];
        [| now left].
      destruct (procivisConfigured env); [| now left].
      destruct (getProofRequestStatus env prid) as [st |]; [| now left].
      rewrite Hst, andb_true_r.
      destruct (st =? "ACCEPTED")%string; [| now left].
      specialize (Hupd Processing (proofAccepted env st)).
      destruct (updatePaymentRequestStatus env paymentId Processing
                  (proofAccepted env st) w) as [w1 [r1 | e]]; exact Hupd.
  - cbn [andb].
    destruct (or_null (Request.proofRequestId pr)) as [prid |]; [| now left].
    destruct (procivisConfigured env); [| now left].
    destruct (getProofRequestStatus env prid) as [st |]; [| now left].
    rewrite Hst, andb_false_r. now left.
Qed.

Lemma expireOldPaymentRequests_keeps (env : Env) (w : World) (k : nat)
    (r : Request.t) :
  nth_error (paymentRequests w) k = Some r ->
  terminal (Request.status r) = true ->
  nth_error (paymentRequests (fst (expireOldPaymentRequests env w))) k
  = Some r.
Proof.
  intros Hk Hterm. unfold expireOldPaymentRequests, getAllPaymentRequests.
  destruct (0 <? _)%nat; [| exact Hk].
  cbn [fst with_paymentRequests paymentRequests].
  rewrite nth_error_map, Hk. cbn [option_map]. unfold stale.
  destruct (Request.status r); try discriminate; reflexivity.
Qed.

(** C2: a payment request in a terminal state (COMPLETED,
    FAILED, EXPIRED, CANCELLED) is left exactly as it is by every
    controller operation run to completion: poll-status, process,
    verify-PIN and the expiry sweep, whatever request they are aimed at.
    Aimed at the terminal request itself, process is rejected (400) with no
    state change at all, and verify-PIN is rejected (400) after appending one
    failed_invalid_state row, with requests and balances unchanged. *)
Theorem C2_terminal_requests_are_kept (cfg : SecurityConfig.t) (env : Env)
    (paymentId : string) (pin : option string) (w : World) (k : nat)
    (r : Request.t) :
  nth_error (paymentRequests w) k = Some r ->
  terminal (Request.status r) = true ->
  nth_error (paymentRequests (fst (getPaymentStatus env paymentId w))) k
  = Some r
  /\ nth_error (paymentRequests (fst (processPayment env paymentId w))) k
     = Some r
  /\ nth_error
       (paymentRequests
          (fst (verifyPINAndCompletePayment cfg env paymentId pin w))) k
     = Some r
  /\ nth_error (paymentRequests (fst (expireOldPaymentRequests env w))) k
     = Some r
  /\ (getPaymentRequestById w paymentId = Some r ->
      processPayment env paymentId w
      = (w, mkResponse 400 false
              (Error (CannotBeProcessed (Request.status r))))
      /\ forall p,
           truthy paymentId = true ->
           or_null pin = Some p ->
           verifyPINAndCompletePayment cfg env paymentId pin w
           = (with_payments w
                (payments w
                 ++ [anonymousRow env paymentId r failed_invalid_state
                       "Payment not in processing state"
                       (CurrentStatusExpectedProcessing (Request.status r))]),
              fail 400 "Payment request is not ready for PIN verification")).
Proof.
  intros Hk Hterm.
  split; [eapply touchesLiveOnly_keeps; eauto using getPaymentStatus_touches |].
  split; [eapply touchesLiveOnly_keeps; eauto using processPayment_touches |].
  split; [eapply touchesLiveOnly_keeps; eauto using verifyPIN_touches |].
  split; [now apply expireOldPaymentRequests_keeps |].
  intros Hfind. split.
  - unfold processPayment. run_monad. rewrite Hfind; cbv beta iota.
    destruct (Request.status r); try discriminate; reflexivity.
  - intros p Hid Hpin. apply (verifyPIN_wrong_state cfg env paymentId pin p);
      try assumption.
    intros E. rewrite E in Hterm. discriminate.
Qed.

(** Ledger rows of completed payments, when a row is appended. *)
Lemma completedRows_append (paymentId : string) (w w' : World)
    (row : Attempt.t) :
  payments w' = payments w ++ [row] ->
  completedRows paymentId w'
  = (completedRows paymentId w
     + if hasStatus completed row
          && (Attempt.paymentRequestId row =? paymentId)%string
       then 1 else 0)%nat.
Proof.
  intros E. unfold completedRows. rewrite E, filter_app, length_app.
  cbn [filter]. now destruct (_ && _).
Qed.

(** One verify-PIN call either fails, touching no balance and recording no
    completed payment, or succeeds, and then it found the request in
    PROCESSING, debited once, recorded one completed payment and left the
    request COMPLETED. *)
Lemma verifyPIN_debits_on_success_only (cfg : SecurityConfig.t) (env : Env)
    (paymentId : string) (pin : option string) (w : World) :
  let result := verifyPINAndCompletePayment cfg env paymentId pin w in
  (success (snd result) = false
   /\ accounts (fst result) = accounts w
   /\ completedRows paymentId (fst result) = completedRows paymentId w)
  \/ (success (snd result) = true
      /\ exists paymentRequest account completedRequest,
           getPaymentRequestById w paymentId = Some paymentRequest
           /\ Request.status paymentRequest = Processing
           /\ credentialCheck env w paymentRequest = Resolved account
           /\ Request.amount paymentRequest <= Account.balance account
           /\ accounts (fst result)
              = accounts
                  (fst (updateAccountBalance env (Account.id account)
                          (Account.balance account
                           - Request.amount paymentRequest)
                          ("Payment via PIN verification - Payment ID: "
                           ++ paymentId)%string w))
           /\ completedRows paymentId (fst result)
              = S (completedRows paymentId w)
           /\ getPaymentRequestById (fst result) paymentId
              = Some completedRequest
           /\ Request.status completedRequest = Completed).
Proof.
  cbv zeta.
  destruct (truthy paymentId) eqn:Hid;
  [destruct (or_null pin) as [p |] eqn:Hpin;
   [destruct (getPaymentRequestById w paymentId) as [pr |] eqn:Hfind |] |];
    try (destruct (verifyPIN_rejected cfg env paymentId pin w)
           as [E | [E | E]]; [now auto | rewrite E; left; now cbn ..]).
  destruct (RequestStatus_eqb (Request.status pr) Processing) eqn:Hst.
  - assert (Hproc : Request.status pr = Processing)
      by (destruct (Request.status pr); try discriminate; reflexivity).
    rewrite (verifyPIN_processing cfg env paymentId pin p w pr) by assumption.
    destruct (credentialCheck env w pr) as [| | | | name last4 | account]
      eqn:Hres; try (left; now cbn).
    + left. cbn [fst snd success fail accounts with_payments].
      repeat split.
      erewrite completedRows_append by reflexivity. cbn. lia.
    + destruct (negb (p =? Account.pin account)%string).
      * unfold handle. rewrite onInvalidPin_runs by assumption.
        left. cbn [fst snd success fail accounts]. repeat split.
        erewrite completedRows_append by reflexivity. cbn. lia.
      * destruct (completePayment_runs env paymentId pr account w Hid Hfind
                    (resolved_account_known _ _ _ _ Hres))
          as (i & Hi & Hrun).
        unfold handle.
        destruct (Account.balance account <? Request.amount pr) eqn:Hbal.
        -- destruct Hrun as (row & r' & Hrow & _ & ->).
           left. cbn [fst snd success accounts]. repeat split.
           erewrite completedRows_append by reflexivity.
           unfold hasStatus. rewrite Hrow. cbn. lia.
        -- destruct Hrun as (row & r' & done & Hrow & Hpid & Hdone & Hsame
                             & ->).
           right. cbn [fst snd success accounts]. split; [reflexivity |].
           exists pr, account, r'. apply Z.ltb_ge in Hbal.
           repeat split; try assumption.
           ++ erewrite completedRows_append by reflexivity.
              unfold hasStatus. rewrite Hrow, Hpid, String.eqb_refl.
              cbn. lia.
           ++ unfold getPaymentRequestById, getAllPaymentRequests.
              cbn [paymentRequests]. rewrite findIndex_find.
              erewrite findIndex_set_nth; [reflexivity | exact Hi |].
              rewrite Hsame.
              destruct (findIndex_nth _ _ _ _ Hi) as [_ Hp]. exact Hp.
  - rewrite (verifyPIN_wrong_state cfg env paymentId pin p w pr);
      try assumption.
    + left. cbn [fst snd success fail accounts with_payments].
      repeat split.
      erewrite completedRows_append by reflexivity. cbn. lia.
    + intros E. rewrite E in Hst. discriminate.
Qed.

(** Once the request is COMPLETED, a further verify-PIN call fails and
    leaves it COMPLETED. *)
Lemma verifyPIN_after_completion (cfg : SecurityConfig.t) (env : Env)
    (paymentId : string) (pin : option string) (w : World) (r : Request.t) :
  getPaymentRequestById w paymentId = Some r ->
  Request.status r = Completed ->
  let result := verifyPINAndCompletePayment cfg env paymentId pin w in
  success (snd result) = false
  /\ getPaymentRequestById (fst result) paymentId = Some r.
Proof.
  intros Hfind Hst. cbv zeta.
  destruct (truthy paymentId) eqn:Hid;
  [destruct (or_null pin) as [p |] eqn:Hpin |];
    try (destruct (verifyPIN_rejected cfg env paymentId pin w)
           as [E | [E | E]]; [now auto | rewrite E; now cbn ..]).
  rewrite (verifyPIN_wrong_state cfg env paymentId pin p w r);
    try assumption; [now cbn | congruence].
Qed.

Lemma runSequentially_after_completion (cfg : SecurityConfig.t)
    (paymentId : string) (calls : list (Env * option string)) :
  forall (w : World) (r : Request.t),
    getPaymentRequestById w paymentId = Some r ->
    Request.status r = Completed ->
    successes (snd (runSequentially cfg paymentId calls w)) = O.
Proof.
  induction calls as [| [env pin] later IH]; intros w r Hfind Hst.
  - reflexivity.
  - cbn [runSequentially].
    destruct (verifyPIN_after_completion cfg env paymentId pin w r Hfind Hst)
      as [Hfail Hkept].
    destruct (verifyPINAndCompletePayment cfg env paymentId pin w)
      as [w1 reply].
    cbn [fst snd] in Hfail, Hkept.
    specialize (IH w1 r Hkept Hst).
    destruct (runSequentially cfg paymentId later w1) as [w2 replies].
    cbn [snd] in *. unfold successes in *. cbn [filter].
    now rewrite Hfail.
Qed.

Lemma runSequentially_counts (cfg : SecurityConfig.t) (paymentId : string)
    (calls : list (Env * option string)) :
  forall w : World,
    (successes (snd (runSequentially cfg paymentId calls w)) <= 1)%nat
    /\ completedRows paymentId (fst (runSequentially cfg paymentId calls w))
       = (completedRows paymentId w
          + successes (snd (runSequentially cfg paymentId calls w)))%nat.
Proof.
  induction calls as [| [env pin] later IH]; intros w.
  - cbn. split; lia.
  - cbn [runSequentially].
    pose proof (verifyPIN_debits_on_success_only cfg env paymentId pin w)
      as Hcall. cbv zeta in Hcall.
    destruct (verifyPINAndCompletePayment cfg env paymentId pin w)
      as [w1 reply].
    cbn [fst snd] in Hcall.
    destruct Hcall as [(Hfail & _ & Hrows)
                      | (Hok & pr & account & r' & _ & _ & _ & _ & _ & Hrows
                         & Hdone & Hst)].
    + destruct (IH w1) as [Hle Hcount].
      destruct (runSequentially cfg paymentId later w1) as [w2 replies].
      cbn [fst snd] in *. unfold successes in *. cbn [filter].
      rewrite Hfail. split; [exact Hle | lia].
    + pose proof (runSequentially_after_completion cfg paymentId later w1 r'
                    Hdone Hst) as Hnone.
      destruct (IH w1) as [_ Hcount].
      destruct (runSequentially cfg paymentId later w1) as [w2 replies].
      cbn [fst snd] in *. unfold successes in *. cbn [filter].
      rewrite Hok. cbn [List.length]. rewrite Hnone in *. split; lia.
Qed.

(** C1: when the verify-PIN submissions for one
    paymentRequestId are handled one after the other, each to its reply, a
    successful PIN verification and its debit happen at most once. A
    single call either fails, changing no balance and recording no completed
    payment, or succeeds, in which case the request was in PROCESSING, the
    resolved account is debited once by the amount, one completed row is
    recorded and the request is left COMPLETED. In every such sequence of
    calls at most one succeeds, and the completed rows of the request grow
    by exactly the number of successes. *)
Theorem C1_one_debit_when_sequential (cfg : SecurityConfig.t)
    (paymentId : string) :
  (forall (env : Env) (pin : option string) (w : World),
      let result := verifyPINAndCompletePayment cfg env paymentId pin w in
      (success (snd result) = false
       /\ accounts (fst result) = accounts w
       /\ completedRows paymentId (fst result) = completedRows paymentId w)
      \/ (success (snd result) = true
          /\ exists paymentRequest account completedRequest,
               getPaymentRequestById w paymentId = Some paymentRequest
               /\ Request.status paymentRequest = Processing
               /\ credentialCheck env w paymentRequest = Resolved account
               /\ Request.amount paymentRequest <= Account.balance account
               /\ accounts (fst result)
                  = accounts
                      (fst (updateAccountBalance env (Account.id account)
                              (Account.balance account
                               - Request.amount paymentRequest)
                              ("Payment via PIN verification - Payment ID: "
                               ++ paymentId)%string w))
               /\ completedRows paymentId (fst result)
                  = S (completedRows paymentId w)
               /\ getPaymentRequestById (fst result) paymentId
                  = Some completedRequest
               /\ Request.status completedRequest = Completed))
  /\ (forall (calls : list (Env * option string)) (w : World),
         (successes (snd (runSequentially cfg paymentId calls w)) <= 1)%nat
         /\ completedRows paymentId
              (fst (runSequentially cfg paymentId calls w))
            = (completedRows paymentId w
               + successes (snd (runSequentially cfg paymentId calls w)))%nat).
Proof.
  split.
  - intros env pin w. apply verifyPIN_debits_on_success_only.
  - intros calls w. apply runSequentially_counts.
Qed.

(** A submission scheduled alone, both steps under one environment, is the
    handler. *)
Lemma runSchedule_alone (cfg : SecurityConfig.t) (env : Env)
    (paymentId : string) (pin : option string) (w : World) :
  let s := mkSubmission env env paymentId pin in
  let result := verifyPINAndCompletePayment cfg env paymentId pin w in
  runSchedule cfg [O; O] [(s, NotStarted)] w
  = (fst result, [(s, Replied (snd result))]).
Proof.
  cbv zeta. unfold verifyPINAndCompletePayment.
  cbn [runSchedule stepAt step sub_begin sub_resume sub_paymentId sub_pin].
  unfold handle, bind.
  destruct (verifyPIN_begin env paymentId pin w) as [w1 [[r | pr prid p] | e]].
  - reflexivity.
  - cbn [ret step stepAt sub_resume sub_paymentId].
    unfold handle, bind.
    destruct (verifyPIN_resume cfg env paymentId pr prid p w1)
      as [w2 [r | e]]; [reflexivity |].
    now destruct (verifyPIN_catch env paymentId e w2).
  - now destruct (verifyPIN_catch env paymentId e w1).
Qed.

End Lifecycle.

Lemma C2_terminal_witness :
  let w := Sample.world Completed 5000 [] in
  List.map Request.status
    (paymentRequests
       (fst (PaymentController.verifyPINAndCompletePayment Sample.policy
               (Sample.envAt 2000 "pay_a"
                  (Some (Sample.proofFor "Alice Example" "1111")))
               "pay_1" (Some "482913") w)))
  = [Completed]
  /\ fst (PaymentController.processPayment
            (Sample.envAt 2000 "pay_a"
               (Some (Sample.proofFor "Alice Example" "1111"))) "pay_1" w)
     = w.
Proof.
  destruct (C2_terminal_requests_are_kept Sample.policy
              (Sample.envAt 2000 "pay_a"
                 (Some (Sample.proofFor "Alice Example" "1111")))
              "pay_1" (Some "482913") (Sample.world Completed 5000 []) O
              (Sample.request Completed 5000) eq_refl eq_refl)
    as (_ & _ & _ & _ & Haimed).
  destruct (Haimed eq_refl) as [Hprocess Hverify].
  cbv zeta. rewrite Hprocess, (Hverify "482913" eq_refl eq_refl).
  split; reflexivity.
Defined.

(** C2, as stated, fails below the controller and between overlapping
    calls. [updatePaymentRequestStatus] checks the new status name only: it
    moves a COMPLETED request back to PENDING. And of two overlapping
    verify-PIN submissions on an account that can pay once, the first
    completes the request and the second then marks the COMPLETED request
    FAILED. *)
Lemma C2_status_overwritten_counterexample :
  let w := Sample.world Completed 5000 [] in
  List.map Request.status
    (paymentRequests
       (fst (PaymentService.updatePaymentRequestStatus
               (Sample.envAt 2000 "pay_a" None) "pay_1" Pending
               PaymentService.noAdditionalData w)))
  = [Pending]
  /\ List.map Request.status
       (paymentRequests
          (fst (PaymentController.runSchedule Sample.policy [0; 1; 0]%nat
                  [(Sample.bobFirst, PaymentController.NotStarted);
                   (Sample.bobSecond, PaymentController.NotStarted)]
                  (Sample.world Processing 5000 []))))
     = [Completed]
  /\ List.map Request.status
       (paymentRequests
          (fst (PaymentController.runSchedule Sample.policy [0; 1; 0; 1]%nat
                  [(Sample.bobFirst, PaymentController.NotStarted);
                   (Sample.bobSecond, PaymentController.NotStarted)]
                  (Sample.world Processing 5000 []))))
     = [Failed].
Proof. vm_compute. repeat split. Qed.

(** C1, as stated, fails for overlapping submissions: both observe
    PROCESSING before either resumes, both are carried through, the account
    is debited twice for one request and two completed rows are recorded. *)
Lemma C1_overlapping_submissions_counterexample :
  let w := Sample.world Processing 5000 [] in
  let final :=
    PaymentController.runSchedule Sample.policy [0; 1; 0; 1]%nat
      [(Sample.firstSubmission, PaymentController.NotStarted);
       (Sample.secondSubmission, PaymentController.NotStarted)] w in
  List.map Account.balance (accounts w) = [10000; 4000]
  /\ List.map Request.amount (paymentRequests w) = [2500]
  /\ List.map Account.balance (accounts (fst final)) = [5000; 4000]
  /\ completedRows "pay_1" (fst final) = 2%nat
  /\ List.map
       (fun t => match snd t with
                 | PaymentController.Replied r => success r
                 | _ => false
                 end) (snd final)
     = [true; true].
Proof. vm_compute. repeat split. Qed.

(* ===================================================================== *)
(** * Part III: the rest of the pipeline                                  *)
(* ===================================================================== *)

(** Relations that every step of a handler keeps are kept by the
    handler. *)
Section Keeping.
Import PaymentService AccountService PaymentController.

Variable R : World -> World -> Prop.
Hypothesis R_refl : forall w, R w w.
Hypothesis R_trans : forall w1 w2 w3, R w1 w2 -> R w2 w3 -> R w1 w3.

Lemma keeps_ret {A : Type} (a : A) : keeps R (ret a).
Proof. intros w. apply R_refl. Qed.

Lemma keeps_throw {A : Type} (e : string) : keeps R (@throw A e).
Proof. intros w. apply R_refl. Qed.

Lemma keeps_get : keeps R get.
Proof. intros w. apply R_refl. Qed.

Lemma keeps_bind {A B : Type} (m : M A) (k : A -> M B) :
  keeps R m -> (forall a, keeps R (k a)) -> keeps R (bind m k).
Proof.
  intros Hm Hk w. unfold bind. specialize (Hm w).
  destruct (m w) as [w1 [a | e]]; cbn [fst] in *; [| exact Hm].
  eapply R_trans; [exact Hm | apply Hk].
Qed.

Lemma keeps_try_catch {A : Type} (m : M A) (h : string -> M A) :
  keeps R m -> (forall e, keeps R (h e)) -> keeps R (try_catch m h).
Proof.
  intros Hm Hh w. unfold try_catch. specialize (Hm w).
  destruct (m w) as [w1 [a | e]]; cbn [fst] in *; [exact Hm |].
  eapply R_trans; [exact Hm | apply Hh].
Qed.

Lemma keeps_handle {A : Type} (m : M A) (h : string -> World -> World * A) :
  keeps R m -> (forall e w, R w (fst (h e w))) ->
  forall w, R w (fst (handle m h w)).
Proof.
  intros Hm Hh w. unfold handle. specialize (Hm w).
  destruct (m w) as [w1 [a | e]]; cbn [fst] in *; [exact Hm |].
  eapply R_trans; [exact Hm | apply Hh].
Qed.

Hypothesis R_record : forall env data, keeps R (recordPaymentAttempt env data).
Hypothesis R_update :
  forall env paymentId st ad,
    keeps R (updatePaymentRequestStatus env paymentId st ad).

Ltac keeps_step :=
  lazymatch goal with
  | |- keeps _ (bind _ _) => apply keeps_bind; [| intro]
  | |- keeps _ (ret _) => apply keeps_ret
  | |- keeps _ (throw _) => apply keeps_throw
  | |- keeps _ get => apply keeps_get
  | |- keeps _ (try_catch _ _) => apply keeps_try_catch; [| intro]
  | |- keeps _ (recordPaymentAttempt _ _) => apply R_record
  | |- keeps _ (updatePaymentRequestStatus _ _ _ _) => apply R_update
  | |- keeps _ (if ?b then _ else _) => destruct b
  | |- keeps _ (match ?x with _ => _ end) => destruct x
  end.

Lemma getPaymentStatus_keeps (env : Env) (paymentId : string) (w : World) :
  R w (fst (getPaymentStatus env paymentId w)).
Proof.
  unfold getPaymentStatus. apply keeps_handle.
  - repeat keeps_step.
  - intros e w0. apply R_refl.
Qed.

Lemma processPayment_keeps (env : Env) (paymentId : string) (w : World) :
  R w (fst (processPayment env paymentId w)).
Proof.
  unfold processPayment. apply keeps_handle.
  - repeat keeps_step.
  - intros e w0. apply R_refl.
Qed.

Hypothesis R_emit : forall e, keeps R (emit e).
Hypothesis R_balance :
  forall env accountId newBalance description,
    keeps R (updateAccountBalance env accountId newBalance description).

Ltac keeps_step' :=
  lazymatch goal with
  | |- keeps _ (emit _) => apply R_emit
  | |- keeps _ (updateAccountBalance _ _ _ _) => apply R_balance
  | |- keeps _ (let _ := _ in _) => cbv zeta
  | _ => keeps_step
  end.

Lemma verifyPIN_keeps (cfg : SecurityConfig.t) (env : Env)
    (paymentId : string) (pin : option string) (w : World) :
  R w (fst (verifyPINAndCompletePayment cfg env paymentId pin w)).
Proof.
  unfold verifyPINAndCompletePayment. apply keeps_handle.
  - unfold verifyPIN_begin, verifyPIN_resume, resolveAccount, onInvalidPin,
      completePayment.
    repeat keeps_step'.
  - intros e w0. unfold verifyPIN_catch. cbn [fst]. apply R_update.
Qed.

End Keeping.

Section PipelineInvariants.
Import PaymentService AccountService PaymentController.

Lemma Forall2_diag {A : Type} (P : A -> A -> Prop) (l : list A) :
  (forall a, P a a) -> Forall2 P l l.
Proof. intros HP. induction l; constructor; auto. Qed.

Lemma Forall2_chain {A : Type} (P : A -> A -> Prop) :
  (forall a b c, P a b -> P b c -> P a c) ->
  forall l1 l2 l3, Forall2 P l1 l2 -> Forall2 P l2 l3 -> Forall2 P l1 l3.
Proof.
  intros HP l1 l2 l3 H12. revert l3.
  induction H12 as [| a b l1 l2 Hab _ IH]; intros l3 H23;
    inversion H23; subst; constructor; eauto.
Qed.

Lemma Forall2_set_nth {A : Type} (P : A -> A -> Prop) (l : list A) (i : nat)
    (x y : A) :
  (forall a, P a a) -> nth_error l i = Some x -> P x y ->
  Forall2 P l (set_nth i y l).
Proof.
  intros HP. revert i. induction l as [| z rest IH]; intros [| i] Hnth Hxy;
    cbn in *; try discriminate.
  - injection Hnth as ->. constructor; [exact Hxy | now apply Forall2_diag].
  - constructor; [apply HP | now apply IH].
Qed.

Lemma sameRequest_refl (r : Request.t) : sameRequest r r.
Proof. now repeat split. Qed.

Lemma sameRequest_trans (a b c : Request.t) :
  sameRequest a b -> sameRequest b c -> sameRequest a c.
Proof. unfold sameRequest. intuition congruence. Qed.

Lemma sameAccount_refl (a : Account.t) : sameAccount a a.
Proof. now repeat split. Qed.

Lemma sameAccount_trans (a b c : Account.t) :
  sameAccount a b -> sameAccount b c -> sameAccount a c.
Proof. unfold sameAccount. intuition congruence. Qed.

Lemma pipelineStep_refl (w : World) : pipelineStep w w.
Proof.
  repeat split.
  - exists []. now rewrite app_nil_r.
  - apply Forall2_diag, sameRequest_refl.
  - apply Forall2_diag, sameAccount_refl.
  - exists []. now rewrite app_nil_r.
Qed.

Lemma pipelineStep_trans (w1 w2 w3 : World) :
  pipelineStep w1 w2 -> pipelineStep w2 w3 -> pipelineStep w1 w3.
Proof.
  intros ([a1 Ha1] & Hr1 & Hc1 & [s1 Hs1]) ([a2 Ha2] & Hr2 & Hc2 & [s2 Hs2]).
  repeat split.
  - exists (a1 ++ a2). now rewrite Ha2, Ha1, app_assoc.
  - eapply Forall2_chain; eauto using sameRequest_trans.
  - eapply Forall2_chain; eauto using sameAccount_trans.
  - exists (s1 ++ s2). now rewrite Hs2, Hs1, app_assoc.
Qed.

Lemma pipelineStep_record (env : Env) (data : PaymentData) :
  keeps pipelineStep (recordPaymentAttempt env data).
Proof.
  intros w. unfold recordPaymentAttempt.
  destruct (negb (truthy (d_paymentRequestId data)));
    [apply pipelineStep_refl |].
  cbn [fst]. repeat split; cbn [payments paymentRequests accounts outbox
                                with_payments getAllPayments].
  - eexists. reflexivity.
  - apply Forall2_diag, sameRequest_refl.
  - apply Forall2_diag, sameAccount_refl.
  - exists []. now rewrite app_nil_r.
Qed.

Lemma pipelineStep_update (env : Env) (paymentId : string)
    (st : RequestStatus) (ad : AdditionalData) :
  keeps pipelineStep (updatePaymentRequestStatus env paymentId st ad).
Proof.
  intros w. unfold updatePaymentRequestStatus, getAllPaymentRequests.
  destruct (findIndex _ (paymentRequests w)) as [[i r] |] eqn:Hi;
    [| apply pipelineStep_refl].
  destruct (findIndex_nth _ _ _ _ Hi) as [Hnth _].
  cbn [fst]. repeat split; cbn [payments paymentRequests accounts outbox
                                with_paymentRequests].
  - exists []. now rewrite app_nil_r.
  - eapply Forall2_set_nth; [apply sameRequest_refl | exact Hnth |].
    now repeat split.
  - apply Forall2_diag, sameAccount_refl.
  - exists []. now rewrite app_nil_r.
Qed.

Lemma pipelineStep_emit (e : Effect) : keeps pipelineStep (emit e).
Proof.
  intros w. unfold emit. cbn [fst].
  repeat split; cbn [payments paymentRequests accounts outbox].
  - exists []. now rewrite app_nil_r.
  - apply Forall2_diag, sameRequest_refl.
  - apply Forall2_diag, sameAccount_refl.
  - eexists. reflexivity.
Qed.

Lemma pipelineStep_balance (env : Env) (accountId : string) (newBalance : Z)
    (description : string) :
  keeps pipelineStep
    (updateAccountBalance env accountId newBalance description).
Proof.
  intros w. unfold updateAccountBalance, getAllAccounts.
  destruct (findIndex _ (accounts w)) as [[j a] |] eqn:Hj;
    [| apply pipelineStep_refl].
  destruct (findIndex_nth _ _ _ _ Hj) as [Hnth _].
  cbn [fst]. repeat split; cbn [payments paymentRequests accounts outbox
                                with_accounts].
  - exists []. now rewrite app_nil_r.
  - apply Forall2_diag, sameRequest_refl.
  - eapply Forall2_set_nth; [apply sameAccount_refl | exact Hnth |].
    now repeat split.
  - exists []. now rewrite app_nil_r.
Qed.

(** X1: poll-status, process and verify-PIN, on any input and in any
    state, only append to the attempt ledger (no row is changed, dropped or
    reordered) and only append to what is sent; every payment request stays
    in its slot with its id, amount, description, merchant, creation and
    expiry time, and every account stays in its slot with its id, holder,
    e-mail, PAN, PIN and credential id. *)
Theorem X1_handlers_append_and_keep_identity (cfg : SecurityConfig.t)
    (env : Env) (paymentId : string) (pin : option string) (w : World) :
  pipelineStep w (fst (getPaymentStatus env paymentId w))
  /\ pipelineStep w (fst (processPayment env paymentId w))
  /\ pipelineStep w
       (fst (verifyPINAndCompletePayment cfg env paymentId pin w)).
Proof.
  split; [| split].
  - apply (getPaymentStatus_keeps pipelineStep pipelineStep_refl
             pipelineStep_trans pipelineStep_record pipelineStep_update).
  - apply (processPayment_keeps pipelineStep pipelineStep_refl
             pipelineStep_trans pipelineStep_record pipelineStep_update).
  - apply (verifyPIN_keeps pipelineStep pipelineStep_refl pipelineStep_trans
             pipelineStep_record pipelineStep_update pipelineStep_emit
             pipelineStep_balance).
Qed.

Lemma quietStep_record (env : Env) (data : PaymentData) :
  keeps quietStep (recordPaymentAttempt env data).
Proof.
  intros w. unfold recordPaymentAttempt.
  destruct (negb (truthy (d_paymentRequestId data))); now split.
Qed.

Lemma quietStep_update (env : Env) (paymentId : string)
    (st : RequestStatus) (ad : AdditionalData) :
  keeps quietStep (updatePaymentRequestStatus env paymentId st ad).
Proof.
  intros w. unfold updatePaymentRequestStatus.
  destruct (findIndex _ _) as [[i r] |]; now split.
Qed.

Lemma quietStep_trans (w1 w2 w3 : World) :
  quietStep w1 w2 -> quietStep w2 w3 -> quietStep w1 w3.
Proof. unfold quietStep. intuition congruence. Qed.

(** X2: poll-status, process and the cleanup handler never change an
    account and never send a notification or a revocation, whatever the
    verifier answers; cleanup leaves the attempt ledger untouched as
    well. *)
Theorem X2_poll_process_cleanup_move_no_money (env : Env)
    (paymentId : string) (w : World) :
  quietStep w (fst (getPaymentStatus env paymentId w))
  /\ quietStep w (fst (processPayment env paymentId w))
  /\ quietStep w (fst (cleanupExpiredPayments env w))
  /\ payments (fst (cleanupExpiredPayments env w)) = payments w.
Proof.
  assert (Hrefl : forall w0, quietStep w0 w0) by (intros; now split).
  split; [| split].
  - apply (getPaymentStatus_keeps quietStep Hrefl quietStep_trans
             quietStep_record quietStep_update).
  - apply (processPayment_keeps quietStep Hrefl quietStep_trans
             quietStep_record quietStep_update).
  - unfold cleanupExpiredPayments, handle, bind, expireOldPaymentRequests,
      cleanupExpiredRequests.
    destruct (0 <? _)%nat; cbn [fst with_paymentRequests paymentRequests
                                getAllPaymentRequests];
      destruct (0 <? _)%nat; now repeat split.
Qed.

End PipelineInvariants.

(** ** services/SecurityConfig.js: triggers and levels *)
Section PolicyDecisions.
Import SecurityConfig.

Lemma new_thresholds_ordered (revokeEnv alertEnv : option Z) :
  let c := fst (new revokeEnv alertEnv) in
  1 <= maxPinFailuresBeforeAlert c <= maxPinFailuresBeforeRevoke c.
Proof.
  cbv zeta. unfold new, validateConfiguration.
  cbn [maxPinFailuresBeforeRevoke maxPinFailuresBeforeAlert].
  destruct (parseInt_or revokeEnv 5 <? 1) eqn:Hr;
  destruct (parseInt_or alertEnv 2 <? 1) eqn:Ha;
    match goal with |- context [?x >=? ?y] => destruct (x >=? y) eqn:Hc end;
    cbn [fst maxPinFailuresBeforeAlert maxPinFailuresBeforeRevoke]; lia.
Qed.

(** X3: after initialization from any supplied values, and for every
    count, revocation is triggered exactly when the reported level is
    CRITICAL, the alert exactly when it is HIGH or CRITICAL, a triggered
    revocation always comes with a triggered alert, and a count of zero is
    LOW and triggers nothing. *)
Theorem X3_triggers_agree_with_levels (revokeEnv alertEnv : option Z)
    (c : Z) :
  let cfg := fst (new revokeEnv alertEnv) in
  (shouldTriggerRevocation cfg c = true <-> getRiskLevel cfg c = CRITICAL)
  /\ (shouldTriggerAlert cfg c = true
      <-> getRiskLevel cfg c = HIGH \/ getRiskLevel cfg c = CRITICAL)
  /\ (shouldTriggerRevocation cfg c = true -> shouldTriggerAlert cfg c = true)
  /\ getRiskLevel cfg 0 = LOW
  /\ shouldTriggerAlert cfg 0 = false
  /\ shouldTriggerRevocation cfg 0 = false.
Proof.
  cbv zeta. pose proof (new_thresholds_ordered revokeEnv alertEnv) as Hord.
  cbv zeta in Hord. set (cfg := fst (new revokeEnv alertEnv)) in *.
  pose proof (Math_ceil_half_least (maxPinFailuresBeforeAlert cfg)) as Hhalf.
  unfold shouldTriggerRevocation, shouldTriggerAlert, getRiskLevel.
  destruct (Z.geb_spec c (maxPinFailuresBeforeRevoke cfg));
  destruct (Z.geb_spec c (maxPinFailuresBeforeAlert cfg));
  destruct (Z.geb_spec c (Math_ceil_half (maxPinFailuresBeforeAlert cfg)));
  destruct (Z.geb_spec 0 (maxPinFailuresBeforeRevoke cfg));
  destruct (Z.geb_spec 0 (maxPinFailuresBeforeAlert cfg));
  destruct (Z.geb_spec 0 (Math_ceil_half (maxPinFailuresBeforeAlert cfg)));
    try lia; repeat split; intros; try discriminate; auto;
    try (match goal with H : _ \/ _ |- _ => destruct H; discriminate end).
Qed.

(** X4: for any thresholds, the reported risk level never goes down when
    the count goes up. *)
Theorem X4_risk_level_is_monotone (cfg : t) (c c' : Z) :
  c <= c' ->
  riskRank (getRiskLevel cfg c) <= riskRank (getRiskLevel cfg c').
Proof.
  intros Hle. unfold getRiskLevel.
  destruct (Z.geb_spec c (maxPinFailuresBeforeRevoke cfg));
  destruct (Z.geb_spec c (maxPinFailuresBeforeAlert cfg));
  destruct (Z.geb_spec c (Math_ceil_half (maxPinFailuresBeforeAlert cfg)));
  destruct (Z.geb_spec c' (maxPinFailuresBeforeRevoke cfg));
  destruct (Z.geb_spec c' (maxPinFailuresBeforeAlert cfg));
  destruct (Z.geb_spec c' (Math_ceil_half (maxPinFailuresBeforeAlert cfg)));
    cbn [riskRank]; lia.
Qed.

Lemma X4_risk_level_witness :
  riskRank (getRiskLevel Sample.policy 1)
  <= riskRank (getRiskLevel Sample.policy 4).
Proof. apply (X4_risk_level_is_monotone Sample.policy 1 4). lia. Defined.

(** X5: with an alert threshold of 1 no count is ever reported MEDIUM:
    the MEDIUM band, from half the alert threshold rounded up to just below
    it, is empty. *)
Theorem X5_no_medium_at_alert_one (cfg : t) (c : Z) :
  maxPinFailuresBeforeAlert cfg = 1 ->
  getRiskLevel cfg c <> MEDIUM.
Proof.
  intros Hone. unfold getRiskLevel. rewrite Hone.
  change (Math_ceil_half 1) with 1.
  destruct (c >=? maxPinFailuresBeforeRevoke cfg); [discriminate |].
  destruct (c >=? 1); discriminate.
Qed.

Lemma X5_no_medium_witness :
  getRiskLevel (fst (new (Some 3) (Some 1))) 0 <> MEDIUM.
Proof.
  apply (X5_no_medium_at_alert_one (fst (new (Some 3) (Some 1))) 0).
  reflexivity.
Defined.

End PolicyDecisions.

(** ** services/PaymentService.js: the collection of payment requests *)
Section RequestStore.
Import PaymentService.

Lemma length_zero_empty (s : string) :
  (String.length s =? 0)%nat = true <-> s = "".
Proof.
  destruct s; cbn; split; intros H; try reflexivity; discriminate.
Qed.

Lemma createPaymentRequest_returns (env : Env) (baseUrl : string)
    (data : NewPayment) (w w' : World) (r : Request.t) :
  createPaymentRequest env baseUrl data w = (w', Returned r) ->
  w' = with_paymentRequests w (paymentRequests w ++ [r])
  /\ Request.id r = freshId env.
Proof.
  unfold createPaymentRequest, throw.
  destruct (n_amount data) as [amount |]; [| discriminate].
  destruct (or_null (n_merchantId data)) as [merchantId |]; [| discriminate].
  destruct (amount =? 0); [discriminate |].
  destruct (amount <=? 0); [discriminate |].
  destruct (String.length (trim merchantId) =? 0)%nat; [discriminate |].
  intros [= <- <-]. now split.
Qed.

(** X6: [createPaymentRequest] throws, leaving every collection as it
    was, exactly when the amount is absent or not positive or the merchant
    id is absent or blank. Otherwise it appends one request at the end and
    returns it: PENDING, with the positive amount, the trimmed merchant id,
    created now and expiring thirty minutes (1 800 000 ms) later; nothing
    else changes. *)
Theorem X6_createPaymentRequest_validates (env : Env) (baseUrl : string)
    (data : NewPayment) (w : World) :
  let acceptable :=
    exists amount merchantId,
      n_amount data = Some amount /\ 0 < amount
      /\ n_merchantId data = Some merchantId /\ trim merchantId <> "" in
  match createPaymentRequest env baseUrl data w with
  | (w', Thrown _) => w' = w /\ ~ acceptable
  | (w', Returned r) =>
      acceptable
      /\ w' = with_paymentRequests w (paymentRequests w ++ [r])
      /\ Request.id r = freshId env
      /\ Request.status r = Pending
      /\ Some (Request.amount r) = n_amount data
      /\ 0 < Request.amount r
      /\ option_map trim (n_merchantId data) = Some (Request.merchantId r)
      /\ Request.createdAt r = now env
      /\ Request.expiresAt r = Request.createdAt r + 1800000
      /\ Request.proofRequestId r = None
  end.
Proof.
  cbv zeta. unfold createPaymentRequest, throw.
  destruct (n_amount data) as [amount |] eqn:Ha.
  2: { split; [reflexivity |]. intros (a & m & E & _). discriminate. }
  destruct (n_merchantId data) as [merchantId |] eqn:Hm; cbn [or_null].
  2: { split; [reflexivity |]. intros (a & m & _ & _ & E & _). discriminate. }
  destruct (truthy merchantId) eqn:Ht.
  2: { split; [reflexivity |]. intros (a & m & _ & _ & [= <-] & Hne).
       apply Hne. unfold truthy in Ht. apply negb_false_iff in Ht.
       apply String.eqb_eq in Ht. now subst. }
  destruct (Z.eqb_spec amount 0) as [-> | Hnz].
  { split; [reflexivity |]. intros (a & m & [= <-] & Hpos & _). lia. }
  destruct (Z.leb_spec amount 0) as [Hle | Hpos].
  { split; [reflexivity |]. intros (a & m & [= <-] & Hp & _). lia. }
  destruct (String.length (trim merchantId) =? 0)%nat eqn:Hblank.
  { split; [reflexivity |]. intros (a & m & _ & _ & [= <-] & Hne).
    apply Hne. now apply length_zero_empty. }
  cbn [Request.id Request.status Request.amount Request.merchantId
       Request.createdAt Request.expiresAt Request.proofRequestId option_map].
  repeat split; try assumption.
  exists amount, merchantId. repeat split; try assumption.
  intros E. rewrite E in Hblank. discriminate.
Qed.

Lemma find_app_first {A : Type} (q : A -> bool) (l l' : list A) (x : A) :
  find q l = Some x -> find q (l ++ l') = Some x.
Proof.
  induction l as [| y rest IH]; cbn; [discriminate |].
  destruct (q y); auto.
Qed.

Lemma find_app_none {A : Type} (q : A -> bool) (l l' : list A) :
  find q l = None -> find q (l ++ l') = find q l'.
Proof.
  induction l as [| y rest IH]; cbn; [reflexivity |].
  destruct (q y); [discriminate | auto].
Qed.

(** X7: after a successful [createPaymentRequest], every id that was
    found before is found as before, and the new request is found under its
    id provided no earlier request carried that id (an earlier one would
    shadow it). *)
Theorem X7_created_request_is_found (env : Env) (baseUrl : string)
    (data : NewPayment) (w w' : World) (r : Request.t) :
  createPaymentRequest env baseUrl data w = (w', Returned r) ->
  (forall paymentId x,
      getPaymentRequestById w paymentId = Some x ->
      getPaymentRequestById w' paymentId = Some x)
  /\ (getPaymentRequestById w (freshId env) = None ->
      getPaymentRequestById w' (freshId env) = Some r).
Proof.
  intros Hrun.
  destruct (createPaymentRequest_returns _ _ _ _ _ _ Hrun) as (-> & Hid).
  unfold getPaymentRequestById, getAllPaymentRequests.
  cbn [with_paymentRequests paymentRequests]. split.
  - intros paymentId x. apply find_app_first.
  - intros Hnone. rewrite find_app_none by exact Hnone.
    cbn [find]. now rewrite Hid, String.eqb_refl.
Qed.

Lemma X7_created_request_witness :
  let env := Sample.envAt 2000 "pay_2" None in
  let data := mkNewPayment (Some 5000) None (Some " m1 ") in
  let w := Sample.world Processing 5000 [] in
  option_map Request.merchantId
    (getPaymentRequestById
       (fst (createPaymentRequest env "http://localhost:3000" data w)) "pay_2")
  = Some "m1"
  /\ getPaymentRequestById
       (fst (createPaymentRequest env "http://localhost:3000" data w)) "pay_1"
     = Some (Sample.request Processing 5000).
Proof.
  cbv zeta.
  destruct (X7_created_request_is_found (Sample.envAt 2000 "pay_2" None)
              "http://localhost:3000"
              (mkNewPayment (Some 5000) None (Some " m1 "))
              (Sample.world Processing 5000 []) _ _ eq_refl)
    as [Hold Hnew].
  split.
  - exact (f_equal (option_map Request.merchantId) (Hnew eq_refl)).
  - exact (Hold "pay_1" (Sample.request Processing 5000) eq_refl).
Defined.

Lemma length_set_nth {A : Type} (l : list A) (i : nat) (y : A) :
  List.length (set_nth i y l) = List.length l.
Proof.
  revert i. induction l as [| z rest IH]; intros [| i]; cbn; auto.
Qed.

Lemma find_set_nth_other {A : Type} (q : A -> bool) (l : list A) (i : nat)
    (x y : A) :
  nth_error l i = Some x -> q x = false -> q y = false ->
  find q (set_nth i y l) = find q l.
Proof.
  revert i. induction l as [| z rest IH]; intros [| i] Hnth Hx Hy;
    cbn in *; try discriminate.
  - injection Hnth as ->. now rewrite Hx, Hy.
  - destruct (q z); [reflexivity | now apply IH].
Qed.

(** X8: [updatePaymentRequestStatus] on an id that no request carries
    throws "Payment request not found" and changes nothing. On a known id it
    returns the request with the new status and the current time as
    updatedAt, which is then what a lookup of that id finds; the request
    keeps its identity, the collection its length, a lookup of any other id
    its result, and the ledger, accounts and outbox are untouched. *)
Theorem X8_status_update_round_trip (env : Env) (paymentId : string)
    (st : RequestStatus) (ad : AdditionalData) (w : World) :
  let result := updatePaymentRequestStatus env paymentId st ad w in
  (getPaymentRequestById w paymentId = None ->
   result = (w, Thrown "Payment request not found"))
  /\ (forall r,
         getPaymentRequestById w paymentId = Some r ->
         exists r',
           snd result = Returned r'
           /\ getPaymentRequestById (fst result) paymentId = Some r'
           /\ Request.status r' = st
           /\ Request.updatedAt r' = now env
           /\ sameRequest r r'
           /\ List.length (paymentRequests (fst result))
              = List.length (paymentRequests w)
           /\ (forall other,
                  other <> paymentId ->
                  getPaymentRequestById (fst result) other
                  = getPaymentRequestById w other)
           /\ payments (fst result) = payments w
           /\ accounts (fst result) = accounts w
           /\ outbox (fst result) = outbox w).
Proof.
  cbv zeta. split.
  - unfold getPaymentRequestById, updatePaymentRequestStatus.
    rewrite findIndex_find.
    destruct (findIndex _ _) as [[i r] |]; [discriminate | reflexivity].
  - intros r Hfind.
    destruct (updatePaymentRequestStatus_runs env paymentId st ad w r Hfind)
      as (i & Hi & -> & Hget).
    destruct (findIndex_nth _ _ _ _ Hi) as [Hnth Hid].
    eexists. cbn [fst snd]. split; [reflexivity |].
    split; [exact Hget |]. repeat split.
    + cbn [with_paymentRequests paymentRequests]. apply length_set_nth.
    + intros other Hother.
      unfold getPaymentRequestById, getAllPaymentRequests.
      cbn [with_paymentRequests paymentRequests].
      apply String.eqb_eq in Hid.
      eapply find_set_nth_other; [exact Hnth | |];
        cbn [Request.id Object_assign with_status];
        apply String.eqb_neq; congruence.
Qed.

Lemma X8_status_update_witness :
  let result :=
    updatePaymentRequestStatus (Sample.envAt 2000 "pay_a" None) "pay_1"
      Processing noAdditionalData (Sample.world Pending 5000 []) in
  option_map Request.status (getPaymentRequestById (fst result) "pay_1")
  = Some Processing
  /\ updatePaymentRequestStatus (Sample.envAt 2000 "pay_a" None) "pay_404"
       Processing noAdditionalData (Sample.world Pending 5000 [])
     = (Sample.world Pending 5000 [], Thrown "Payment request not found").
Proof.
  cbv zeta. split.
  - destruct (proj2 (X8_status_update_round_trip
                       (Sample.envAt 2000 "pay_a" None) "pay_1" Processing
                       noAdditionalData (Sample.world Pending 5000 []))
                    (Sample.request Pending 5000) eq_refl)
      as (r' & _ & Hget & Hst & _).
    rewrite Hget. cbn [option_map]. now rewrite Hst.
  - apply (proj1 (X8_status_update_round_trip
                    (Sample.envAt 2000 "pay_a" None) "pay_404" Processing
                    noAdditionalData (Sample.world Pending 5000 []))).
    reflexivity.
Defined.

Lemma expire_requests (env : Env) (w : World) :
  paymentRequests (fst (expireOldPaymentRequests env w))
  = map (expireIfStale env) (paymentRequests w)
  /\ payments (fst (expireOldPaymentRequests env w)) = payments w
  /\ accounts (fst (expireOldPaymentRequests env w)) = accounts w
  /\ snd (expireOldPaymentRequests env w)
     = Returned (List.length (filter (stale env) (paymentRequests w))).
Proof.
  unfold expireOldPaymentRequests, getAllPaymentRequests.
  destruct (0 <? _)%nat eqn:Hcount; cbn [fst snd]; repeat split.
  apply Nat.ltb_ge in Hcount.
  assert (Hnone : filter (stale env) (paymentRequests w) = [])
    by (destruct (filter _ _); [reflexivity | cbn in Hcount; lia]).
  clear Hcount. induction (paymentRequests w) as [| r rest IH];
    [reflexivity |].
  cbn [filter map] in *. unfold expireIfStale at 1.
  destruct (stale env r); [discriminate |]. now rewrite <- IH.
Qed.

Lemma expireIfStale_fresh (env : Env) (r : Request.t) :
  stale env (expireIfStale env r) = false.
Proof.
  unfold expireIfStale. destruct (stale env r) eqn:Hs; [reflexivity | exact Hs].
Qed.

Lemma none_stale_after_sweep (env : Env) (l : list Request.t) :
  filter (stale env) (map (expireIfStale env) l) = [].
Proof.
  induction l as [| r rest IH]; [reflexivity |].
  cbn [map filter]. now rewrite expireIfStale_fresh.
Qed.

Lemma active_after_sweep (env : Env) (l : list Request.t) :
  filter (fun req => RequestStatus_eqb (Request.status req) Pending
                     && (now env <? Request.expiresAt req))
         (map (expireIfStale env) l)
  = filter (fun req => RequestStatus_eqb (Request.status req) Pending
                       && (now env <? Request.expiresAt req)) l.
Proof.
  induction l as [| r rest IH]; [reflexivity |].
  cbn [map filter]. rewrite IH. unfold expireIfStale, stale.
  destruct (RequestStatus_eqb (Request.status r) Pending) eqn:Hst;
    cbn [andb]; [| now rewrite Hst].
  destruct (Z.leb_spec (Request.expiresAt r) (now env)) as [Hle | Hgt].
  - cbn [with_status Request.status RequestStatus_eqb andb].
    destruct (Z.ltb_spec (now env) (Request.expiresAt r)); [lia |].
    reflexivity.
  - now rewrite Hst.
Qed.

(** X9: the expiry sweep returns the number of PENDING requests whose
    expiresAt is not after the clock and turns exactly those EXPIRED,
    stamping them with the clock; afterwards no such request is left, so a
    second sweep at the same instant returns 0 and changes nothing; the
    active requests (PENDING and not yet expired) are the same before and
    after, and the ledger and the accounts are not touched. *)
Theorem X9_expiry_sweep (env : Env) (w : World) :
  let result := expireOldPaymentRequests env w in
  snd result
  = Returned (List.length (filter (stale env) (paymentRequests w)))
  /\ paymentRequests (fst result)
     = map (expireIfStale env) (paymentRequests w)
  /\ filter (stale env) (paymentRequests (fst result)) = []
  /\ expireOldPaymentRequests env (fst result)
     = (fst result, Returned O)
  /\ getActivePaymentRequests env (fst result)
     = getActivePaymentRequests env w
  /\ payments (fst result) = payments w
  /\ accounts (fst result) = accounts w.
Proof.
  cbv zeta.
  destruct (expire_requests env w) as (Hreqs & Hpay & Hacc & Hcount).
  assert (Hclean : filter (stale env)
                     (paymentRequests (fst (expireOldPaymentRequests env w)))
                   = [])
    by (rewrite Hreqs; apply none_stale_after_sweep).
  repeat split; try assumption.
  - unfold expireOldPaymentRequests at 1. unfold getAllPaymentRequests.
    now rewrite Hclean.
  - unfold getActivePaymentRequests, getAllPaymentRequests. rewrite Hreqs.
    apply active_after_sweep.
Qed.

Lemma filter_all_kept {A : Type} (f : A -> bool) (l : list A) :
  List.length (filter f l) = List.length l -> filter f l = l.
Proof.
  induction l as [| x rest IH]; [reflexivity |]. cbn [filter].
  pose proof (filter_length_le f rest) as Hle.
  destruct (f x); cbn [List.length]; intros E.
  - f_equal. apply IH. lia.
  - lia.
Qed.

Lemma filter_twice {A : Type} (f : A -> bool) (l : list A) :
  filter f (filter f l) = filter f l.
Proof.
  induction l as [| x rest IH]; [reflexivity |]. cbn [filter].
  destruct (f x) eqn:Hx; [cbn [filter]; rewrite Hx; now f_equal | exact IH].
Qed.

Lemma cleanup_requests (env : Env) (olderThanHours : Z) (w : World) :
  paymentRequests (fst (cleanupExpiredRequests env olderThanHours w))
  = filter (retained env olderThanHours) (paymentRequests w)
  /\ payments (fst (cleanupExpiredRequests env olderThanHours w))
     = payments w
  /\ accounts (fst (cleanupExpiredRequests env olderThanHours w))
     = accounts w
  /\ snd (cleanupExpiredRequests env olderThanHours w)
     = Returned (List.length (paymentRequests w)
                 - List.length (filter (retained env olderThanHours)
                                       (paymentRequests w)))%nat.
Proof.
  unfold cleanupExpiredRequests, getAllPaymentRequests.
  change (fun req : Request.t =>
            if RequestStatus_eqb (Request.status req) Pending
            then now env <? Request.expiresAt req
            else now env - olderThanHours * 60 * 60 * 1000
                 <? Request.updatedAt req)
    with (retained env olderThanHours).
  destruct (0 <? _)%nat eqn:Hcount; cbn [fst snd]; repeat split.
  apply Nat.ltb_ge in Hcount. symmetry. apply filter_all_kept.
  pose proof (filter_length_le (retained env olderThanHours)
                (paymentRequests w)). lia.
Qed.

(** X10: the purge keeps exactly the requests that are PENDING and not
    yet expired, or not PENDING and updated after the cutoff (the clock
    minus the given number of hours), in their order; it returns how many
    it removed; purging again at the same instant removes nothing; the
    ledger and the accounts are not touched. *)
Theorem X10_purge_retains (env : Env) (olderThanHours : Z) (w : World) :
  let result := cleanupExpiredRequests env olderThanHours w in
  paymentRequests (fst result)
  = filter (retained env olderThanHours) (paymentRequests w)
  /\ (forall r,
         In r (paymentRequests (fst result))
         <-> In r (paymentRequests w)
             /\ if RequestStatus_eqb (Request.status r) Pending
                then now env < Request.expiresAt r
                else now env - olderThanHours * 3600000 < Request.updatedAt r)
  /\ snd result
     = Returned (List.length (paymentRequests w)
                 - List.length (paymentRequests (fst result)))%nat
  /\ cleanupExpiredRequests env olderThanHours (fst result)
     = (fst result, Returned O)
  /\ payments (fst result) = payments w
  /\ accounts (fst result) = accounts w.
Proof.
  cbv zeta.
  destruct (cleanup_requests env olderThanHours w)
    as (Hreqs & Hpay & Hacc & Hcount).
  split; [exact Hreqs |]. split; [| split; [| split; [| now split]]].
  - intros r. rewrite Hreqs, filter_In. unfold retained.
    destruct (RequestStatus_eqb (Request.status r) Pending);
      rewrite Z.ltb_lt; intuition lia.
  - now rewrite Hcount, Hreqs.
  - unfold cleanupExpiredRequests at 1. unfold getAllPaymentRequests.
    change (fun req : Request.t =>
              if RequestStatus_eqb (Request.status req) Pending
              then now env <? Request.expiresAt req
              else now env - olderThanHours * 60 * 60 * 1000
                   <? Request.updatedAt req)
      with (retained env olderThanHours).
    rewrite Hreqs, filter_twice, Nat.sub_diag. reflexivity.
Qed.

End RequestStore.

(** ** The cleanup handler and the hourly task *)
Section Cleanup.
Import PaymentService PaymentController.

Lemma cleanup_sweep_requests (env : Env) (w : World) :
  paymentRequests (fst (cleanupExpiredPayments env w))
  = filter (retained env 24) (map (expireIfStale env) (paymentRequests w))
  /\ exists cleaned,
       snd (cleanupExpiredPayments env w)
       = mkResponse 200 true
           (CleanupDone
              (List.length (filter (stale env) (paymentRequests w)))
              cleaned).
Proof.
  unfold cleanupExpiredPayments, handle, bind, ret.
  destruct (expire_requests env w) as (Hreqs & _ & _ & Hcount).
  destruct (expireOldPaymentRequests env w) as [w1 [n | e]];
    cbn [fst snd] in *; [| discriminate].
  injection Hcount as ->.
  destruct (cleanup_requests env 24 w1) as (Hkept & _ & _ & Hremoved).
  destruct (cleanupExpiredRequests env 24 w1) as [w2 [m | e]];
    cbn [fst snd] in *; [| discriminate].
  rewrite Hkept, Hreqs. split; [reflexivity | now eexists].
Qed.

(** X11: the cleanup handler (and the hourly task, which makes the same
    two calls) first expires, then purges with a 24-hour window. A request
    that was PENDING and past its expiry is still there afterwards, now
    EXPIRED and stamped with the clock; a PENDING request that has not
    expired is kept as it is; no PENDING request past its expiry remains;
    and any request that is not PENDING and was last updated 24 hours ago
    or earlier is gone, a request in PROCESSING included. The reply reports
    the number of requests expired. *)
Theorem X11_cleanup_expires_then_purges (env : Env) (w : World) :
  let result := cleanupExpiredPayments env w in
  (forall r, In r (paymentRequests w) -> stale env r = true ->
             In (with_status r Expired (now env))
                (paymentRequests (fst result)))
  /\ (forall r, In r (paymentRequests w) ->
                Request.status r = Pending ->
                now env < Request.expiresAt r ->
                In r (paymentRequests (fst result)))
  /\ (forall r, In r (paymentRequests (fst result)) -> stale env r = false)
  /\ (forall r, In r (paymentRequests w) ->
                Request.status r <> Pending ->
                Request.updatedAt r <= now env - 86400000 ->
                ~ In r (paymentRequests (fst result)))
  /\ exists cleaned,
       snd result
       = mkResponse 200 true
           (CleanupDone
              (List.length (filter (stale env) (paymentRequests w)))
              cleaned).
Proof.
  cbv zeta. destruct (cleanup_sweep_requests env w) as [Hreqs Hreply].
  rewrite Hreqs. repeat split; try exact Hreply.
  - intros r Hin Hstale. apply filter_In. split.
    + apply in_map_iff. exists r. split; [| exact Hin].
      unfold expireIfStale. now rewrite Hstale.
    + unfold retained. cbn [with_status Request.status Request.updatedAt
                            RequestStatus_eqb].
      apply Z.ltb_lt. lia.
  - intros r Hin Hst Hlive. apply filter_In. split.
    + apply in_map_iff. exists r. split; [| exact Hin].
      unfold expireIfStale, stale. rewrite Hst. cbn [RequestStatus_eqb andb].
      destruct (Z.leb_spec (Request.expiresAt r) (now env)); [lia |].
      reflexivity.
    + unfold retained. rewrite Hst. cbn [RequestStatus_eqb].
      now apply Z.ltb_lt.
  - intros r Hin. apply filter_In in Hin. destruct Hin as [Hin _].
    apply in_map_iff in Hin. destruct Hin as (x & <- & _).
    apply expireIfStale_fresh.
  - intros r _ Hst Hold Hin. apply filter_In in Hin.
    destruct Hin as [_ Hkeep]. unfold retained in Hkeep.
    destruct (RequestStatus_eqb (Request.status r) Pending) eqn:Hp.
    + destruct (Request.status r); try discriminate. now apply Hst.
    + apply Z.ltb_lt in Hkeep. lia.
Qed.

Lemma X11_cleanup_witness :
  let env := Sample.envAt 259200000 "pay_a" None in
  let w := mkWorld [Sample.oldRequest; Sample.request Pending 5000] [] [] [] in
  paymentRequests (fst (cleanupExpiredPayments env w))
  = [with_status (Sample.request Pending 5000) Expired 259200000]
  /\ ~ In Sample.oldRequest
         (paymentRequests (fst (cleanupExpiredPayments env w))).
Proof.
  cbv zeta. split; [reflexivity |].
  apply (proj1 (proj2 (proj2 (proj2
           (X11_cleanup_expires_then_purges
              (Sample.envAt 259200000 "pay_a" None)
              (mkWorld [Sample.oldRequest; Sample.request Pending 5000]
                       [] [] [])))))).
  - left. reflexivity.
  - discriminate.
  - cbn. lia.
Defined.

End Cleanup.

(** ** Reports *)
Section Reports.
Import PaymentService PaymentController.

Lemma length_by_request_status (l : list Request.t) :
  List.length l
  = (countRequests Pending l + countRequests Processing l
     + countRequests Completed l + countRequests Failed l
     + countRequests Expired l + countRequests Cancelled l)%nat.
Proof.
  unfold countRequests. induction l as [| r rest IH]; [reflexivity |].
  cbn [List.length filter].
  destruct (Request.status r); cbn [RequestStatus_eqb List.length]; lia.
Qed.

Lemma length_by_attempt_status (l : list Attempt.t) :
  List.length l
  = (countAttempts completed l + countAttempts failed_pin l
     + countAttempts failed_expired l
     + countAttempts failed_insufficient_funds l
     + countAttempts failed_invalid_credential l
     + countAttempts failed_invalid_state l)%nat.
Proof.
  unfold countAttempts, hasStatus. induction l as [| a rest IH];
    [reflexivity |].
  cbn [List.length filter].
  destruct (Attempt.status a); cbn [AttemptStatus_eqb List.length]; lia.
Qed.

(** X12: in [getPaymentStatistics] the five reported request counts add
    up to the total minus the requests in PROCESSING, which are reported in
    no bucket; the successful count and the four reported failure counts add
    up to the total minus the failed_invalid_state attempts, which are
    reported in no bucket; and the average is the zero of an empty
    collection exactly when no attempt was successful. *)
Theorem X12_statistics_buckets (w : World) :
  let requests := fst (getPaymentStatistics w) in
  let attempts := snd (getPaymentStatistics w) in
  rc_total requests
  = (rc_pending requests + rc_completed requests + rc_failed requests
     + rc_expired requests + rc_cancelled requests
     + countRequests Processing (paymentRequests w))%nat
  /\ ac_total attempts
     = (ac_successful attempts + ac_failed_pin attempts
        + ac_failed_expired attempts + ac_failed_insufficient_funds attempts
        + ac_failed_invalid_credential attempts
        + countAttempts failed_invalid_state (payments w))%nat
  /\ (ac_averageAmount attempts = NoPayments <-> ac_successful attempts = O)
  /\ ac_averageAmount attempts
     = (if (0 <? ac_successful attempts)%nat
        then Ratio (ac_totalAmount attempts) (ac_successful attempts)
        else NoPayments).
Proof.
  cbv zeta. unfold getPaymentStatistics, getAllPaymentRequests,
    PaymentService.getAllPayments, getSuccessfulPayments.
  cbn [fst snd rc_total rc_pending rc_completed rc_failed rc_expired
       rc_cancelled ac_total ac_successful ac_failed_pin ac_failed_expired
       ac_failed_insufficient_funds ac_failed_invalid_credential
       ac_averageAmount ac_totalAmount].
  pose proof (length_by_request_status (paymentRequests w)) as Hreq.
  pose proof (length_by_attempt_status (payments w)) as Hatt.
  unfold countAttempts, hasStatus, PaymentService.getAllPayments in *.
  split; [lia |]. split; [lia |].
  unfold averageOf.
  destruct (0 <? _)%nat eqn:Hpos; split; try reflexivity.
  - split; [discriminate |]. apply Nat.ltb_lt in Hpos. lia.
  - split; [| reflexivity]. apply Nat.ltb_ge in Hpos. lia.
Qed.

Lemma sliceLast_suffix {A : Type} (n : nat) (l : list A) :
  (exists older, l = older ++ sliceLast n l)
  /\ List.length (sliceLast n l) = Nat.min n (List.length l).
Proof.
  unfold sliceLast. split.
  - exists (firstn (List.length l - n) l). now rewrite firstn_skipn.
  - rewrite length_skipn. lia.
Qed.

(** X13: the listing returns the last fifty payment requests and the
    last fifty attempts, in their order (all of them when there are fewer);
    only the literal query value "true" restricts the attempts to completed
    ones, in which case every attempt returned is completed; the statistics
    returned beside them always cover the whole collections. *)
Theorem X13_listing_is_last_fifty (onlySuccessful : option string)
    (w : World) :
  let listing := getAllPayments onlySuccessful w in
  (exists older,
      paymentRequests w = older ++ all_paymentRequests listing)
  /\ List.length (all_paymentRequests listing)
     = Nat.min 50 (List.length (paymentRequests w))
  /\ (onlySuccessful = Some "true" ->
      Forall (fun a => Attempt.status a = completed)
             (all_completedPayments listing)
      /\ exists older,
           getSuccessfulPayments w = older ++ all_completedPayments listing)
  /\ (onlySuccessful <> Some "true" ->
      (exists older, payments w = older ++ all_completedPayments listing)
      /\ List.length (all_completedPayments listing)
         = Nat.min 50 (List.length (payments w)))
  /\ all_statistics listing = getPaymentStatistics w.
Proof.
  cbv zeta. unfold getAllPayments.
  cbn [all_paymentRequests all_completedPayments all_statistics].
  split; [apply sliceLast_suffix |]. split; [apply sliceLast_suffix |].
  split; [| split; [| reflexivity]].
  - intros ->. cbn [String.eqb Ascii.eqb Bool.eqb andb].
    change ("true" =? "true")%string with true. cbv beta iota.
    split; [| apply sliceLast_suffix].
    apply Forall_forall. intros a Hin.
    destruct (sliceLast_suffix 50 (getSuccessfulPayments w)) as [[older E] _].
    assert (Hall : In a (getSuccessfulPayments w))
      by (rewrite E; apply in_or_app; now right).
    unfold getSuccessfulPayments in Hall. apply filter_In in Hall.
    destruct Hall as [_ Hst].
    destruct (Attempt.status a); try discriminate; reflexivity.
  - intros Hne.
    assert (Honly : match onlySuccessful with
                    | Some v => (v =? "true")%string
                    | None => false
                    end = false).
    { destruct onlySuccessful as [v |]; [| reflexivity].
      apply String.eqb_neq. congruence. }
    rewrite Honly. apply sliceLast_suffix.
Qed.

Lemma X13_listing_witness :
  let w := Sample.world Processing 5000
             [Sample.row Sample.alice failed_pin 1;
              Sample.row Sample.alice completed 2] in
  List.map Attempt.status
    (all_completedPayments (getAllPayments (Some "true") w)) = [completed]
  /\ List.map Attempt.status
       (all_completedPayments (getAllPayments (Some "TRUE") w))
     = [failed_pin; completed].
Proof.
  cbv zeta. split; [reflexivity |].
  destruct (proj1 (proj2 (proj2 (proj2
              (X13_listing_is_last_fifty (Some "TRUE")
                 (Sample.world Processing 5000
                    [Sample.row Sample.alice failed_pin 1;
                     Sample.row Sample.alice completed 2])))))
              ltac:(discriminate)) as [_ Hlen].
  reflexivity.
Defined.

End Reports.

(** ** Verify-PIN: the outcomes after a matching PIN, and retries *)
Section Outcomes.
Import PaymentService AccountService PaymentController.

Lemma credentialCheck_accounts (env : Env) (w w' : World)
    (paymentRequest : Request.t) :
  accounts w' = accounts w ->
  credentialCheck env w' paymentRequest = credentialCheck env w paymentRequest.
Proof.
  intros E. unfold credentialCheck, findAccountByCredentialData,
    getAllAccounts. now rewrite E.
Qed.

Lemma verifyPIN_not_processing (cfg : SecurityConfig.t) (env : Env)
    (paymentId : string) (pin : option string) (w : World) (r : Request.t) :
  getPaymentRequestById w paymentId = Some r ->
  Request.status r <> Processing ->
  let result := verifyPINAndCompletePayment cfg env paymentId pin w in
  success (snd result) = false
  /\ accounts (fst result) = accounts w
  /\ paymentRequests (fst result) = paymentRequests w.
Proof.
  intros Hfind Hst. cbv zeta.
  destruct (truthy paymentId) eqn:Hid;
  [destruct (or_null pin) as [p |] eqn:Hpin |].
  - rewrite (verifyPIN_wrong_state cfg env paymentId pin p w r);
      try assumption. now cbn.
  - destruct (verifyPIN_rejected cfg env paymentId pin w) as [E | [E | E]];
      [now auto | rewrite E; now cbn ..].
  - destruct (verifyPIN_rejected cfg env paymentId pin w) as [E | [E | E]];
      [now auto | rewrite E; now cbn ..].
Qed.

Lemma set_field_in (k : string) (v : MetaValue)
    (m : list (string * MetaValue)) :
  In (k, v) (set_field k v m).
Proof.
  induction m as [| [k' v'] rest IH]; cbn [set_field]; [now left |].
  destruct (k' =? k)%string; [now left | now right].
Qed.

Lemma set_field_keep (k k' : string) (v v' : MetaValue)
    (m : list (string * MetaValue)) :
  k' <> k -> In (k, v) m -> In (k, v) (set_field k' v' m).
Proof.
  intros Hne. induction m as [| [k0 v0] rest IH]; cbn [set_field In];
    [tauto |].
  destruct (String.eqb_spec k0 k') as [-> | Hk].
  - intros [E | Hin]; [injection E as -> ->; congruence | now right].
  - intros [E | Hin]; [now left | right; now apply IH].
Qed.


Lemma lookup_after_set_nth (paymentId : string) (l : list Request.t)
    (i : nat) (r r' : Request.t) :
  findIndex (fun req => (Request.id req =? paymentId)%string) l = Some (i, r) ->
  sameRequest r r' ->
  find (fun req => (Request.id req =? paymentId)%string) (set_nth i r' l)
  = Some r'.
Proof.
  intros Hi (Hid & _). rewrite findIndex_find.
  erewrite findIndex_set_nth; [reflexivity | exact Hi |].
  rewrite Hid. now destruct (findIndex_nth _ _ _ _ Hi) as [_ Hp].
Qed.

Lemma completePayment_insufficient (env : Env) (paymentId : string)
    (paymentRequest : Request.t) (account : Account.t) (w : World) :
  truthy paymentId = true ->
  getPaymentRequestById w paymentId = Some paymentRequest ->
  (Account.balance account <? Request.amount paymentRequest) = true ->
  exists i row r',
    findIndex (fun req => (Request.id req =? paymentId)%string)
              (paymentRequests w) = Some (i, paymentRequest)
    /\ sameRequest paymentRequest r'
    /\ Request.status r' = Failed
    /\ Attempt.status row = failed_insufficient_funds
    /\ Attempt.accountId row = or_null (Some (Account.id account))
    /\ Attempt.previousBalance row
       = or_null_num (Some (Account.balance account))
    /\ Attempt.newBalance row = None
    /\ completePayment env paymentId paymentRequest account w
       = (mkWorld (set_nth i r' (paymentRequests w))
            (payments w ++ [row]) (accounts w) (outbox w),
          Returned
            (mkResponse 400 false
               (Error (InsufficientBalanceMsg (Account.balance account)
                         (Request.amount paymentRequest))))).
Proof.
  intros Hid Hfind Hlow.
  unfold getPaymentRequestById, getAllPaymentRequests in Hfind.
  destruct (find_findIndex _ _ _ Hfind) as [i Hi].
  exists i. unfold completePayment. rewrite Hlow.
  cbv beta iota delta [bind ret].
  unfold recordPaymentAttempt, attemptOfAccount.
  cbn [d_paymentRequestId]. rewrite Hid. cbn [negb].
  unfold updatePaymentRequestStatus, getAllPaymentRequests.
  cbn [with_payments paymentRequests]. rewrite Hi.
  do 2 eexists.
  repeat apply conj; cycle -1; [reflexivity | ..];
    try reflexivity; assumption.
Qed.

(** X14: on a request in PROCESSING with the right PIN, when the account
    holds less than the amount: no balance changes and nothing is sent; one
    failed_insufficient_funds row is appended, carrying the balance found
    (or null when that balance is zero) and no new balance; the request
    becomes FAILED, keeping its identity; the reply is the 400 failure
    naming both sums; and every later verify-PIN call for this request fails
    without touching a balance or the request. *)
Theorem X14_insufficient_funds (cfg : SecurityConfig.t) (env : Env)
    (paymentId : string) (pin : option string) (p : string) (w : World)
    (paymentRequest : Request.t) (account : Account.t) :
  truthy paymentId = true ->
  or_null pin = Some p ->
  getPaymentRequestById w paymentId = Some paymentRequest ->
  Request.status paymentRequest = Processing ->
  credentialCheck env w paymentRequest = Resolved account ->
  (p =? Account.pin account)%string = true ->
  Account.balance account < Request.amount paymentRequest ->
  let result := verifyPINAndCompletePayment cfg env paymentId pin w in
  accounts (fst result) = accounts w
  /\ outbox (fst result) = outbox w
  /\ (exists row,
        payments (fst result) = payments w ++ [row]
        /\ Attempt.status row = failed_insufficient_funds
        /\ Attempt.accountId row = or_null (Some (Account.id account))
        /\ Attempt.previousBalance row
           = or_null_num (Some (Account.balance account))
        /\ Attempt.newBalance row = None)
  /\ (exists r',
        getPaymentRequestById (fst result) paymentId = Some r'
        /\ Request.status r' = Failed
        /\ sameRequest paymentRequest r')
  /\ snd result
     = mkResponse 400 false
         (Error (InsufficientBalanceMsg (Account.balance account)
                   (Request.amount paymentRequest)))
  /\ (forall cfg' env' pin',
         let again :=
           verifyPINAndCompletePayment cfg' env' paymentId pin' (fst result) in
         success (snd again) = false
         /\ accounts (fst again) = accounts w
         /\ paymentRequests (fst again) = paymentRequests (fst result)).
Proof.
  intros Hid Hpin Hfind Hst Hres Heq Hlow. cbv zeta.
  apply Z.ltb_lt in Hlow.
  rewrite (verifyPIN_processing cfg env paymentId pin p w paymentRequest)
    by assumption.
  rewrite Hres, Heq. cbn [negb]. unfold handle.
  destruct (completePayment_insufficient env paymentId paymentRequest account
              w Hid Hfind Hlow)
    as (i & row & r' & Hi & Hsame & Hfailed & Hrow & Hacc & Hprev & Hnew
        & ->).
  cbn [fst snd accounts outbox payments paymentRequests].
  assert (Hlookup :
            getPaymentRequestById
              (mkWorld (set_nth i r' (paymentRequests w))
                 (payments w ++ [row]) (accounts w) (outbox w)) paymentId
            = Some r')
    by (apply (lookup_after_set_nth paymentId _ i paymentRequest r' Hi Hsame)).
  split; [reflexivity |]. split; [reflexivity |].
  split; [now exists row |]. split; [now exists r' |].
  split; [reflexivity |].
  intros cfg' env' pin'.
  apply (verifyPIN_not_processing cfg' env' paymentId pin' _ r' Hlookup).
  congruence.
Qed.

Lemma X14_insufficient_funds_witness :
  let w := mkWorld [Sample.largeRequest] [] [Sample.alice; Sample.bob] [] in
  let result :=
    verifyPINAndCompletePayment Sample.policy
      (Sample.envAt 2000 "pay_a" (Some (Sample.proofFor "Bob Example" "2222")))
      "pay_1" (Some "771100") w in
  accounts (fst result) = [Sample.alice; Sample.bob]
  /\ List.map Request.status (paymentRequests (fst result)) = [Failed].
Proof.
  cbv zeta.
  destruct (X14_insufficient_funds Sample.policy
              (Sample.envAt 2000 "pay_a"
                 (Some (Sample.proofFor "Bob Example" "2222")))
              "pay_1" (Some "771100") "771100"
              (mkWorld [Sample.largeRequest] [] [Sample.alice; Sample.bob] [])
              Sample.largeRequest Sample.bob
              eq_refl eq_refl eq_refl eq_refl eq_refl eq_refl
              ltac:(cbn; lia)) as (Hacc & _).
  split; [exact Hacc | reflexivity].
Defined.



Lemma Forall_set_nth {A : Type} (P : A -> Prop) (l : list A) (i : nat)
    (y : A) :
  Forall P l -> P y -> Forall P (set_nth i y l).
Proof.
  intros Hall Hy. revert i.
  induction Hall as [| z rest Hz Hrest IH]; intros [| i]; cbn [set_nth];
    constructor; auto.
Qed.

(** X16: verify-PIN never overdraws: if no account has a negative
    balance before a call, none has one after it, whatever the request, the
    PIN and the verifier's answer. *)
Theorem X16_no_overdraft (cfg : SecurityConfig.t) (env : Env)
    (paymentId : string) (pin : option string) (w : World) :
  Forall (fun a => 0 <= Account.balance a) (accounts w) ->
  Forall (fun a => 0 <= Account.balance a)
         (accounts (fst (verifyPINAndCompletePayment cfg env paymentId pin w))).
Proof.
  intros Hall.
  destruct (verifyPIN_debits_on_success_only cfg env paymentId pin w)
    as [(_ & -> & _) | (_ & pr & account & r' & _ & _ & _ & Hle & -> & _)];
    [exact Hall |].
  unfold updateAccountBalance, getAllAccounts.
  destruct (findIndex _ (accounts w)) as [[j a] |]; [| exact Hall].
  cbn [fst with_accounts accounts].
  apply Forall_set_nth; [exact Hall |]. cbn [Account.balance]. lia.
Qed.

Lemma X16_no_overdraft_witness :
  Forall (fun a => 0 <= Account.balance a)
         (accounts
            (fst (verifyPINAndCompletePayment Sample.policy
                    (Sample.envAt 2000 "pay_a"
                       (Some (Sample.proofFor "Bob Example" "2222")))
                    "pay_1" (Some "771100")
                    (Sample.world Processing 5000 [])))).
Proof.
  apply (X16_no_overdraft Sample.policy
           (Sample.envAt 2000 "pay_a"
              (Some (Sample.proofFor "Bob Example" "2222")))
           "pay_1" (Some "771100") (Sample.world Processing 5000 [])).
  repeat constructor; cbn; lia.
Defined.

(** X17: a wrong PIN does not use up the request: after a verify-PIN
    call with a wrong PIN on a request in PROCESSING, a further call with
    the right PIN, for which the verifier still vouches for the same account
    and the balance suffices, succeeds and leaves the request COMPLETED. *)
Theorem X17_retry_after_wrong_pin (cfg : SecurityConfig.t)
    (env1 env2 : Env) (paymentId : string) (wrong right : string)
    (w : World) (paymentRequest : Request.t) (account : Account.t) :
  truthy paymentId = true ->
  truthy wrong = true ->
  truthy right = true ->
  getPaymentRequestById w paymentId = Some paymentRequest ->
  Request.status paymentRequest = Processing ->
  credentialCheck env1 w paymentRequest = Resolved account ->
  credentialCheck env2 w paymentRequest = Resolved account ->
  (wrong =? Account.pin account)%string = false ->
  (right =? Account.pin account)%string = true ->
  Request.amount paymentRequest <= Account.balance account ->
  let first :=
    verifyPINAndCompletePayment cfg env1 paymentId (Some wrong) w in
  let second :=
    verifyPINAndCompletePayment cfg env2 paymentId (Some right) (fst first) in
  success (snd first) = false
  /\ success (snd second) = true
  /\ exists r',
       getPaymentRequestById (fst second) paymentId = Some r'
       /\ Request.status r' = Completed.
Proof.
  intros Hid Hw Hr Hfind Hst Hres1 Hres2 Hne Heq Hle. cbv zeta.
  assert (Hpin1 : or_null (Some wrong) = Some wrong)
    by (cbn; now rewrite Hw).
  assert (Hpin2 : or_null (Some right) = Some right)
    by (cbn; now rewrite Hr).
  rewrite (verifyPIN_processing cfg env1 paymentId (Some wrong) wrong w
             paymentRequest) by assumption.
  rewrite Hres1, Hne. cbn [negb]. unfold handle at 1 2 3.
  rewrite onInvalidPin_runs by assumption. cbn [fst snd success fail].
  split; [reflexivity |].
  set (w1 := mkWorld _ _ _ _).
  assert (Hfind1 : getPaymentRequestById w1 paymentId = Some paymentRequest)
    by exact Hfind.
  assert (Hres : credentialCheck env2 w1 paymentRequest = Resolved account)
    by (rewrite <- Hres2; now apply credentialCheck_accounts).
  rewrite (verifyPIN_processing cfg env2 paymentId (Some right) right w1
             paymentRequest) by assumption.
  rewrite Hres, Heq. cbn [negb]. unfold handle.
  destruct (completePayment_runs env2 paymentId paymentRequest account w1
              Hid Hfind1 (resolved_account_known _ _ _ _ Hres))
    as (i & Hi & Hrun).
  destruct (Z.ltb_spec (Account.balance account)
                       (Request.amount paymentRequest)) as [Hlt | _];
    [lia |].
  destruct Hrun as (row & r' & done & _ & _ & Hdone & Hsame & ->).
  cbn [fst snd success]. split; [reflexivity |].
  exists r'. split; [| exact Hdone].
  unfold getPaymentRequestById, getAllPaymentRequests. cbn [paymentRequests].
  rewrite findIndex_find.
  erewrite findIndex_set_nth; [reflexivity | exact Hi |].
  rewrite Hsame. now destruct (findIndex_nth _ _ _ _ Hi) as [_ Hp].
Qed.

Lemma X17_retry_witness :
  let env := Sample.envAt 2000 "pay_a"
               (Some (Sample.proofFor "Alice Example" "1111")) in
  let first :=
    verifyPINAndCompletePayment Sample.policy env "pay_1" (Some "000000")
      (Sample.world Processing 5000 []) in
  success
    (snd (verifyPINAndCompletePayment Sample.policy
            (Sample.envAt 2500 "pay_b"
               (Some (Sample.proofFor "Alice Example" "1111")))
            "pay_1" (Some "482913") (fst first)))
  = true.
Proof.
  cbv zeta.
  apply (X17_retry_after_wrong_pin Sample.policy
           (Sample.envAt 2000 "pay_a"
              (Some (Sample.proofFor "Alice Example" "1111")))
           (Sample.envAt 2500 "pay_b"
              (Some (Sample.proofFor "Alice Example" "1111")))
           "pay_1" "000000" "482913" (Sample.world Processing 5000 [])
           (Sample.request Processing 5000) Sample.alice
           eq_refl eq_refl eq_refl eq_refl eq_refl eq_refl eq_refl eq_refl
           eq_refl ltac:(cbn; lia)).
Defined.

End Outcomes.

(** ** The failure count as the ledger grows *)
Section CountDynamics.
Import PaymentService AccountService PaymentController.

Lemma count_append_row (w w' : World) (row : Attempt.t) (accountId : string) :
  payments w' = payments w ++ [row] ->
  (belongsTo accountId row = false ->
   getConsecutivePinFailures w' accountId
   = getConsecutivePinFailures w accountId)
  /\ (belongsTo accountId row = true ->
      (forall p, In p (getPaymentsByAccountId w accountId) ->
                 Attempt.timestamp p < Attempt.timestamp row) ->
      getConsecutivePinFailures w' accountId
      = match Attempt.status row with
        | failed_pin => getConsecutivePinFailures w accountId + 1
        | completed => 0
        | _ => getConsecutivePinFailures w accountId
        end).
Proof.
  intros E. unfold getConsecutivePinFailures, getPaymentsByAccountId,
    PaymentService.getAllPayments.
  rewrite E, filter_app. cbn [filter]. split.
  - intros ->. now rewrite app_nil_r.
  - intros -> Hnew. rewrite sortNewestFirst_newest by exact Hnew.
    cbn [countLoop]. destruct (Attempt.status row); try reflexivity.
    rewrite !countLoop_spec. lia.
Qed.

(** X18: how one appended ledger row moves an account's consecutive
    failure count. A row that names another account, or none, never changes
    it. A row of the account whose timestamp is later than all of the
    account's earlier rows raises the count by exactly one when it is
    failed_pin, puts it to zero when it is completed, and leaves it as it
    is for every other status. *)
Theorem X18_count_after_recorded_attempt (env : Env) (data : PaymentData)
    (w : World) (accountId : string) :
  truthy (d_paymentRequestId data) = true ->
  let w' := fst (recordPaymentAttempt env data w) in
  (or_null (d_accountId data) <> Some accountId ->
   getConsecutivePinFailures w' accountId
   = getConsecutivePinFailures w accountId)
  /\ (or_null (d_accountId data) = Some accountId ->
      (forall p, In p (getPaymentsByAccountId w accountId) ->
                 Attempt.timestamp p < now env) ->
      getConsecutivePinFailures w' accountId
      = match d_status data with
        | failed_pin => getConsecutivePinFailures w accountId + 1
        | completed => 0
        | _ => getConsecutivePinFailures w accountId
        end).
Proof.
  intros Hpid. cbv zeta. unfold recordPaymentAttempt. rewrite Hpid.
  cbn [negb fst].
  match goal with
  | |- context [with_payments w (_ ++ [?r])] => set (row := r)
  end.
  destruct (count_append_row w
              (with_payments w (PaymentService.getAllPayments w ++ [row]))
              row accountId eq_refl) as [Hother Hsame].
  split.
  - intros Hne. apply Hother. unfold belongsTo, row.
    cbn [Attempt.accountId].
    destruct (or_null (d_accountId data)) as [a |]; [| reflexivity].
    apply String.eqb_neq. congruence.
  - intros Hacc Hnew. apply Hsame.
    + unfold belongsTo, row. cbn [Attempt.accountId]. rewrite Hacc.
      apply String.eqb_refl.
    + exact Hnew.
Qed.

Lemma X18_count_witness :
  getConsecutivePinFailures
    (fst (recordPaymentAttempt (Sample.envAt 9 "pay_a" None)
            (attemptOfAccount "pay_1" (Sample.request Processing 5000)
               Sample.alice failed_expired None None None None None None None)
            (Sample.world Processing 5000 Sample.twoFailures)))
    "acc_alice"
  = 2.
Proof.
  apply (proj2 (X18_count_after_recorded_attempt
                  (Sample.envAt 9 "pay_a" None)
                  (attemptOfAccount "pay_1" (Sample.request Processing 5000)
                     Sample.alice failed_expired None None None None None
                     None None)
                  (Sample.world Processing 5000 Sample.twoFailures)
                  "acc_alice" eq_refl) eq_refl).
  cbn. intros p [<- | [<- | []]]; cbn; lia.
Defined.

Lemma filter_length_insert (f : Attempt.t -> bool) (a : Attempt.t)
    (l : list Attempt.t) :
  List.length (filter f (insertNewestFirst a l))
  = List.length (filter f (a :: l)).
Proof.
  induction l as [| b rest IH]; [reflexivity |].
  cbn [insertNewestFirst].
  destruct (Attempt.timestamp b <=? Attempt.timestamp a); [reflexivity |].
  cbn [filter] in *. destruct (f b), (f a); cbn [List.length] in *; lia.
Qed.

Lemma filter_length_sort (f : Attempt.t -> bool) (l : list Attempt.t) :
  List.length (filter f (sortNewestFirst l)) = List.length (filter f l).
Proof.
  induction l as [| a rest IH]; [reflexivity |].
  cbn [sortNewestFirst]. rewrite filter_length_insert. cbn [filter].
  destruct (f a); cbn [List.length]; lia.
Qed.

Lemma filter_length_prefix (f : Attempt.t -> bool) (l : list Attempt.t) :
  (List.length (filter f (beforeFirstCompleted l))
   <= List.length (filter f l))%nat.
Proof.
  induction l as [| a rest IH]; [reflexivity |].
  cbn [beforeFirstCompleted filter].
  destruct (hasStatus completed a); cbn [filter List.length]; [lia |].
  destruct (f a); cbn [List.length]; lia.
Qed.

(** X19: in the security statistics of an account, the consecutive
    failure count lies between zero and the number of failed_pin attempts
    of the account; successful payments and PIN failures together do not
    exceed the attempts; there is a last attempt exactly when the account
    has attempts, and it is one of the account's ledger rows with no row of
    the account newer than it. *)
Theorem X19_security_statistics_are_consistent (w : World)
    (accountId : string) :
  let stats := getSecurityStatistics w accountId in
  0 <= s_consecutivePinFailures stats <= Z.of_nat (s_pinFailures stats)
  /\ (s_successfulPayments stats + s_pinFailures stats
      <= s_totalAttempts stats)%nat
  /\ (s_lastAttempt stats = None <-> s_totalAttempts stats = O)
  /\ (forall a,
         s_lastAttempt stats = Some a ->
         In a (payments w) /\ belongsTo accountId a = true
         /\ forall p, In p (getPaymentsByAccountId w accountId) ->
                      Attempt.timestamp p <= Attempt.timestamp a).
Proof.
  cbv zeta. unfold getSecurityStatistics.
  cbn [s_consecutivePinFailures s_pinFailures s_successfulPayments
       s_totalAttempts s_lastAttempt].
  set (rows := getPaymentsByAccountId w accountId).
  pose proof (sortNewestFirst_perm rows) as Hperm.
  pose proof (sortNewestFirst_sorted rows) as Hsorted.
  split; [| split; [| split]].
  - unfold getConsecutivePinFailures. cbv zeta. rewrite countLoop_spec.
    pose proof (filter_length_prefix (hasStatus failed_pin)
                  (sortNewestFirst rows)) as Hle.
    rewrite filter_length_sort in Hle. unfold rows in *. lia.
  - clear Hperm Hsorted. induction rows as [| a rest IH]; [reflexivity |].
    cbn [filter List.length]. unfold hasStatus in *.
    destruct (Attempt.status a); cbn [AttemptStatus_eqb List.length]; lia.
  - apply Permutation_length in Hperm.
    destruct (sortNewestFirst rows) as [| a rest]; cbn [hd_error];
      cbn [List.length] in Hperm; split; intros H;
      try reflexivity; try discriminate; lia.
  - intros a Hhead.
    destruct (sortNewestFirst rows) as [| b rest] eqn:Hs; [discriminate |].
    injection Hhead as ->.
    assert (Hin : In a rows)
      by (eapply Permutation_in; [exact Hperm | now left]).
    unfold rows, getPaymentsByAccountId in Hin. apply filter_In in Hin.
    destruct Hin as [Hin Hbel]. split; [exact Hin |]. split; [exact Hbel |].
    intros p Hp.
    assert (Hp' : In p (a :: rest))
      by (eapply Permutation_in; [symmetry; exact Hperm | exact Hp]).
    destruct Hp' as [-> | Hp']; [lia |].
    unfold newestFirst in Hsorted. apply StronglySorted_inv in Hsorted.
    destruct Hsorted as [_ Hall]. rewrite Forall_forall in Hall.
    now apply Hall.
Qed.

Lemma X19_security_statistics_witness :
  option_map Attempt.timestamp
    (s_lastAttempt
       (getSecurityStatistics
          (Sample.world Processing 5000 Sample.fourFailures) "acc_alice"))
  = Some 4.
Proof.
  destruct (proj2 (proj2 (proj2
              (X19_security_statistics_are_consistent
                 (Sample.world Processing 5000 Sample.fourFailures)
                 "acc_alice")))
              (Sample.row Sample.alice failed_pin 4) eq_refl)
    as (_ & _ & _).
  reflexivity.
Defined.

(** X20: every wrong PIN raises the count by one: on a request in
    PROCESSING whose proof resolves to an account with a non-empty id, when
    the clock is later than all of the account's ledger rows, a verify-PIN
    call with a wrong PIN leaves the account's consecutive failure count
    one higher than before, and that new count with its risk level is what
    the security log line carries. *)
Theorem X20_wrong_pin_raises_count (cfg : SecurityConfig.t) (env : Env)
    (paymentId : string) (pin : option string) (p : string) (w : World)
    (paymentRequest : Request.t) (account : Account.t) :
  truthy paymentId = true ->
  or_null pin = Some p ->
  getPaymentRequestById w paymentId = Some paymentRequest ->
  Request.status paymentRequest = Processing ->
  credentialCheck env w paymentRequest = Resolved account ->
  (p =? Account.pin account)%string = false ->
  truthy (Account.id account) = true ->
  (forall a, In a (getPaymentsByAccountId w (Account.id account)) ->
             Attempt.timestamp a < now env) ->
  let w' := fst (verifyPINAndCompletePayment cfg env paymentId pin w) in
  let before := getConsecutivePinFailures w (Account.id account) in
  getConsecutivePinFailures w' (Account.id account) = before + 1
  /\ In (SecurityStatusLogged (Account.id account) (before + 1)
           (SecurityConfig.getRiskLevel cfg (before + 1)))
        (outbox w').
Proof.
  intros Hid Hpin Hfind Hst Hres Hne Hacc Hnew. cbv zeta.
  rewrite (verifyPIN_processing cfg env paymentId pin p w paymentRequest)
    by assumption.
  rewrite Hres, Hne. cbn [negb]. unfold handle.
  rewrite onInvalidPin_runs by assumption. cbn [fst outbox].
  set (row := failedPinRow env paymentId paymentRequest account).
  assert (Hbel : belongsTo (Account.id account) row = true).
  { unfold belongsTo, row, failedPinRow. cbn [Attempt.accountId or_null].
    rewrite Hacc. apply String.eqb_refl. }
  assert (Hcount :
            forall w2, payments w2 = payments w ++ [row] ->
                       getConsecutivePinFailures w2 (Account.id account)
                       = getConsecutivePinFailures w (Account.id account) + 1).
  { intros w2 E.
    destruct (count_append_row w w2 row (Account.id account) E) as [_ H].
    now rewrite (H Hbel Hnew). }
  rewrite (Hcount (with_payments w (payments w ++ [row])) eq_refl).
  split; [now erewrite Hcount by reflexivity |].
  apply in_or_app. right. unfold securityResponse. now left.
Qed.

Lemma X20_wrong_pin_witness :
  getConsecutivePinFailures
    (fst (verifyPINAndCompletePayment Sample.policy
            (Sample.envAt 2000 "pay_a"
               (Some (Sample.proofFor "Alice Example" "1111")))
            "pay_1" (Some "000000")
            (Sample.world Processing 5000 Sample.fourFailures)))
    "acc_alice"
  = 5.
Proof.
  apply (proj1 (X20_wrong_pin_raises_count Sample.policy
                  (Sample.envAt 2000 "pay_a"
                     (Some (Sample.proofFor "Alice Example" "1111")))
                  "pay_1" (Some "000000") "000000"
                  (Sample.world Processing 5000 Sample.fourFailures)
                  (Sample.request Processing 5000) Sample.alice
                  eq_refl eq_refl eq_refl eq_refl eq_refl eq_refl eq_refl
                  ltac:(cbn; intros a [<- | [<- | [<- | [<- | []]]]];
                        cbn; lia))).
Defined.

End CountDynamics.

(** ** services/AccountService.js *)
Section Accounts.
Import AccountService.

(** X21: [updateAccountBalance] on an id that no account carries throws
    "Account not found" and changes nothing. On a known id it returns the
    account with the new balance, which a lookup of the id then finds; the
    last balance update records the old and the new balance, the
    description and the time; the account keeps its identity, every other id
    is found as before, the collection keeps its length, and payment
    requests, ledger and outbox are untouched. No bound is checked: any
    balance, negative included, is stored. *)
Theorem X21_balance_update_round_trip (env : Env) (accountId : string)
    (newBalance : Z) (description : string) (w : World) :
  let result :=
    updateAccountBalance env accountId newBalance description w in
  (getAccountById w accountId = None ->
   result = (w, Thrown "Account not found"))
  /\ (forall a,
         getAccountById w accountId = Some a ->
         exists a',
           snd result = Returned a'
           /\ getAccountById (fst result) accountId = Some a'
           /\ Account.balance a' = newBalance
           /\ Account.lastBalanceUpdate a'
              = Some (Account.mkUpdate (Account.balance a) newBalance
                        description (now env))
           /\ sameAccount a a'
           /\ (forall other,
                  other <> accountId ->
                  getAccountById (fst result) other = getAccountById w other)
           /\ List.length (accounts (fst result)) = List.length (accounts w)
           /\ paymentRequests (fst result) = paymentRequests w
           /\ payments (fst result) = payments w
           /\ outbox (fst result) = outbox w).
Proof.
  cbv zeta. unfold getAccountById, updateAccountBalance, getAllAccounts.
  split.
  - rewrite findIndex_find.
    destruct (findIndex _ _) as [[j a] |]; [discriminate | reflexivity].
  - intros a Hfind. destruct (find_findIndex _ _ _ Hfind) as [j Hj].
    rewrite Hj. destruct (findIndex_nth _ _ _ _ Hj) as [Hnth Hid].
    eexists. cbn [fst snd with_accounts accounts paymentRequests payments
                  outbox].
    split; [reflexivity |]. split; [| split; [reflexivity |]].
    + rewrite findIndex_find.
      erewrite findIndex_set_nth; [reflexivity | exact Hj | exact Hid].
    + cbn [Account.lastBalanceUpdate]. split; [reflexivity |].
      split; [now repeat split |]. split; [| split; [| now repeat split]].
      * intros other Hother. apply String.eqb_eq in Hid.
        eapply find_set_nth_other; [exact Hnth | |]; cbn [Account.id];
          apply String.eqb_neq; congruence.
      * apply length_set_nth.
Qed.

Lemma X21_balance_update_witness :
  let result :=
    updateAccountBalance (Sample.envAt 2000 "pay_a" None) "acc_bob" (-5)
      "correction" (Sample.world Processing 5000 []) in
  option_map Account.balance (getAccountById (fst result) "acc_bob")
  = Some (-5)
  /\ updateAccountBalance (Sample.envAt 2000 "pay_a" None) "acc_nobody" 1
       "correction" (Sample.world Processing 5000 [])
     = (Sample.world Processing 5000 [], Thrown "Account not found").
Proof.
  cbv zeta. split.
  - destruct (proj2 (X21_balance_update_round_trip
                       (Sample.envAt 2000 "pay_a" None) "acc_bob" (-5)
                       "correction" (Sample.world Processing 5000 []))
                    Sample.bob eq_refl) as (a' & _ & Hget & Hbal & _).
    exact (eq_trans (f_equal (option_map Account.balance) Hget)
                    (f_equal Some Hbal)).
  - apply (proj1 (X21_balance_update_round_trip
                    (Sample.envAt 2000 "pay_a" None) "acc_nobody" 1
                    "correction" (Sample.world Processing 5000 []))).
    reflexivity.
Defined.

Lemma length_append (s1 s2 : string) :
  String.length (s1 ++ s2)%string
  = (String.length s1 + String.length s2)%nat.
Proof. induction s1 as [| c s1 IH]; cbn; [reflexivity | now rewrite IH]. Qed.

Lemma length_substring (s : string) (n m : nat) :
  (n + m <= String.length s)%nat -> String.length (substring n m s) = m.
Proof.
  revert n m. induction s as [| c s IH]; intros [| n] [| m] H; cbn in *;
    try reflexivity; try lia.
  - f_equal. apply IH. lia.
  - apply IH. lia.
  - apply IH. lia.
Qed.

Lemma length_repeatStar (n : nat) : String.length (repeatStar n) = n.
Proof. induction n; cbn; [reflexivity | now f_equal]. Qed.

Lemma get_repeatStar (n i : nat) :
  (i < n)%nat -> String.get i (repeatStar n) = Some "*"%char.
Proof.
  revert i. induction n as [| n IH]; intros [| i] H; cbn; try lia;
    [reflexivity | apply IH; lia].
Qed.

(** X22: [maskPAN] keeps the length of the PAN; a PAN shorter than eight
    characters is returned as it is, unmasked; in one of eight characters
    or more the first four and the last four characters are kept in place
    and every character between them is an asterisk. *)
Theorem X22_maskPAN_shape (pan : string) :
  String.length (maskPAN pan) = String.length pan
  /\ ((String.length pan < 8)%nat -> maskPAN pan = pan)
  /\ ((8 <= String.length pan)%nat ->
      forall i,
        (i < String.length pan)%nat ->
        String.get i (maskPAN pan)
        = if (i <? 4)%nat || (String.length pan - 4 <=? i)%nat
          then String.get i pan
          else Some "*"%char).
Proof.
  unfold maskPAN.
  destruct (Nat.ltb_spec (String.length pan) 8) as [Hshort | Hlong].
  - split; [reflexivity | split; [reflexivity | lia]].
  - set (n := String.length pan) in *.
    assert (Hstart : String.length (substring 0 4 pan) = 4%nat)
      by (apply length_substring; fold n; lia).
    assert (Hend : String.length (substring (n - 4) 4 pan) = 4%nat)
      by (apply length_substring; fold n; lia).
    split; [| split; [lia |]].
    + rewrite !length_append, Hstart, Hend, length_repeatStar. lia.
    + intros _ i Hi.
      destruct (Nat.ltb_spec i 4) as [Hhead | Hrest]; cbn [orb].
      * rewrite <- append_correct1 by lia.
        rewrite substring_correct1 by lia. now rewrite Nat.add_0_r.
      * replace i with ((i - 4) + String.length (substring 0 4 pan))%nat
          at 1 by lia.
        rewrite <- append_correct2.
        destruct (Nat.leb_spec (n - 4) i) as [Htail | Hmid].
        -- replace (i - 4)%nat
             with ((i - (n - 4)) + String.length (repeatStar (n - 8)))%nat
             by (rewrite length_repeatStar; lia).
           rewrite <- append_correct2.
           rewrite substring_correct1 by lia. f_equal. lia.
        -- rewrite <- append_correct1 by (rewrite length_repeatStar; lia).
           apply get_repeatStar. lia.
Qed.

Lemma X22_maskPAN_witness :
  maskPAN "4111111111111111" = "4111********1111"
  /\ maskPAN "1234567" = "1234567".
Proof.
  split; [reflexivity |].
  apply (proj1 (proj2 (X22_maskPAN_shape "1234567"))). cbn. lia.
Defined.

End Accounts.

(** ** The polling and processing endpoints *)
Section Endpoints.
Import PaymentService AccountService PaymentController.

Ltac run_monad :=
  cbv beta iota delta [handle bind ret get throw try_catch emit].

Lemma proofAccepted_fields (env : Env) (st : string) (r : Request.t) :
  let r' := Object_assign (with_status r Processing (now env))
                          (proofAccepted env st) in
  Request.status r' = Processing
  /\ sameRequest r r'
  /\ Request.proofRequestId r' = Request.proofRequestId r
  /\ In ("proofState", MStr st) (Request.resultMetadata r')
  /\ In ("proofAcceptedAt", MTime (now env)) (Request.resultMetadata r').
Proof.
  cbv zeta. unfold Object_assign, with_status, proofAccepted, sameRequest.
  cbn [ad_proofRequestId ad_fields fold_left fst snd Request.status
       Request.id Request.amount Request.description Request.merchantId
       Request.createdAt Request.updatedAt Request.expiresAt
       Request.proofRequestId Request.resultMetadata].
  split; [reflexivity |]. split; [now repeat split |].
  split; [reflexivity |]. split.
  - apply set_field_keep; [discriminate | apply set_field_in].
  - apply set_field_in.
Qed.

(** A poll of a request that is not PENDING changes nothing. *)
Lemma getPaymentStatus_settled (env : Env) (paymentId : string) (w : World)
    (r : Request.t) :
  getPaymentRequestById w paymentId = Some r ->
  Request.status r <> Pending ->
  fst (getPaymentStatus env paymentId w) = w
  /\ exists proofState,
       snd (getPaymentStatus env paymentId w)
       = mkResponse 200 true (PaymentStatus r proofState).
Proof.
  intros Hfind Hst. unfold getPaymentStatus. run_monad.
  rewrite Hfind; cbv beta iota.
  assert (Hp : RequestStatus_eqb (Request.status r) Pending = false)
    by (destruct (Request.status r); try reflexivity; congruence).
  rewrite Hp. cbn [andb].
  destruct (or_null (Request.proofRequestId r)) as [prid |];
    [| cbn [fst snd]; split; [reflexivity | eexists; reflexivity]].
  destruct (procivisConfigured env); [| cbn [fst snd]; split; [reflexivity | eexists; reflexivity]].
  destruct (getProofRequestStatus env prid) as [st |];
    [| cbn [fst snd]; split; [reflexivity | eexists; reflexivity]].
  destruct (st =? "ACCEPTED")%string; cbn [andb]; rewrite ?Hp;
    cbn [fst snd]; (split; [reflexivity | eexists; reflexivity]).
Qed.

(** A poll of a PENDING request before its expiry. *)
Lemma getPaymentStatus_pending (env : Env) (paymentId : string) (w : World)
    (r : Request.t) :
  getPaymentRequestById w paymentId = Some r ->
  Request.status r = Pending ->
  now env < Request.expiresAt r ->
  let r' := Object_assign (with_status r Processing (now env))
                          (proofAccepted env "ACCEPTED") in
  if proofAcceptedFor env r
  then exists i,
         findIndex (fun req => (Request.id req =? paymentId)%string)
                   (paymentRequests w) = Some (i, r)
         /\ getPaymentStatus env paymentId w
            = (with_paymentRequests w (set_nth i r' (paymentRequests w)),
               mkResponse 200 true (PaymentStatus r' (Some "ACCEPTED")))
  else fst (getPaymentStatus env paymentId w) = w
       /\ exists proofState,
            snd (getPaymentStatus env paymentId w)
            = mkResponse 200 true (PaymentStatus r proofState).
Proof.
  intros Hfind Hst Hlive. cbv zeta.
  unfold proofAcceptedFor, getPaymentStatus, getProofRequestStatus. run_monad.
  rewrite Hfind; cbv beta iota. rewrite Hst.
  replace (Request.expiresAt r <=? now env) with false
    by (symmetry; apply Z.leb_gt; exact Hlive).
  cbn [RequestStatus_eqb andb].
  destruct (or_null (Request.proofRequestId r)) as [prid |];
    [| cbn [fst snd]; split; [reflexivity | eexists; reflexivity]].
  destruct (procivisConfigured env); cbn [andb]; [| cbn [fst snd]; split; [reflexivity | eexists; reflexivity]].
  destruct (getProofRequestDetails env prid) as [details |];
    cbn [option_map]; [| cbn [fst snd]; split; [reflexivity | eexists; reflexivity]].
  rewrite Hst. cbn [RequestStatus_eqb]. rewrite andb_true_r.
  destruct (String.eqb_spec (state details) "ACCEPTED") as [Hacc | Hacc];
    [| cbn [fst snd]; split; [reflexivity | eexists; reflexivity]].
  destruct (updatePaymentRequestStatus_runs env paymentId Processing
              (proofAccepted env (state details)) w r Hfind)
    as (i & Hi & Hupd & _).
  rewrite Hupd; cbv beta iota. cbn [fst snd]. rewrite Hacc.
  exists i. split; [exact Hi | reflexivity].
Qed.

(** A poll either changes nothing or leaves the request in a status other
    than PENDING. *)
Lemma getPaymentStatus_settles (env : Env) (paymentId : string) (w : World) :
  fst (getPaymentStatus env paymentId w) = w
  \/ exists r,
       getPaymentRequestById (fst (getPaymentStatus env paymentId w))
                             paymentId = Some r
       /\ Request.status r <> Pending.
Proof.
  destruct (getPaymentRequestById w paymentId) as [found |] eqn:Hfind.
  2:{ left. unfold getPaymentStatus. run_monad. now rewrite Hfind. }
  destruct (RequestStatus_eqb (Request.status found) Pending) eqn:Hp.
  2:{ left. apply (getPaymentStatus_settled env paymentId w found Hfind).
      intros E. rewrite E in Hp. discriminate. }
  assert (Hst : Request.status found = Pending)
    by (destruct (Request.status found); try discriminate; reflexivity).
  destruct (Z.leb_spec (Request.expiresAt found) (now env)) as [Hexp | Hlive].
  - right.
    destruct (updatePaymentRequestStatus_runs env paymentId Expired
                noAdditionalData w found Hfind) as (i & Hi & Hupd & Hget).
    apply Z.leb_le in Hexp.
    unfold getPaymentStatus. run_monad.
    rewrite Hfind; cbv beta iota. rewrite Hp, Hexp. cbn [andb].
    rewrite Hupd; cbv beta iota.
    unfold recordPaymentAttempt, attemptOf. cbn [d_paymentRequestId].
    destruct (truthy paymentId); cbn [negb].
    + cbn [Object_assign with_status noAdditionalData ad_proofRequestId
           ad_fields fold_left Request.proofRequestId Request.status
           Request.id Request.amount Request.description Request.merchantId
           Request.createdAt Request.updatedAt Request.expiresAt
           Request.resultMetadata].
      destruct (or_null (Request.proofRequestId found)) as [prid |];
        [| cbn [fst snd]; eexists; split; [exact Hget | discriminate]].
      destruct (procivisConfigured env);
        [| cbn [fst snd]; eexists; split; [exact Hget | discriminate]].
      destruct (getProofRequestStatus env prid) as [st |];
        [| cbn [fst snd]; eexists; split; [exact Hget | discriminate]].
      rewrite andb_false_r. cbn [fst snd].
      eexists; split; [exact Hget | discriminate].
    + cbn [fst snd]. eexists; split; [exact Hget | discriminate].
  - pose proof (getPaymentStatus_pending env paymentId w found Hfind Hst
                  ltac:(lia)) as Hrun.
    cbv zeta in Hrun. destruct (proofAcceptedFor env found).
    + right. destruct Hrun as (i & Hi & ->). cbn [fst].
      eexists. split.
      * unfold getPaymentRequestById, getAllPaymentRequests.
        cbn [with_paymentRequests paymentRequests].
        eapply lookup_after_set_nth; [exact Hi |].
        apply (proofAccepted_fields env "ACCEPTED" found).
      * rewrite (proj1 (proofAccepted_fields env "ACCEPTED" found)).
        discriminate.
    + left. exact (proj1 Hrun).
Qed.

(** X23: polling the status of a payment request. An unknown id is
    answered 404 and a request that is not PENDING is reported as it is,
    both without any change. A PENDING request polled before its expiry
    moves to PROCESSING exactly when the verifier is configured and reports
    its proof request as ACCEPTED: the request keeps its identity and its
    proof request id, gets the proof state and the acceptance time in its
    metadata, and ledger, accounts and outbox are untouched; otherwise
    nothing changes. A request is changed by at most one poll: after a poll
    that changed the state, no later poll of that id changes it again. *)
Theorem X23_polling_advances_once (env later : Env) (paymentId : string)
    (w : World) :
  let result := getPaymentStatus env paymentId w in
  (getPaymentRequestById w paymentId = None ->
   result = (w, fail 404 "Payment request not found"))
  /\ (forall r,
         getPaymentRequestById w paymentId = Some r ->
         Request.status r <> Pending ->
         fst result = w
         /\ exists proofState,
              snd result = mkResponse 200 true (PaymentStatus r proofState))
  /\ (forall r,
         getPaymentRequestById w paymentId = Some r ->
         Request.status r = Pending ->
         now env < Request.expiresAt r ->
         if proofAcceptedFor env r
         then exists r',
                getPaymentRequestById (fst result) paymentId = Some r'
                /\ snd result
                   = mkResponse 200 true (PaymentStatus r' (Some "ACCEPTED"))
                /\ Request.status r' = Processing
                /\ sameRequest r r'
                /\ Request.proofRequestId r' = Request.proofRequestId r
                /\ In ("proofState", MStr "ACCEPTED")
                      (Request.resultMetadata r')
                /\ In ("proofAcceptedAt", MTime (now env))
                      (Request.resultMetadata r')
                /\ payments (fst result) = payments w
                /\ accounts (fst result) = accounts w
                /\ outbox (fst result) = outbox w
         else fst result = w
              /\ exists proofState,
                   snd result
                   = mkResponse 200 true (PaymentStatus r proofState))
  /\ (fst result = w
      \/ fst (getPaymentStatus later paymentId (fst result)) = fst result).
Proof.
  cbv zeta. split; [| split; [| split]].
  - intros Hfind. unfold getPaymentStatus. run_monad. now rewrite Hfind.
  - intros r Hfind Hst. now apply getPaymentStatus_settled.
  - intros r Hfind Hst Hlive.
    pose proof (getPaymentStatus_pending env paymentId w r Hfind Hst Hlive)
      as Hrun.
    cbv zeta in Hrun. destruct (proofAcceptedFor env r); [| exact Hrun].
    destruct Hrun as (i & Hi & ->). cbn [fst snd].
    pose proof (proofAccepted_fields env "ACCEPTED" r) as Hf.
    cbv zeta in Hf. destruct Hf as (H1 & H2 & H3 & H4 & H5).
    eexists. split.
    + unfold getPaymentRequestById, getAllPaymentRequests.
      cbn [with_paymentRequests paymentRequests].
      eapply lookup_after_set_nth; [exact Hi | exact H2].
    + now repeat split.
  - destruct (getPaymentStatus_settles env paymentId w) as [E | (r & Hr & Hst)];
      [now left | right].
    now apply (getPaymentStatus_settled later paymentId _ r).
Qed.

Lemma X23_polling_witness :
  let env := Sample.envAt 2000 "pay_a"
               (Some (Sample.proofFor "Alice Example" "1111")) in
  let w := Sample.world Pending 5000 [] in
  option_map Request.status
    (getPaymentRequestById (fst (getPaymentStatus env "pay_1" w)) "pay_1")
  = Some Processing.
Proof.
  cbv zeta.
  destruct (proj1 (proj2 (proj2
              (X23_polling_advances_once
                 (Sample.envAt 2000 "pay_a"
                    (Some (Sample.proofFor "Alice Example" "1111")))
                 (Sample.envAt 2000 "pay_a" None)
                 "pay_1" (Sample.world Pending 5000 []))))
              (Sample.request Pending 5000) eq_refl eq_refl eq_refl)
    as (r' & Hget & _ & Hst & _).
  exact (eq_trans (f_equal (option_map Request.status) Hget)
                  (f_equal Some Hst)).
Defined.

(** X24: submitting a payment request to processing. An unknown id is
    answered 404 and a request in a terminal status 400, without any
    change. A PENDING or PROCESSING request submitted before its expiry
    moves to (or stays in) PROCESSING and is answered 200 exactly when the
    verifier is configured and reports its proof request as ACCEPTED;
    otherwise the call fails (400, or 500 when the verifier cannot be
    reached) and nothing changes. Ledger, accounts and outbox are never
    touched, and on a PENDING request the call leaves the same state as a
    poll made at the same moment. *)
Theorem X24_processing_needs_accepted_proof (env : Env) (paymentId : string)
    (w : World) :
  let result := processPayment env paymentId w in
  (getPaymentRequestById w paymentId = None ->
   result = (w, fail 404 "Payment request not found"))
  /\ (forall r,
         getPaymentRequestById w paymentId = Some r ->
         terminal (Request.status r) = true ->
         result
         = (w, mkResponse 400 false
                 (Error (CannotBeProcessed (Request.status r)))))
  /\ (forall r,
         getPaymentRequestById w paymentId = Some r ->
         terminal (Request.status r) = false ->
         now env < Request.expiresAt r ->
         (if proofAcceptedFor env r
          then snd result = mkResponse 200 true (ReadyForPin paymentId)
               /\ exists r',
                    getPaymentRequestById (fst result) paymentId = Some r'
                    /\ Request.status r' = Processing
                    /\ sameRequest r r'
                    /\ In ("proofAcceptedAt", MTime (now env))
                          (Request.resultMetadata r')
                    /\ payments (fst result) = payments w
                    /\ accounts (fst result) = accounts w
                    /\ outbox (fst result) = outbox w
          else fst result = w
               /\ success (snd result) = false
               /\ (statusCode (snd result) = 400
                   \/ statusCode (snd result) = 500))
         /\ (Request.status r = Pending ->
             fst result = fst (getPaymentStatus env paymentId w))).
Proof.
  cbv zeta. split; [| split].
  - intros Hfind. unfold processPayment. run_monad. now rewrite Hfind.
  - intros r Hfind Hterm. unfold processPayment. run_monad.
    rewrite Hfind; cbv beta iota.
    now destruct (Request.status r); try discriminate.
  - intros r Hfind Hlive Htime.
    assert (Hrun :
      if proofAcceptedFor env r
      then exists i,
             findIndex (fun req => (Request.id req =? paymentId)%string)
                       (paymentRequests w) = Some (i, r)
             /\ processPayment env paymentId w
                = (with_paymentRequests w
                     (set_nth i
                        (Object_assign (with_status r Processing (now env))
                                       (proofAccepted env "ACCEPTED"))
                        (paymentRequests w)),
                   mkResponse 200 true (ReadyForPin paymentId))
      else fst (processPayment env paymentId w) = w
           /\ success (snd (processPayment env paymentId w)) = false
           /\ (statusCode (snd (processPayment env paymentId w)) = 400
               \/ statusCode (snd (processPayment env paymentId w)) = 500)).
    { unfold proofAcceptedFor, processPayment. run_monad.
      rewrite Hfind; cbv beta iota.
      assert (Hok : negb (RequestStatus_eqb (Request.status r) Pending
                          || RequestStatus_eqb (Request.status r) Processing)
                    = false)
        by (destruct (Request.status r); try discriminate; reflexivity).
      rewrite Hok.
      replace (Request.expiresAt r <=? now env) with false
        by (symmetry; apply Z.leb_gt; exact Htime).
      destruct (or_null (Request.proofRequestId r)) as [prid |];
        [| cbn; auto].
      destruct (procivisConfigured env); cbn [andb]; [| cbn; auto].
      destruct (getProofRequestDetails env prid) as [details |];
        [| cbn; auto].
      destruct (String.eqb_spec (state details) "ACCEPTED") as [Hacc | Hacc];
        [| cbn; auto].
      destruct (updatePaymentRequestStatus_runs env paymentId Processing
                  (proofAccepted env (state details)) w r Hfind)
        as (i & Hi & Hupd & _).
      rewrite Hupd; cbv beta iota. rewrite Hacc.
      exists i. split; [exact Hi | reflexivity]. }
    split.
    + destruct (proofAcceptedFor env r); [| exact Hrun].
      destruct Hrun as (i & Hi & ->). cbn [fst snd].
      split; [reflexivity |].
      pose proof (proofAccepted_fields env "ACCEPTED" r) as Hf.
      cbv zeta in Hf. destruct Hf as (H1 & H2 & H3 & H4 & H5).
      eexists. split.
      * unfold getPaymentRequestById, getAllPaymentRequests.
        cbn [with_paymentRequests paymentRequests].
        eapply lookup_after_set_nth; [exact Hi | exact H2].
      * now repeat split.
    + intros Hst.
      pose proof (getPaymentStatus_pending env paymentId w r Hfind Hst Htime)
        as Hpoll.
      cbv zeta in Hpoll. destruct (proofAcceptedFor env r).
      * destruct Hrun as (i & Hi & ->). destruct Hpoll as (j & Hj & ->).
        rewrite Hi in Hj. injection Hj as <-. reflexivity.
      * destruct Hrun as (-> & _). destruct Hpoll as (-> & _). reflexivity.
Qed.

Lemma X24_processing_witness :
  let env := Sample.envAt 2000 "pay_a"
               (Some (Sample.proofFor "Alice Example" "1111")) in
  let w := Sample.world Pending 5000 [] in
  snd (processPayment env "pay_1" w)
  = mkResponse 200 true (ReadyForPin "pay_1")
  /\ fst (processPayment env "pay_1" w) = fst (getPaymentStatus env "pay_1" w).
Proof.
  cbv zeta.
  destruct (proj2 (proj2
              (X24_processing_needs_accepted_proof
                 (Sample.envAt 2000 "pay_a"
                    (Some (Sample.proofFor "Alice Example" "1111")))
                 "pay_1" (Sample.world Pending 5000 [])))
              (Sample.request Pending 5000) eq_refl eq_refl eq_refl)
    as (Hrun & Hsame).
  split; [exact (proj1 Hrun) | exact (Hsame eq_refl)].
Defined.

End Endpoints.

(** ** Creating a payment request through the controller *)
Section Creation.
Import PaymentService AccountService PaymentController.

Ltac run_monad :=
  cbv beta iota delta [handle bind ret get throw try_catch emit].

Lemma findIndex_app_last {A : Type} (q : A -> bool) (l : list A) (x : A) :
  find q l = None -> q x = true ->
  findIndex q (l ++ [x]) = Some (List.length l, x).
Proof.
  intros Hnone Hx. induction l as [| y rest IH]; cbn in *.
  - now rewrite Hx.
  - destruct (q y); [discriminate |]. now rewrite IH.
Qed.

Lemma set_nth_app_last {A : Type} (l : list A) (x y : A) :
  set_nth (List.length l) y (l ++ [x]) = l ++ [y].
Proof. induction l as [| z rest IH]; cbn; [reflexivity | now f_equal]. Qed.

(** X25: the controller's [createPaymentRequest]. A missing or
    non-positive amount is refused (400) and a blank merchant id fails
    (500), both without any change; a body without merchant id is booked
    under "default-merchant". Otherwise one PENDING request is appended and
    returned (201) whatever the verifier does: it carries the fresh id, the
    amount, the trimmed merchant id, and expires thirty minutes after its
    creation. It is linked to a proof request exactly when the verifier is
    configured and both of its calls succeed; when the verifier is
    configured and a call fails, the request stays without proof request
    and the answer carries a warning. (The id is taken to be new: an
    earlier request with the same id would receive the link instead.) *)
Theorem X25_creation_survives_verifier (env : Env) (verifier : Verifier)
    (baseUrl : string) (body : CreateBody) (w : World) :
  let merchantId :=
    match b_merchantId body with
    | Some m => m
    | None => "default-merchant"
    end in
  let linked :=
    match createProofRequest verifier with
    | Some proofRequestId =>
        match shareProofRequest verifier proofRequestId with
        | Some _ => Some proofRequestId
        | None => None
        end
    | None => None
    end in
  let result := createPaymentRequest env verifier baseUrl body w in
  ((forall a, b_amount body = Some a -> a <= 0) ->
   result = (w, NotCreated 400 "Valid payment amount is required"))
  /\ (forall a,
         b_amount body = Some a -> 0 < a -> trim merchantId = "" ->
         fst result = w /\ exists e, snd result = NotCreated 500 e)
  /\ (forall a,
         b_amount body = Some a -> 0 < a -> trim merchantId <> "" ->
         getPaymentRequestById w (freshId env) = None ->
         exists r message warning,
           snd result = Created r message warning
           /\ fst result = with_paymentRequests w (paymentRequests w ++ [r])
           /\ getPaymentRequestById (fst result) (freshId env) = Some r
           /\ Request.id r = freshId env
           /\ Request.status r = Pending
           /\ Request.amount r = a
           /\ Request.merchantId r = trim merchantId
           /\ Request.createdAt r = now env
           /\ Request.expiresAt r = now env + 1800000
           /\ Request.proofRequestId r
              = (if procivisConfigured env then linked else None)
           /\ warning
              = (if procivisConfigured env
                 then match linked with
                      | Some _ => None
                      | None =>
                          Some "Advanced verification features unavailable"
                      end
                 else None)).
Proof.
  cbv zeta. split; [| split].
  - intros Hbad. unfold createPaymentRequest. run_monad.
    destruct (b_amount body) as [a |]; [| reflexivity].
    specialize (Hbad a eq_refl). apply Z.leb_le in Hbad. now rewrite Hbad.
  - intros a Ha Hpos Hblank. unfold createPaymentRequest. run_monad.
    rewrite Ha.
    replace (a <=? 0) with false by (symmetry; apply Z.leb_gt; exact Hpos).
    unfold PaymentService.createPaymentRequest.
    cbn [n_amount n_merchantId n_description or_null]. run_monad.
    destruct (truthy _); [| cbn [fst snd]; eauto].
    replace (a =? 0) with false by (symmetry; apply Z.eqb_neq; lia).
    replace (a <=? 0) with false by (symmetry; apply Z.leb_gt; exact Hpos).
    rewrite Hblank. cbn [String.length Nat.eqb fst snd]. eauto.
  - intros a Ha Hpos Hmerchant Hfresh.
    unfold createPaymentRequest. run_monad. rewrite Ha.
    replace (a <=? 0) with false by (symmetry; apply Z.leb_gt; exact Hpos).
    unfold PaymentService.createPaymentRequest.
    cbn [n_amount n_merchantId n_description or_null]. run_monad.
    set (merchantId := match b_merchantId body with
                       | Some m => m
                       | None => "default-merchant"
                       end) in *.
    assert (Htruthy : truthy merchantId = true).
    { unfold truthy. destruct (String.eqb_spec merchantId "") as [E |];
        [| reflexivity].
      exfalso. apply Hmerchant. now rewrite E. }
    rewrite Htruthy.
    replace (a =? 0) with false by (symmetry; apply Z.eqb_neq; lia).
    replace (a <=? 0) with false by (symmetry; apply Z.leb_gt; exact Hpos).
    assert (Hlen : (String.length (trim merchantId) =? 0)%nat = false).
    { apply Nat.eqb_neq. intros E. apply Hmerchant.
      now destruct (trim merchantId). }
    rewrite Hlen.
    unfold getPaymentRequestById, getAllPaymentRequests in *.
    assert (Hlast : forall r,
               Request.id r = freshId env ->
               find (fun req => (Request.id req =? freshId env)%string)
                    (paymentRequests w ++ [r]) = Some r).
    { intros r Hid. rewrite find_app_none by exact Hfresh.
      cbn [find]. now rewrite Hid, String.eqb_refl. }
    destruct (procivisConfigured env); cbn [negb].
    + destruct (createProofRequest verifier) as [proofRequestId |].
      * destruct (shareProofRequest verifier proofRequestId)
          as [[qrCodeUrl appUrl] |].
        -- unfold updatePaymentRequestStatus, getAllPaymentRequests.
           cbn [with_paymentRequests paymentRequests Request.id].
           rewrite findIndex_app_last;
             [| exact Hfresh | apply String.eqb_refl].
           rewrite set_nth_app_last. cbn [fst snd].
           do 3 eexists. split; [reflexivity |].
           split; [reflexivity |].
           split; [apply Hlast; reflexivity | now repeat split].
        -- cbn [fst snd]. do 3 eexists. split; [reflexivity |].
           split; [reflexivity |].
           split; [apply Hlast; reflexivity | now repeat split].
      * cbn [fst snd]. do 3 eexists. split; [reflexivity |].
        split; [reflexivity |].
        split; [apply Hlast; reflexivity | now repeat split].
    + cbn [fst snd]. do 3 eexists. split; [reflexivity |].
      split; [reflexivity |].
      split; [apply Hlast; reflexivity | now repeat split].
Qed.

Lemma X25_creation_witness :
  let env := Sample.envAt 2000 "pay_2" None in
  let body := mkCreateBody (Some 1200) None None in
  let w := Sample.world Processing 5000 [] in
  let offline := mkVerifier None (fun _ => None) in
  let online :=
    mkVerifier (Some "proof_2") (fun _ => Some ("qr", "app")) in
  option_map Request.proofRequestId
    (getPaymentRequestById
       (fst (createPaymentRequest env offline "http://localhost:3000" body w))
       "pay_2")
  = Some None
  /\ option_map Request.merchantId
       (getPaymentRequestById
          (fst (createPaymentRequest env online "http://localhost:3000" body
                  w))
          "pay_2")
     = Some "default-merchant".
Proof.
  cbv zeta. split.
  - destruct (proj2 (proj2
                (X25_creation_survives_verifier
                   (Sample.envAt 2000 "pay_2" None)
                   (mkVerifier None (fun _ => None))
                   "http://localhost:3000"
                   (mkCreateBody (Some 1200) None None)
                   (Sample.world Processing 5000 [])))
                1200 eq_refl eq_refl ltac:(discriminate) eq_refl)
      as (r & message & warning & _ & _ & Hget & _ & _ & _ & _ & _ & _
          & Hlink & _).
    exact (eq_trans (f_equal (option_map Request.proofRequestId) Hget)
                    (f_equal Some Hlink)).
  - destruct (proj2 (proj2
                (X25_creation_survives_verifier
                   (Sample.envAt 2000 "pay_2" None)
                   (mkVerifier (Some "proof_2")
                      (fun _ => Some ("qr", "app")))
                   "http://localhost:3000"
                   (mkCreateBody (Some 1200) None None)
                   (Sample.world Processing 5000 [])))
                1200 eq_refl eq_refl ltac:(discriminate) eq_refl)
      as (r & message & warning & _ & _ & Hget & _ & _ & _ & Hm & _).
    exact (eq_trans (f_equal (option_map Request.merchantId) Hget)
                    (f_equal Some Hm)).
Defined.

End Creation.
